(** * STT-Compare: session coordinator and provider adapters

    A shallow embedding of [backend/main.py] and of the three files of
    [backend/providers/], with the properties of the natural-language
    specification stated over it.

    Layout:
    - [Py]: the fragment of Python's dynamic semantics the backend relies
      on (JSON-shaped values, [dict.get], [in], indexing, [*], [+],
      [int(str)], [collections.Counter]);
    - [Runtime]: the world the coroutines act on (client channel, vendor
      channels, adapter objects, session table, spawned tasks, log) and a
      state-and-exception monad over it;
    - [BaseSTTProvider], [DeepgramProvider], [SpeechmaticsProvider],
      [ConnectionManager]: the code, method by method;
    - the properties. *)

From Stdlib Require Import ZArith String List Ascii Lia Bool.
From Stdlib Require Import Floats.SpecFloat DecimalString.
From stdpp Require Import base option list sorting gmap strings.

Set Warnings "-register-all".
Local Open Scope string_scope.
Local Open Scope list_scope.
Local Open Scope Z_scope.

(* ===================================================================== *)
(** * Python values and built-in operations *)
(* ===================================================================== *)

Module Py.

(** What [json.loads] produces, and what the vendor SDK hands to its
    callbacks.  A [dict] keeps insertion order, so it is an association
    list with distinct keys; [float] is IEEE binary64, carried as the
    Standard Library's [spec_float] with precision 53 and [emax] 1024. *)
Inductive value :=
| VNone
| VBool (b : bool)
| VInt (z : Z)
| VFloat (f : spec_float)
| VStr (s : string)
| VList (l : list value)
| VDict (d : list (string * value)).

(** Exceptions: the class and the text [str(e)] yields.  The texts of
    interpreter-raised errors vary with the CPython version; the ones
    below are representative and no property depends on them. *)
Inductive exn_class :=
| JSONDecodeError | ConnectionClosed | AttributeError | KeyError
| IndexError | TypeError | ValueError | OverflowError
| WebSocketDisconnect | OtherError.

Record exn := Exn { exn_cls : exn_class; exn_str : string }.

Global Instance exn_class_eq_dec : EqDecision exn_class.
Proof. solve_decision. Defined.

(** The outcome of an expression: a raised exception or a value. *)
Definition res (A : Type) : Type := exn + A.

Definition ok {A} (a : A) : res A := inr a.
Definition throw {A} (c : exn_class) (msg : string) : res A := inl (Exn c msg).

Definition rbind {A B} (r : res A) (k : A -> res B) : res B :=
  match r with inl e => inl e | inr a => k a end.

Declare Scope res_scope.
Delimit Scope res_scope with res.
Notation "x <- e ;; k" := (rbind e (fun x => k))
  (at level 100, e at next level, right associativity) : res_scope.
Local Open Scope res_scope.

(** ** Floats *)

Definition prec64 : Z := 53.
Definition emax64 : Z := 1024.

(** The double nearest to [m * 2^e] (round to nearest, ties to even). *)
Definition f64 (m e : Z) : spec_float := binary_normalize prec64 emax64 m e false.

(** [float(z)] for an [int]: correctly rounded, [OverflowError] when the
    rounded magnitude does not fit. *)
Definition float_of_int (z : Z) : res spec_float :=
  match f64 z 0 with
  | S754_infinity _ => throw OverflowError "int too large to convert to float"
  | f => ok f
  end.

Definition fmul : spec_float -> spec_float -> spec_float := SFmul prec64 emax64.
Definition fadd : spec_float -> spec_float -> spec_float := SFadd prec64 emax64.

(** ** Types and truth *)

Definition type_name (v : value) : string :=
  match v with
  | VNone => "NoneType" | VBool _ => "bool" | VInt _ => "int"
  | VFloat _ => "float" | VStr _ => "str" | VList _ => "list"
  | VDict _ => "dict"
  end.

(** [bool(v)], the test an [if v:] makes. *)
Definition truthy (v : value) : bool :=
  match v with
  | VNone => false
  | VBool b => b
  | VInt z => negb (z =? 0)
  | VFloat (S754_zero _) => false
  | VFloat _ => true
  | VStr s => match s with EmptyString => false | String _ _ => true end
  | VList l => match l with [] => false | _ => true end
  | VDict d => match d with [] => false | _ => true end
  end.

(** ** Dictionaries *)

Fixpoint dict_lookup (d : list (string * value)) (k : string) : option value :=
  match d with
  | [] => None
  | (k', v) :: r => if String.eqb k k' then Some v else dict_lookup r k
  end.

(** [d[k] = v]: overwrite in place, or append a new key at the end. *)
Fixpoint dict_set (d : list (string * value)) (k : string) (v : value)
  : list (string * value) :=
  match d with
  | [] => [(k, v)]
  | (k', v') :: r =>
      if String.eqb k k' then (k', v) :: r else (k', v') :: dict_set r k v
  end.

Definition no_attribute {A} (v : value) (attr : string) : res A :=
  throw AttributeError
    ("'" ++ type_name v ++ "' object has no attribute '" ++ attr ++ "'").

(** [x.get(k, default)] *)
Definition get (x : value) (k : string) (default : value) : res value :=
  match x with
  | VDict d => ok (match dict_lookup d k with Some v => v | None => default end)
  | _ => no_attribute x "get"
  end.

(** [x.get(k)] *)
Definition get1 (x : value) (k : string) : res value := get x k VNone.

Fixpoint is_prefix (p s : string) : bool :=
  match p, s with
  | EmptyString, _ => true
  | String a p', String b s' => Ascii.eqb a b && is_prefix p' s'
  | String _ _, EmptyString => false
  end.

Fixpoint is_substring (p s : string) : bool :=
  is_prefix p s ||
  match s with
  | EmptyString => false
  | String _ s' => is_substring p s'
  end.

Definition is_str (s : string) (v : value) : bool :=
  match v with VStr t => String.eqb s t | _ => false end.

(** ["k" in x] for a string literal [k]: key membership for a [dict],
    element membership for a [list], substring test for a [str]. *)
Definition contains (k : string) (x : value) : res bool :=
  match x with
  | VDict d => ok (match dict_lookup d k with Some _ => true | None => false end)
  | VList l => ok (existsb (is_str k) l)
  | VStr s => ok (is_substring k s)
  | _ => throw TypeError
           ("argument of type '" ++ type_name x ++ "' is not iterable")
  end.

(** [x[k]] for a string literal [k] *)
Definition getitem (x : value) (k : string) : res value :=
  match x with
  | VDict d =>
      match dict_lookup d k with
      | Some v => ok v
      | None => throw KeyError ("'" ++ k ++ "'")
      end
  | VStr _ => throw TypeError "string indices must be integers"
  | VList _ => throw TypeError "list indices must be integers or slices, not str"
  | _ => throw TypeError ("'" ++ type_name x ++ "' object is not subscriptable")
  end.

(** [x[0]]; a [dict] here has only string keys, so [0] is never one. *)
Definition getitem0 (x : value) : res value :=
  match x with
  | VList (v :: _) => ok v
  | VList [] => throw IndexError "list index out of range"
  | VStr (String c _) => ok (VStr (String c EmptyString))
  | VStr EmptyString => throw IndexError "string index out of range"
  | VDict _ => throw KeyError "0"
  | _ => throw TypeError ("'" ++ type_name x ++ "' object is not subscriptable")
  end.

Fixpoint chars (s : string) : list value :=
  match s with
  | EmptyString => []
  | String c r => VStr (String c EmptyString) :: chars r
  end.

(** What [for y in x] enumerates. *)
Definition iter (x : value) : res (list value) :=
  match x with
  | VList l => ok l
  | VDict d => ok (map (fun kv => VStr (fst kv)) d)
  | VStr s => ok (chars s)
  | _ => throw TypeError ("'" ++ type_name x ++ "' object is not iterable")
  end.

(** ** Arithmetic *)

Inductive number := NInt (z : Z) | NFloat (f : spec_float).

(** [bool] is a subclass of [int]. *)
Definition as_number (v : value) : option number :=
  match v with
  | VBool b => Some (NInt (if b then 1 else 0))
  | VInt z => Some (NInt z)
  | VFloat f => Some (NFloat f)
  | _ => None
  end.

Definition as_int (v : value) : option Z :=
  match v with
  | VBool b => Some (if b then 1 else 0)
  | VInt z => Some z
  | _ => None
  end.

Definition arith (iop : Z -> Z -> Z) (fop : spec_float -> spec_float -> spec_float)
    (a b : number) : res value :=
  match a, b with
  | NInt x, NInt y => ok (VInt (iop x y))
  | NFloat x, NFloat y => ok (VFloat (fop x y))
  | NInt x, NFloat y => rbind (float_of_int x) (fun fx => ok (VFloat (fop fx y)))
  | NFloat x, NInt y => rbind (float_of_int y) (fun fy => ok (VFloat (fop x fy)))
  end.

Fixpoint repeat_string (n : nat) (s : string) : string :=
  match n with O => EmptyString | S n' => s ++ repeat_string n' s end.

Fixpoint repeat_list {A} (n : nat) (l : list A) : list A :=
  match n with O => [] | S n' => l ++ repeat_list n' l end.

Definition unsupported {A} (op : string) (a b : value) : res A :=
  throw TypeError ("unsupported operand type(s) for " ++ op ++ ": '"
                   ++ type_name a ++ "' and '" ++ type_name b ++ "'").

Definition non_int_repeat {A} (v : value) : res A :=
  throw TypeError ("can't multiply sequence by non-int of type '"
                   ++ type_name v ++ "'").

(** [a * b]: numeric product, or repetition of a sequence by an [int]
    (a non-positive count gives the empty sequence). *)
Definition mul (a b : value) : res value :=
  match as_number a, as_number b with
  | Some x, Some y => arith Z.mul fmul x y
  | _, _ =>
      match a, b with
      | VStr s, _ =>
          match as_int b with
          | Some n => ok (VStr (repeat_string (Z.to_nat n) s))
          | None => match b with VFloat _ => non_int_repeat b | _ => unsupported "*" a b end
          end
      | VList l, _ =>
          match as_int b with
          | Some n => ok (VList (repeat_list (Z.to_nat n) l))
          | None => match b with VFloat _ => non_int_repeat b | _ => unsupported "*" a b end
          end
      | _, VStr s =>
          match as_int a with
          | Some n => ok (VStr (repeat_string (Z.to_nat n) s))
          | None => match a with VFloat _ => non_int_repeat a | _ => unsupported "*" a b end
          end
      | _, VList l =>
          match as_int a with
          | Some n => ok (VList (repeat_list (Z.to_nat n) l))
          | None => match a with VFloat _ => non_int_repeat a | _ => unsupported "*" a b end
          end
      | _, _ => unsupported "*" a b
      end
  end.

(** [a + b]: numeric sum or concatenation of two sequences of one type. *)
Definition add (a b : value) : res value :=
  match as_number a, as_number b with
  | Some x, Some y => arith Z.add fadd x y
  | _, _ =>
      match a, b with
      | VStr s, VStr t => ok (VStr (s ++ t))
      | VList l, VList m => ok (VList (l ++ m))
      | _, _ => unsupported "+" a b
      end
  end.

(** ** Strings

    Strings are sequences of 8-bit characters; the text the vendors send
    in the fields read below is ASCII.  (Python's [int] also accepts the
    decimal digits of other scripts; those lie outside this model.) *)

(** [s.startswith(p)] *)
Definition startswith (s p : string) : bool := is_prefix p s.

(** [s[1:]] *)
Definition slice_from_1 (s : string) : string :=
  match s with EmptyString => EmptyString | String _ r => r end.

Definition upper_char (c : ascii) : ascii :=
  let n := nat_of_ascii c in
  if ((97 <=? n) && (n <=? 122))%nat then ascii_of_nat (n - 32) else c.

(** [s.upper()] *)
Fixpoint upper (s : string) : string :=
  match s with
  | EmptyString => EmptyString
  | String c r => String (upper_char c) (upper r)
  end.

(** [x.upper()] on a dynamic value *)
Definition upper_of (x : value) : res string :=
  match x with
  | VStr s => ok (upper s)
  | _ => no_attribute x "upper"
  end.

(** The characters [int] skips at both ends of a [str].  Of the ASCII
    characters these are tab, line feed, vertical tab, form feed,
    carriage return and space, and no others: the separators 28..31,
    which [str.strip] removes, make [int] raise.  Of the characters
    128..255, read as the code points of these numbers, they are the two
    that are Unicode white space, 133 and 160: before it parses, [int]
    replaces the white space above 126 by a space, so that [int('\xa03')]
    is 3 while [int('\x1c3')] raises. *)
Definition is_space (c : ascii) : bool :=
  let n := nat_of_ascii c in
  (((9 <=? n) && (n <=? 13)) || (n =? 32) || (n =? 133) || (n =? 160))%nat.

Definition digit_of (c : ascii) : option Z :=
  let n := nat_of_ascii c in
  if ((48 <=? n) && (n <=? 57))%nat then Some (Z.of_nat (n - 48)) else None.

Fixpoint lstrip (s : string) : string :=
  match s with
  | String c r => if is_space c then lstrip r else s
  | EmptyString => EmptyString
  end.

Fixpoint string_rev_onto (s acc : string) : string :=
  match s with
  | EmptyString => acc
  | String c r => string_rev_onto r (String c acc)
  end.

Definition string_rev (s : string) : string := string_rev_onto s EmptyString.

Definition strip (s : string) : string :=
  string_rev (lstrip (string_rev (lstrip s))).

(** Decimal digits with single underscores allowed between digits;
    [after_digit] tells whether the previous character was a digit. *)
Fixpoint digits_value (acc : Z) (after_digit : bool) (s : string) : option Z :=
  match s with
  | EmptyString => if after_digit then Some acc else None
  | String c r =>
      match digit_of c with
      | Some d => digits_value (10 * acc + d) true r
      | None =>
          if Ascii.eqb c "_" && after_digit then digits_value acc false r
          else None
      end
  end.

Definition signed_digits (s : string) : option Z :=
  match s with
  | String "-" r => option_map Z.opp (digits_value 0 false r)
  | String "+" r => digits_value 0 false r
  | _ => digits_value 0 false s
  end.

(** The digits of a literal, underscores and sign not counted. *)
Fixpoint count_digits (s : string) : Z :=
  match s with
  | EmptyString => 0
  | String c r =>
      match digit_of c with
      | Some _ => 1 + count_digits r
      | None => count_digits r
      end
  end.

(** [sys.int_max_str_digits] as the interpreter starts with it; nothing in
    the program changes it. *)
Definition int_max_str_digits : Z := 4300.

Definition decimal (n : Z) : string :=
  NilZero.string_of_uint (N.to_uint (Z.to_N n)).

(** [int(s)] for a [str], base 10: white space at both ends is skipped, a
    sign and digits with single underscores between them are read, and a
    well-formed literal of more digits than the limit is refused.  Every
    failure is a [ValueError]; for a literal that is both too long and
    followed by other characters, which of the two texts it carries
    depends on the CPython version. *)
Definition int_of_str (s : string) : res Z :=
  match signed_digits (strip s) with
  | Some z =>
      let digits := count_digits (strip s) in
      if int_max_str_digits <? digits
      then throw ValueError
             ("Exceeds the limit (4300 digits) for integer string conversion: value has "
              ++ decimal digits
              ++ " digits; use sys.set_int_max_str_digits() to increase the limit")
      else ok z
  | None =>
      throw ValueError ("invalid literal for int() with base 10: '" ++ s ++ "'")
  end.

(** [float(x)]; the parser of float literals is a parameter. *)
Definition float_of (parse : string -> option spec_float) (x : value)
  : res spec_float :=
  match x with
  | VFloat f => ok f
  | VInt z => float_of_int z
  | VBool b => float_of_int (if b then 1 else 0)
  | VStr s =>
      match parse s with
      | Some f => ok f
      | None => throw ValueError ("could not convert string to float: '" ++ s ++ "'")
      end
  | _ => throw TypeError
           ("float() argument must be a string or a real number, not '"
            ++ type_name x ++ "'")
  end.

(** ** Hashing and [collections.Counter]

    Two keys of a [dict] are one key when they are equal: [1], [1.0] and
    [True] are, as are [0], [0.0], [-0.0] and [False].  [key_of] sends a
    hashable value to a canonical form that identifies exactly the equal
    ones: a finite non-zero number is [m * 2^e] with [m] odd.  Every NaN
    that [json.loads] produces is the one object [json.decoder.NaN], which
    a [dict] finds by identity, hence a single [NKNan]. *)

Inductive numkey :=
| NKZero
| NKFin (neg : bool) (m : positive) (e : Z)
| NKInf (neg : bool)
| NKNan.

Inductive key := KNone | KStr (s : string) | KNum (n : numkey).

Global Instance numkey_eq_dec : EqDecision numkey.
Proof. solve_decision. Defined.

Global Instance key_eq_dec : EqDecision key.
Proof. solve_decision. Defined.

Fixpoint odd_part (m : positive) (e : Z) : positive * Z :=
  match m with
  | xO p => odd_part p (e + 1)
  | _ => (m, e)
  end.

Definition numkey_fin (neg : bool) (m : positive) (e : Z) : numkey :=
  let '(m', e') := odd_part m e in NKFin neg m' e'.

Definition numkey_of_int (z : Z) : numkey :=
  match z with
  | Z0 => NKZero
  | Zpos p => numkey_fin false p 0
  | Zneg p => numkey_fin true p 0
  end.

Definition numkey_of_float (f : spec_float) : numkey :=
  match f with
  | S754_zero _ => NKZero
  | S754_infinity s => NKInf s
  | S754_nan => NKNan
  | S754_finite s m e => numkey_fin s m e
  end.

(** [None] for an unhashable value ([list], [dict]). *)
Definition key_of (v : value) : option key :=
  match v with
  | VNone => Some KNone
  | VBool b => Some (KNum (numkey_of_int (if b then 1 else 0)))
  | VInt z => Some (KNum (numkey_of_int z))
  | VFloat f => Some (KNum (numkey_of_float f))
  | VStr s => Some (KStr s)
  | VList _ | VDict _ => None
  end.

Definition hash_key (v : value) : res key :=
  match key_of v with
  | Some k => ok k
  | None => throw TypeError ("unhashable type: '" ++ type_name v ++ "'")
  end.

(** A counter is a [dict] from elements to counts: insertion-ordered, and
    an entry keeps the first object that was inserted under its key. *)
Record centry := CEntry { ce_key : key; ce_elem : value; ce_count : nat }.

Fixpoint counter_incr (c : list centry) (k : key) (v : value) : list centry :=
  match c with
  | [] => [CEntry k v 1]
  | x :: r =>
      if decide (ce_key x = k)
      then CEntry (ce_key x) (ce_elem x) (S (ce_count x)) :: r
      else x :: counter_incr r k v
  end.

Fixpoint counter_update (c : list centry) (l : list value) : res (list centry) :=
  match l with
  | [] => ok c
  | v :: r => k <- hash_key v ;; counter_update (counter_incr c k v) r
  end.

(** [Counter(l)] *)
Definition Counter (l : list value) : res (list centry) := counter_update [] l.

(** [max(items, key=count)] keeps the first of the maximal items: a later
    item replaces the current one only when it is strictly greater. *)
Fixpoint max_from (best : centry) (r : list centry) : centry :=
  match r with
  | [] => best
  | x :: r' =>
      if (ce_count best <? ce_count x)%nat then max_from x r' else max_from best r'
  end.

(** [c.most_common(1)], that is [heapq.nlargest(1, c.items(), key=count)]. *)
Definition most_common_1 (c : list centry) : list (value * nat) :=
  match c with
  | [] => []
  | x :: r => let b := max_from x r in [(ce_elem b, ce_count b)]
  end.

(** [Counter(l).most_common(1)[0][0]] *)
Definition most_common_elem (l : list value) : res value :=
  c <- Counter l ;;
  match most_common_1 c with
  | (v, _) :: _ => ok v
  | [] => throw IndexError "list index out of range"
  end.

End Py.

(* ===================================================================== *)
(** * The world of the coroutines *)
(* ===================================================================== *)

Module Runtime.
Import Py.

Inductive provider := Speechmatics | Deepgram.

Global Instance provider_eq_dec : EqDecision provider.
Proof. solve_decision. Defined.

Definition bytes := list Byte.byte.

(** [speechmatics.voice.AgentServerMessageType], the members the adapter
    subscribes to. *)
Inductive AgentServerMessageType :=
| ADD_PARTIAL_SEGMENT | ADD_SEGMENT | SPEAKER_STARTED | SPEAKER_ENDED
| END_OF_TURN.

(** The awaited operations on objects the backend does not own: the
    client's WebSocket (a FastAPI object, named by a number), a vendor
    WebSocket of the [websockets] library and the Speechmatics SDK client
    (each named by the number it got when it was created). *)
Inductive call :=
| Accept (ws : nat)
    (* websocket.accept() *)
| SendText (ws : nat) (payload : value)
    (* websocket.send_text(json.dumps(payload)) *)
| WsConnect (url : string) (extra_headers : list (string * string))
    (* websockets.connect(url, extra_headers=...) *)
| WsSendText (h : nat) (payload : value)
    (* provider_websocket.send(json.dumps(payload)) *)
| WsSendBytes (h : nat) (data : bytes)
    (* provider_websocket.send(audio_data) *)
| WsRecv (h : nat)
    (* provider_websocket.recv() *)
| WsClose (h : nat)
    (* provider_websocket.close() *)
| NewVoiceAgentConfig (args : list (string * value))
    (* VoiceAgentConfig(...) *)
| SetVoiceConfigAttrs (cfg : nat) (attrs : list (string * value))
    (* voice_config.speaker_sensitivity = ..., and the two that follow *)
| NewVoiceAgentClient (api_key : value) (cfg : nat)
    (* VoiceAgentClient(api_key=..., config=voice_config) *)
| VoiceOn (c : nat) (k : AgentServerMessageType)
    (* voice_client.on(k)(handler) *)
| VoiceConnect (c : nat)
    (* voice_client.connect() *)
| VoiceSendAudio (c : nat) (data : bytes)
    (* voice_client.send_audio(audio_data) *)
| VoiceClose (c : nat).
    (* voice_client.close() *)

(** One entry of the history: the call and how it ended (an exception, or
    the text it returned; only [WsRecv] returns one that is read). *)
Definition event : Type := call * res string.

(** Everything outside the backend.  [respond] decides how a call ends
    from the history so far, which every call extends: any sequence of
    outcomes is the behaviour of some [respond].  The other fields are
    library functions left open: [json.loads], [str()] of a value that is
    not a [str], and the parser of [float(str)]. *)
Record Env := {
  respond : list event -> call -> res string;
  json_loads : string -> res value;
  repr : value -> string;
  parse_float : string -> option spec_float
}.

(** [str(v)] and the [{v}] of an f-string *)
Definition str (E : Env) (v : value) : string :=
  match v with VStr s => s | _ => repr E v end.

(** A connection object of the [websockets] library.  [vs_closed] is its
    [closed] property: true once [close()] has returned, and once [send]
    or [recv] has raised [ConnectionClosed]. *)
Record vendor_socket := { vs_id : nat; vs_closed : bool }.

(** An adapter object: the fields [BaseSTTProvider.__init__] sets, and
    [voice_client] of [SpeechmaticsProvider] ([cls] is the object's
    class; [DeepgramProvider.ws_url] is a constant of the class). *)
Record adapter := {
  cls : provider;
  api_key : value;
  config : value;
  websocket : nat;
  is_connected : bool;
  provider_websocket : option vendor_socket;
  voice_client : option nat
}.

(** The per-connection dict [connect] creates: its three keys. *)
Record connection_data := {
  cd_speechmatics : option nat;
  cd_deepgram : option nat;
  cd_config : option value
}.

(** [asyncio.create_task] arguments. *)
Inductive task :=
| ListenTask (self : nat)
| DisconnectTask (self : nat)
| HandlerTask (self : nat) (k : AgentServerMessageType) (message : value).

Inductive level := INFO | ERROR | PRINT.

(** The state: history of external calls (newest first), the adapter
    objects ever constructed (an object's reference is its index),
    [manager.active_connections], the tasks created (newest first) and
    the log lines (newest first).  The log keeps the error lines in full;
    informational lines that only echo data are shortened or left out. *)
Record world := {
  trace : list event;
  objects : list adapter;
  active_connections : gmap nat connection_data;
  tasks : list task;
  log : list (level * string)
}.

Definition with_trace (t : list event) (w : world) : world :=
  {| trace := t; objects := objects w;
     active_connections := active_connections w; tasks := tasks w; log := log w |}.
Definition with_objects (o : list adapter) (w : world) : world :=
  {| trace := trace w; objects := o;
     active_connections := active_connections w; tasks := tasks w; log := log w |}.
Definition with_connections (c : gmap nat connection_data) (w : world) : world :=
  {| trace := trace w; objects := objects w;
     active_connections := c; tasks := tasks w; log := log w |}.
Definition with_tasks (t : list task) (w : world) : world :=
  {| trace := trace w; objects := objects w;
     active_connections := active_connections w; tasks := t; log := log w |}.
Definition with_log (l : list (level * string)) (w : world) : world :=
  {| trace := trace w; objects := objects w;
     active_connections := active_connections w; tasks := tasks w; log := l |}.

Definition set_is_connected (b : bool) (a : adapter) : adapter :=
  {| cls := cls a; api_key := api_key a; config := config a;
     websocket := websocket a; is_connected := b;
     provider_websocket := provider_websocket a; voice_client := voice_client a |}.
Definition set_provider_websocket (s : option vendor_socket) (a : adapter) : adapter :=
  {| cls := cls a; api_key := api_key a; config := config a;
     websocket := websocket a; is_connected := is_connected a;
     provider_websocket := s; voice_client := voice_client a |}.
Definition set_voice_client (c : option nat) (a : adapter) : adapter :=
  {| cls := cls a; api_key := api_key a; config := config a;
     websocket := websocket a; is_connected := is_connected a;
     provider_websocket := provider_websocket a; voice_client := c |}.

(** ** The monad of a coroutine: state and exceptions

    A coroutine runs from one world to the next and ends with a value or
    a raised exception.  Only [Exception] subclasses are modelled, which
    is what [except Exception] catches; task cancellation is not. *)
Definition M (A : Type) : Type := world -> world * res A.

Definition ret {A} (a : A) : M A := fun w => (w, inr a).
Definition raise {A} (e : exn) : M A := fun w => (w, inl e).
Definition bind {A B} (m : M A) (k : A -> M B) : M B :=
  fun w => match m w with
           | (w', inr a) => k a w'
           | (w', inl e) => (w', inl e)
           end.
(** [try: m except Exception as e: h e] *)
Definition try_except {A} (m : M A) (h : exn -> M A) : M A :=
  fun w => match m w with
           | (w', inl e) => h e w'
           | r => r
           end.
Definition lift {A} (r : res A) : M A := fun w => (w, r).

Declare Scope coro_scope.
Delimit Scope coro_scope with coro.
Notation "x <- e ;; k" := (bind e (fun x => k))
  (at level 100, e at next level, right associativity) : coro_scope.
Notation "e ;; k" := (bind e (fun _ => k))
  (at level 100, right associativity) : coro_scope.
Notation "'when' b 'then' m" := (if b then m else ret tt)
  (at level 100, b at next level, m at level 100) : coro_scope.
Local Open Scope coro_scope.

Section Primitives.
Context (E : Env).

(** An awaited external call: the environment decides, the history grows. *)
Definition perform (c : call) : M string :=
  fun w => let o := respond E (trace w) c in
           (with_trace ((c, o) :: trace w) w, o).

(** An external constructor: the new object is named by the length of the
    history at the time. *)
Definition construct (c : call) : M nat :=
  fun w => match respond E (trace w) c with
           | inl e => (with_trace ((c, inl e) :: trace w) w, inl e)
           | inr s => (with_trace ((c, inr s) :: trace w) w, inr (length (trace w)))
           end.

Definition logger (l : level) (msg : string) : M unit :=
  fun w => (with_log ((l, msg) :: log w) w, inr tt).

Definition create_task (t : task) : M unit :=
  fun w => (with_tasks (t :: tasks w) w, inr tt).

(** Reading and writing an attribute of [self]. *)
Definition attr {A} (self : nat) (f : adapter -> A) : M A :=
  fun w => match objects w !! self with
           | Some a => (w, inr (f a))
           | None => (w, inl (Exn OtherError "no such object"))
           end.

Definition set_attr (self : nat) (upd : adapter -> adapter) : M unit :=
  fun w => match objects w !! self with
           | Some a => (with_objects (<[self := upd a]> (objects w)) w, inr tt)
           | None => (w, inl (Exn OtherError "no such object"))
           end.

(** Calling a class: the object is appended to the heap. *)
Definition new_object (a : adapter) : M nat :=
  fun w => (with_objects (objects w ++ [a]) w, inr (length (objects w))).

(** ** The [websockets] connection of an adapter *)

Definition mark_closed (self : nat) : M unit :=
  set_attr self (fun a =>
    set_provider_websocket
      (option_map (fun s => {| vs_id := vs_id s; vs_closed := true |})
                  (provider_websocket a)) a).

(** An operation on the vendor socket that raises [ConnectionClosed]
    leaves the socket closed. *)
Definition on_socket (self : nat) (c : call) : M string :=
  try_except (perform c)
    (fun e => (when (bool_decide (exn_cls e = ConnectionClosed))
               then mark_closed self) ;; raise e).

Definition socket_close (self : nat) (h : nat) : M unit :=
  perform (WsClose h) ;; mark_closed self.

(** [asyncio.gather] with [return_exceptions=True]: every coroutine is
    run and its exception, if any, is collected instead of raised.  The
    coroutines are run one after the other in list order; the event loop
    may interleave them at their awaits, which changes the order of the
    history, not which coroutine runs. *)
Fixpoint gather_return_exceptions (ms : list (M unit)) : M (list (res unit)) :=
  match ms with
  | [] => ret []
  | m :: r =>
      fun w => let '(w', o) := m w in
               (rs <- gather_return_exceptions r ;; ret (o :: rs)) w'
  end.

End Primitives.

(** What the client was sent, oldest first: the payloads of the
    [send_text] calls on [ws] that returned. *)
Definition sent_of (ws : nat) (ev : event) : option value :=
  match ev with
  | (SendText ws' v, inr _) => if Nat.eqb ws ws' then Some v else None
  | _ => None
  end.

Definition client_received (ws : nat) (w : world) : list value :=
  omap (sent_of ws) (rev (trace w)).

(** The calls made, oldest first, whatever their outcome. *)
Definition calls (w : world) : list call := map fst (rev (trace w)).

End Runtime.

(* ===================================================================== *)
(** * providers/base_provider.py *)
(* ===================================================================== *)

Module BaseSTTProvider.
Import Py Runtime.
Local Open Scope coro_scope.

(** [__init__]: the fields of a fresh adapter of class [c]. *)
Definition init (c : provider) (api_key config : value) (websocket : nat) : adapter :=
  {| cls := c; api_key := api_key; config := config; websocket := websocket;
     is_connected := false; provider_websocket := None; voice_client := None |}.

(** [get_provider_name], as the two subclasses implement it. *)
Definition provider_name (c : provider) : string :=
  match c with Speechmatics => "speechmatics" | Deepgram => "deepgram" end.

Definition get_provider_name (self : nat) : M string :=
  attr self (fun a => provider_name (cls a)).

Section Methods.
Context (E : Env).

Definition send_result_to_client (self : nat) (result : list (string * value))
  : M unit :=
  try_except
    (name <- get_provider_name self ;;
     let result := dict_set result "provider" (VStr name) in
     ws <- attr self websocket ;;
     perform E (SendText ws (VDict result)) ;;
     ret tt)
    (fun e => logger PRINT ("Error sending result to client: " ++ exn_str e)).

Definition send_error_to_client (self : nat) (error_message : string) : M unit :=
  name <- get_provider_name self ;;
  let error_result := [("provider", VStr name); ("error", VStr error_message)] in
  send_result_to_client self error_result.

End Methods.
End BaseSTTProvider.

(* ===================================================================== *)
(** * providers/deepgram_provider.py *)
(* ===================================================================== *)

Module DeepgramProvider.
Import Py Runtime BaseSTTProvider.
Local Open Scope coro_scope.

Definition ws_url : string := "wss://api.deepgram.com/v1/listen".

Definition true_false (v : value) : value :=
  VStr (if truthy v then "true" else "false").

Fixpoint join (sep : string) (l : list string) : string :=
  match l with
  | [] => EmptyString
  | [x] => x
  | x :: r => (x ++ sep ++ join sep r)%string
  end.

(** The [float] literal [0.0]. *)
Definition zero_float : value := VFloat (S754_zero false).

(** Lines 139-149 of [_process_response]: the speaker of the utterance,
    if it has one.  [None] leaves the key out. *)
Fixpoint tagged_speakers (words : list value) : res (list value) :=
  match words with
  | [] => ok []
  | word :: r =>
      (tagged <- contains "speaker" word ;;
       if tagged : bool
       then sp <- get1 word "speaker" ;;
            rest <- tagged_speakers r ;;
            ok (sp :: rest)
       else tagged_speakers r)%res
  end.

Definition utterance_speaker (alternative : value) : res (option value) :=
  (has_speaker <- contains "speaker" alternative ;;
   if has_speaker : bool
   then sp <- getitem alternative "speaker" ;; ok (Some sp)
   else
     has_words <- contains "words" alternative ;;
     words <- (if has_words : bool then getitem alternative "words" else ok VNone) ;;
     if has_words && truthy words
     then
       ws <- iter words ;;
       speakers <- tagged_speakers ws ;;
       match speakers with
       | [] => ok None
       | _ => most_common_speaker <- most_common_elem speakers ;;
              ok (Some most_common_speaker)
       end
     else ok None)%res.

(** Lines 121-149: the message for the client, from the decoded vendor
    message, its first alternative and the non-empty transcript text. *)
Definition transcript_message (data alternative transcript_text : value)
  : res value :=
  (is_final <- get data "is_final" (VBool false) ;;
   has_start <- contains "start" data ;;
   start_ms <- (if has_start : bool
                then start <- get data "start" (VInt 0) ;; mul start (VInt 1000)
                else ok (VInt 0)) ;;
   has_duration <- contains "duration" data ;;
   duration_ms <- (if has_duration : bool
                   then d <- get data "duration" (VInt 0) ;; mul d (VInt 1000)
                   else ok (VInt 0)) ;;
   end_ms <- add start_ms duration_ms ;;
   confidence <- get alternative "confidence" zero_float ;;
   let inner := [("text", transcript_text); ("is_final", is_final);
                 ("start_ms", start_ms); ("end_ms", end_ms);
                 ("confidence", confidence)] in
   speaker <- utterance_speaker alternative ;;
   let inner := match speaker with
                | Some sp => dict_set inner "speaker" sp
                | None => inner
                end in
   ok (VDict [("provider", VStr (provider_name Deepgram));
              ("transcript", VDict inner)]))%res.

(** What the first branch of [_process_response] sends, if anything. *)
Definition transcription_result (data : value) : res (option value) :=
  (channel <- getitem data "channel" ;;
   alternatives <- get channel "alternatives" (VList []) ;;
   if truthy alternatives
   then
     alternative <- getitem0 alternatives ;;
     transcript_text <- get alternative "transcript" (VStr EmptyString) ;;
     if truthy transcript_text
     then t <- transcript_message data alternative transcript_text ;; ok (Some t)
     else ok None
   else ok None)%res.

(** The test of the first [if]: ["channel" in data and "alternatives" in
    data["channel"]]. *)
Definition is_transcription (data : value) : res bool :=
  (has_channel <- contains "channel" data ;;
   if has_channel : bool
   then channel <- getitem data "channel" ;; contains "alternatives" channel
   else ok false)%res.

Section Methods.
Context (E : Env).

Definition connection_params (config : value) : res (list (string * value)) :=
  (diarize_enabled <- get config "diarize" (VBool false) ;;
   sample_rate <- get config "sampleRate" (VInt 16000) ;;
   model <- get config "model" (VStr "nova-2") ;;
   language <- get config "language" (VStr "en") ;;
   punctuate <- get config "punctuate" (VBool true) ;;
   interim_results <- get config "interim_results" (VBool true) ;;
   endpointing <- get config "endpointing" (VInt 300) ;;
   vad_events <- get config "vad_events" (VBool true) ;;
   smart_format <- get config "smart_format" (VBool true) ;;
   filler_words <- get config "filler_words" (VBool false) ;;
   numerals <- get config "numerals" (VBool true) ;;
   let params :=
     [("encoding", VStr "linear16");
      ("sample_rate", sample_rate);
      ("channels", VInt 1);
      ("model", model);
      ("language", language);
      ("punctuate", true_false punctuate);
      ("interim_results", true_false interim_results);
      ("endpointing", VStr (str E endpointing));
      ("vad_events", true_false vad_events);
      ("smart_format", true_false smart_format);
      ("filler_words", true_false filler_words);
      ("numerals", true_false numerals);
      ("diarize", true_false diarize_enabled)] in
   ok (if truthy diarize_enabled
       then dict_set params "utterances" (VStr "true")
       else params))%res.

Definition connection_url (params : list (string * value)) : string :=
  (ws_url ++ "?" ++
   join "&" (map (fun kv => fst kv ++ "=" ++ str E (snd kv)) params))%string.

Definition connect (self : nat) : M unit :=
  try_except
    (cfg <- attr self config ;;
     params <- lift (connection_params cfg) ;;
     let url := connection_url params in
     key <- attr self api_key ;;
     let headers := [("Authorization", ("Token " ++ str E key)%string)] in
     h <- construct E (WsConnect url headers) ;;
     set_attr self (set_provider_websocket
                      (Some {| vs_id := h; vs_closed := false |})) ;;
     set_attr self (set_is_connected true) ;;
     create_task (ListenTask self) ;;
     logger INFO "Connected to Deepgram")
    (fun e =>
       logger ERROR ("Failed to connect to Deepgram: " ++ exn_str e) ;;
       send_error_to_client E self ("Connection failed: " ++ exn_str e)).

Definition disconnect (self : nat) : M unit :=
  try_except
    (pw <- attr self provider_websocket ;;
     match pw with
     | Some s =>
         if negb (vs_closed s)
         then on_socket E self
                (WsSendText (vs_id s) (VDict [("type", VStr "CloseStream")])) ;;
              socket_close E self (vs_id s)
         else ret tt
     | None => ret tt
     end ;;
     set_attr self (set_is_connected false) ;;
     logger INFO "Disconnected from Deepgram")
    (fun e => logger ERROR ("Error disconnecting from Deepgram: " ++ exn_str e)).

Definition send_audio (self : nat) (audio_data : bytes) : M unit :=
  try_except
    (pw <- attr self provider_websocket ;;
     connected <- attr self is_connected ;;
     match pw with
     | Some s =>
         if connected : bool
         then on_socket E self (WsSendBytes (vs_id s) audio_data) ;; ret tt
         else ret tt
     | None => ret tt
     end)
    (fun e =>
       logger ERROR ("Error sending audio to Deepgram: " ++ exn_str e) ;;
       send_error_to_client E self ("Audio transmission error: " ++ exn_str e)).

Definition _process_response (self : nat) (response : string) : M unit :=
  try_except
    (data <- lift (json_loads E response) ;;
     transcription <- lift (is_transcription data) ;;
     if transcription : bool
     then
       out <- lift (transcription_result data) ;;
       match out with
       | Some transcript =>
           ws <- attr self websocket ;;
           perform E (SendText ws transcript) ;; ret tt
       | None => ret tt
       end
     else
       has_type <- lift (contains "type" data) ;;
       if has_type : bool
       then
         message_type <- lift (getitem data "type") ;;
         if is_str "UtteranceEnd" message_type then ret tt
         else if is_str "SpeechStarted" message_type then ret tt
         else if is_str "Error" message_type
         then error_msg <- lift (get data "description" (VStr "Unknown error")) ;;
              send_error_to_client E self ("Deepgram error: " ++ str E error_msg)
         else ret tt
       else ret tt)
    (fun e =>
       if bool_decide (exn_cls e = JSONDecodeError)
       then logger ERROR ("Failed to parse Deepgram response: " ++ exn_str e)
       else
         logger ERROR ("Error processing Deepgram response: " ++ exn_str e) ;;
         send_error_to_client E self ("Response processing error: " ++ exn_str e)).

(** The [while] loop of [_listen_for_responses], for at most [fuel]
    rounds: [true] when the loop has ended, [false] when it is still
    receiving after [fuel] messages. *)
Fixpoint listen_loop (fuel : nat) (self : nat) : M bool :=
  match fuel with
  | O => ret false
  | S fuel' =>
      pw <- attr self provider_websocket ;;
      match pw with
      | Some s =>
          if negb (vs_closed s)
          then response <- on_socket E self (WsRecv (vs_id s)) ;;
               _process_response self response ;;
               listen_loop fuel' self
          else ret true
      | None => ret true
      end
  end.

Definition _listen_for_responses (fuel : nat) (self : nat) : M bool :=
  try_except
    (listen_loop fuel self)
    (fun e =>
       if bool_decide (exn_cls e = ConnectionClosed)
       then logger INFO "Deepgram connection closed" ;; ret true
       else
         logger ERROR ("Error listening to Deepgram responses: " ++ exn_str e) ;;
         send_error_to_client E self ("Response processing error: " ++ exn_str e) ;;
         ret true).

End Methods.
End DeepgramProvider.

(* ===================================================================== *)
(** * providers/speechmatics_provider.py *)
(* ===================================================================== *)

Module SpeechmaticsProvider.
Import Py Runtime BaseSTTProvider.
Local Open Scope coro_scope.

(** The [float] literals of [connect]: the doubles nearest to 1.2, 0.8,
    10.0 and 0.5. *)
Definition float_1_2 : value := VFloat (S754_finite false 5404319552844595 (-52)).
Definition float_0_8 : value := VFloat (S754_finite false 7205759403792794 (-53)).
Definition float_10 : value := VFloat (S754_finite false 5629499534213120 (-49)).
Definition float_0_5 : value := VFloat (S754_finite false 4503599627370496 (-53)).
Definition zero_float : value := VFloat (S754_zero false).

(** Members of the SDK's enumerations, by name. *)
Definition end_of_utterance_mode (eou_mode_str : string) : value :=
  if String.eqb eou_mode_str "FIXED" then VStr "EndOfUtteranceMode.FIXED"
  else if String.eqb eou_mode_str "ADAPTIVE" then VStr "EndOfUtteranceMode.ADAPTIVE"
  else if String.eqb eou_mode_str "EXTERNAL" then VStr "EndOfUtteranceMode.EXTERNAL"
  else VStr "EndOfUtteranceMode.EXTERNAL".

Definition operating_point (op_point_str : string) : value :=
  if String.eqb op_point_str "ENHANCED" then VStr "OperatingPoint.ENHANCED"
  else if String.eqb op_point_str "STANDARD" then VStr "OperatingPoint.STANDARD"
  else VStr "OperatingPoint.ENHANCED".

(** The speaker of a segment, shared by the two segment handlers (lines
    162-169 and 192-200): [None] leaves the key out. *)
Definition segment_speaker (segment : value) : res (option value) :=
  (has_id <- contains "speaker_id" segment ;;
   if has_id : bool
   then
     speaker_id <- getitem segment "speaker_id" ;;
     match speaker_id with
     | VNone => ok None
     | VStr s =>
         if startswith s "S"
         then n <- int_of_str (slice_from_1 s) ;; ok (Some (VInt (n - 1)))
         else ok (Some speaker_id)
     | _ => ok (Some speaker_id)
     end
   else ok None)%res.

Definition with_speaker (inner : list (string * value)) (speaker : option value)
  : list (string * value) :=
  match speaker with
  | Some sp => dict_set inner "speaker" sp
  | None => inner
  end.

(** The body of the loop of [_handle_partial_segments], up to the send. *)
Definition partial_transcript (segment : value) : res value :=
  (text <- get segment "text" (VStr EmptyString) ;;
   start_time <- get segment "start_time" (VInt 0) ;;
   start_ms <- mul start_time (VInt 1000) ;;
   end_time <- get segment "end_time" (VInt 0) ;;
   end_ms <- mul end_time (VInt 1000) ;;
   let inner := [("text", text); ("is_final", VBool false);
                 ("start_ms", start_ms); ("end_ms", end_ms)] in
   speaker <- segment_speaker segment ;;
   ok (VDict [("provider", VStr (provider_name Speechmatics));
              ("transcript", VDict (with_speaker inner speaker))]))%res.

(** The body of the loop of [_handle_final_segments], up to the send. *)
Definition final_transcript (segment : value) : res value :=
  (text <- get segment "text" (VStr EmptyString) ;;
   start_time <- get segment "start_time" (VInt 0) ;;
   start_ms <- mul start_time (VInt 1000) ;;
   end_time <- get segment "end_time" (VInt 0) ;;
   end_ms <- mul end_time (VInt 1000) ;;
   confidence <- get segment "confidence" zero_float ;;
   let inner := [("text", text); ("is_final", VBool true);
                 ("start_ms", start_ms); ("end_ms", end_ms);
                 ("confidence", confidence)] in
   speaker <- segment_speaker segment ;;
   ok (VDict [("provider", VStr (provider_name Speechmatics));
              ("transcript", VDict (with_speaker inner speaker))]))%res.

(** [for x in l: body x]; an exception ends the loop. *)
Fixpoint for_each {A} (l : list A) (body : A -> M unit) : M unit :=
  match l with
  | [] => ret tt
  | x :: r => body x ;; for_each r body
  end.

Section Methods.
Context (E : Env).

Definition voice_agent_config (config : value) : res (list (string * value)) :=
  (diarization_enabled <- get config "enableDiarization" (VBool false) ;;
   eou <- get config "endOfUtteranceMode" (VStr "adaptive") ;;
   eou_mode_str <- upper_of eou ;;
   let eou_mode := end_of_utterance_mode eou_mode_str in
   op <- get config "operatingPoint" (VStr "enhanced") ;;
   op_point_str <- upper_of op ;;
   let operating_point := operating_point op_point_str in
   max_delay <- get config "maxDelay" float_1_2 ;;
   max_delay_value <- float_of (parse_float E) max_delay ;;
   language <- get config "language" (VStr "en") ;;
   silence <- get config "endOfUtteranceSilenceTrigger" float_0_8 ;;
   silence_trigger <- float_of (parse_float E) silence ;;
   eou_max <- get config "endOfUtteranceMaxDelay" float_10 ;;
   eou_max_delay <- float_of (parse_float E) eou_max ;;
   sample_rate <- get config "sampleRate" (VInt 16000) ;;
   ok [("operating_point", operating_point);
       ("language", language);
       ("max_delay", VFloat max_delay_value);
       ("end_of_utterance_mode", eou_mode);
       ("end_of_utterance_silence_trigger", VFloat silence_trigger);
       ("end_of_utterance_max_delay", VFloat eou_max_delay);
       ("enable_diarization", diarization_enabled);
       ("include_results", VBool true);
       ("sample_rate", sample_rate);
       ("audio_encoding", VStr "AudioEncoding.PCM_S16LE")])%res.

Definition diarization_attrs (config : value) : res (list (string * value)) :=
  (sensitivity <- get config "speakerSensitivity" float_0_5 ;;
   max_speakers <- get config "maxSpeakers" (VInt 10) ;;
   prefer_current <- get config "preferCurrentSpeaker" (VBool false) ;;
   ok [("speaker_sensitivity", sensitivity);
       ("max_speakers", max_speakers);
       ("prefer_current_speaker", prefer_current)])%res.

Definition connect (self : nat) : M unit :=
  try_except
    (cfg <- attr self config ;;
     logger INFO ("Speechmatics config received: " ++ str E cfg) ;;
     diarization_enabled <- lift (get cfg "enableDiarization" (VBool false)) ;;
     args <- lift (voice_agent_config cfg) ;;
     logger INFO "Setting max_delay" ;;
     voice_config <- construct E (NewVoiceAgentConfig args) ;;
     logger INFO "VoiceAgentConfig created" ;;
     (when truthy diarization_enabled then
        attrs <- lift (diarization_attrs cfg) ;;
        perform E (SetVoiceConfigAttrs voice_config attrs) ;;
        logger INFO "Diarization enabled") ;;
     key <- attr self api_key ;;
     client <- construct E (NewVoiceAgentClient key voice_config) ;;
     set_attr self (set_voice_client (Some client)) ;;
     perform E (VoiceOn client ADD_PARTIAL_SEGMENT) ;;
     perform E (VoiceOn client ADD_SEGMENT) ;;
     perform E (VoiceOn client SPEAKER_STARTED) ;;
     perform E (VoiceOn client SPEAKER_ENDED) ;;
     perform E (VoiceOn client END_OF_TURN) ;;
     perform E (VoiceConnect client) ;;
     set_attr self (set_is_connected true) ;;
     logger INFO "Connected to Speechmatics Voice SDK")
    (fun e =>
       logger ERROR ("Failed to connect to Speechmatics: " ++ exn_str e) ;;
       send_error_to_client E self ("Connection failed: " ++ exn_str e)).

Definition disconnect (self : nat) : M unit :=
  try_except
    (vc <- attr self voice_client ;;
     match vc with
     | Some c => perform E (VoiceClose c) ;; ret tt
     | None => ret tt
     end ;;
     set_attr self (set_is_connected false) ;;
     logger INFO "Disconnected from Speechmatics")
    (fun e => logger ERROR ("Error disconnecting from Speechmatics: " ++ exn_str e)).

Definition send_audio (self : nat) (audio_data : bytes) : M unit :=
  try_except
    (vc <- attr self voice_client ;;
     connected <- attr self is_connected ;;
     match vc with
     | Some c =>
         if connected : bool
         then perform E (VoiceSendAudio c audio_data) ;; ret tt
         else ret tt
     | None => ret tt
     end)
    (fun e =>
       logger ERROR ("Error sending audio to Speechmatics: " ++ exn_str e) ;;
       send_error_to_client E self ("Audio transmission error: " ++ exn_str e)).

Definition _handle_partial_segments (self : nat) (message : value) : M unit :=
  try_except
    (segments <- lift (getitem message "segments") ;;
     l <- lift (iter segments) ;;
     for_each l (fun segment =>
       transcript <- lift (partial_transcript segment) ;;
       ws <- attr self websocket ;;
       perform E (SendText ws transcript) ;; ret tt))
    (fun e => logger ERROR ("Error handling partial segments: " ++ exn_str e)).

Definition _handle_final_segments (self : nat) (message : value) : M unit :=
  try_except
    (logger INFO ("Received final segments message: " ++ str E message) ;;
     segments <- lift (getitem message "segments") ;;
     l <- lift (iter segments) ;;
     logger INFO "Number of final segments" ;;
     for_each l (fun segment =>
       logger INFO ("Final segment data: " ++ str E segment) ;;
       transcript <- lift (final_transcript segment) ;;
       ws <- attr self websocket ;;
       perform E (SendText ws transcript) ;;
       logger INFO ("Sent final transcript: " ++ str E transcript)))
    (fun e => logger ERROR ("Error handling final segments: " ++ exn_str e)).

Definition _handle_speech_started (self : nat) (message : value) : M unit :=
  try_except
    (status <- lift (get message "status" (VStr EmptyString)) ;;
     let event := [("provider", VStr (provider_name Speechmatics));
                   ("event", VStr "speech_started"); ("status", status)] in
     ws <- attr self websocket ;;
     perform E (SendText ws (VDict event)) ;; ret tt)
    (fun e => logger ERROR ("Error handling speech started: " ++ exn_str e)).

Definition _handle_speech_ended (self : nat) (message : value) : M unit :=
  try_except
    (status <- lift (get message "status" (VStr EmptyString)) ;;
     let event := [("provider", VStr (provider_name Speechmatics));
                   ("event", VStr "speech_ended"); ("status", status)] in
     ws <- attr self websocket ;;
     perform E (SendText ws (VDict event)) ;; ret tt)
    (fun e => logger ERROR ("Error handling speech ended: " ++ exn_str e)).

Definition _handle_end_of_turn (self : nat) (_message : value) : M unit :=
  try_except
    (let event := [("provider", VStr (provider_name Speechmatics));
                   ("event", VStr "end_of_turn")] in
     ws <- attr self websocket ;;
     perform E (SendText ws (VDict event)) ;; ret tt)
    (fun e => logger ERROR ("Error handling end of turn: " ++ exn_str e)).

(** The callbacks [connect] registers: each logs and creates the task
    that runs the handler. *)
Definition on_message (self : nat) (k : AgentServerMessageType) (message : value)
  : M unit :=
  logger INFO "event triggered" ;;
  create_task (HandlerTask self k message).

(** The coroutine of a handler task. *)
Definition handler (self : nat) (k : AgentServerMessageType) (message : value)
  : M unit :=
  match k with
  | ADD_PARTIAL_SEGMENT => _handle_partial_segments self message
  | ADD_SEGMENT => _handle_final_segments self message
  | SPEAKER_STARTED => _handle_speech_started self message
  | SPEAKER_ENDED => _handle_speech_ended self message
  | END_OF_TURN => _handle_end_of_turn self message
  end.

End Methods.
End SpeechmaticsProvider.

(* ===================================================================== *)
(** * main.py *)
(* ===================================================================== *)

Module ConnectionManager.
Import Py Runtime BaseSTTProvider.
Local Open Scope coro_scope.

(** What [websocket.receive()] returns: a message with a ["text"] key,
    one with a ["bytes"] key, or one with neither. *)
Inductive client_data :=
| Text (text : string)
| Bytes (data : bytes)
| Neither.

Definition set_cd_speechmatics (p : option nat) (c : connection_data) :=
  {| cd_speechmatics := p; cd_deepgram := cd_deepgram c; cd_config := cd_config c |}.
Definition set_cd_deepgram (p : option nat) (c : connection_data) :=
  {| cd_speechmatics := cd_speechmatics c; cd_deepgram := p; cd_config := cd_config c |}.
Definition set_cd_config (v : option value) (c : connection_data) :=
  {| cd_speechmatics := cd_speechmatics c; cd_deepgram := cd_deepgram c; cd_config := v |}.

Definition cd_provider (p : provider) (c : connection_data) : option nat :=
  match p with Speechmatics => cd_speechmatics c | Deepgram => cd_deepgram c end.

Definition set_cd_provider (p : provider) (r : option nat) (c : connection_data) :=
  match p with
  | Speechmatics => set_cd_speechmatics r c
  | Deepgram => set_cd_deepgram r c
  end.

(** [self.active_connections.get(websocket, {})] followed by
    [.get(provider_name)]: the adapter stored under the name, if any. *)
Definition stored_provider (websocket : nat) (p : provider) : M (option nat) :=
  fun w => (w, inr (match active_connections w !! websocket with
                    | Some c => cd_provider p c
                    | None => None
                    end)).

(** [connection_data[k] = v] on the dict of a connection. *)
Definition update_connection (websocket : nat)
    (upd : connection_data -> connection_data) : M unit :=
  fun w => (with_connections
              (match active_connections w !! websocket with
               | Some c => <[websocket := upd c]> (active_connections w)
               | None => active_connections w
               end) w, inr tt).

Section Methods.
Context (E : Env).

(** Method calls on an adapter go to the method of its class. *)
Definition provider_connect (self : nat) : M unit :=
  c <- attr self cls ;;
  match c with
  | Speechmatics => SpeechmaticsProvider.connect E self
  | Deepgram => DeepgramProvider.connect E self
  end.

Definition provider_disconnect (self : nat) : M unit :=
  c <- attr self cls ;;
  match c with
  | Speechmatics => SpeechmaticsProvider.disconnect E self
  | Deepgram => DeepgramProvider.disconnect E self
  end.

Definition provider_send_audio (self : nat) (audio_data : bytes) : M unit :=
  c <- attr self cls ;;
  match c with
  | Speechmatics => SpeechmaticsProvider.send_audio E self audio_data
  | Deepgram => DeepgramProvider.send_audio E self audio_data
  end.

Definition connect (websocket : nat) : M unit :=
  perform E (Accept websocket) ;;
  fun w => (with_connections
              (<[websocket := {| cd_speechmatics := None; cd_deepgram := None;
                                 cd_config := None |}]> (active_connections w)) w,
            inr tt).

(** [asyncio.create_task(provider.disconnect())] when a provider is stored. *)
Definition disconnect_task (provider : option nat) : M unit :=
  match provider with
  | Some p => create_task (DisconnectTask p)
  | None => ret tt
  end.

Definition disconnect (websocket : nat) : M unit :=
  fun w =>
    match active_connections w !! websocket with
    | Some connection_data =>
        (disconnect_task (cd_speechmatics connection_data) ;;
         disconnect_task (cd_deepgram connection_data) ;;
         fun w' => (with_connections (delete websocket (active_connections w')) w',
                    inr tt)) w
    | None => (w, inr tt)
    end.

(** The two blocks of [initialize_providers], one per provider. *)
Definition initialize_one (websocket : nat) (p : provider) (config sample_rate : value)
  : M unit :=
  provider_config <- lift (get config (provider_name p) (VDict [])) ;;
  (match p with
   | Speechmatics =>
       logger INFO ("[CONFIG] Extracted Speechmatics config: " ++ str E provider_config)
   | Deepgram => ret tt
   end) ;;
  key <- lift (get1 provider_config "apiKey") ;;
  if truthy key
  then
    config_with_audio <-
      lift (match provider_config with
            | VDict d => ok (VDict (dict_set d "sampleRate" sample_rate))
            | _ => throw TypeError "not a mapping"
            end) ;;
    api_key <- lift (getitem provider_config "apiKey") ;;
    provider <- new_object (init p api_key config_with_audio websocket) ;;
    provider_connect provider ;;
    update_connection websocket (set_cd_provider p (Some provider))
  else
    perform E (SendText websocket
                 (VDict [("provider", VStr (provider_name p));
                         ("error", VStr "API key not provided")])) ;;
    ret tt.

Definition initialize_providers (websocket : nat) (config : value) : M unit :=
  (fun w => match active_connections w !! websocket with
            | Some _ => (w, inr tt)
            | None => (w, inl (Exn KeyError "websocket"))
            end) ;;
  update_connection websocket (set_cd_config (Some config)) ;;
  try_except
    (audio_config <- lift (get config "audio" (VDict [])) ;;
     sample_rate <- lift (get audio_config "sampleRate" (VInt 16000)) ;;
     initialize_one websocket Speechmatics config sample_rate ;;
     initialize_one websocket Deepgram config sample_rate)
    (fun e =>
       logger ERROR ("Error initializing providers: " ++ exn_str e) ;;
       perform E (SendText websocket
                    (VDict [("error", VStr ("Failed to initialize providers: "
                                            ++ exn_str e))])) ;;
       ret tt).

Definition send_audio_to_providers (websocket : nat) (audio_data : bytes) : M unit :=
  sm <- stored_provider websocket Speechmatics ;;
  dg <- stored_provider websocket Deepgram ;;
  let tasks :=
    match sm with Some p => [provider_send_audio p audio_data] | None => [] end ++
    match dg with Some p => [provider_send_audio p audio_data] | None => [] end in
  match tasks with
  | [] => ret tt
  | _ => gather_return_exceptions tasks ;; ret tt
  end.

Definition stop_one (websocket : nat) (p : provider) : M unit :=
  provider <- stored_provider websocket p ;;
  match provider with
  | Some self =>
      provider_disconnect self ;;
      update_connection websocket (set_cd_provider p None)
  | None => ret tt
  end.

Definition stop_providers (websocket : nat) : M unit :=
  stop_one websocket Speechmatics ;;
  stop_one websocket Deepgram.

(** ** [websocket_endpoint] *)

(** [message.get("type") == t] *)
Definition type_is (message : value) (t : string) : res bool :=
  (ty <- get1 message "type" ;; ok (is_str t ty))%res.

(** The body of the [while True] loop, after [websocket.receive()] has
    returned [data]. *)
Definition on_receive (websocket : nat) (data : client_data) : M unit :=
  try_except
    (match data with
     | Text text =>
         message <- lift (json_loads E text) ;;
         is_config <- lift (type_is message "config") ;;
         if is_config : bool
         then received_config <- lift (get message "config" (VDict [])) ;;
              logger INFO ("[CONFIG] Received config from frontend: "
                           ++ str E received_config) ;;
              initialize_providers websocket received_config
         else
           is_stop <- lift (type_is message "stop") ;;
           if is_stop || String.eqb text "END"
           then stop_providers websocket
           else ret tt
     | Bytes audio_data => send_audio_to_providers websocket audio_data
     | Neither => ret tt
     end)
    (fun e =>
       if bool_decide (exn_cls e = JSONDecodeError)
       then match data with
            | Text text => when String.eqb text "END" then stop_providers websocket
            | _ => ret tt
            end
       else raise e).

Fixpoint receive_loop (websocket : nat) (inputs : list client_data) : M unit :=
  match inputs with
  | [] => raise (Exn WebSocketDisconnect "client disconnected")
  | data :: r => on_receive websocket data ;; receive_loop websocket r
  end.

(** The endpoint for a client that sends [inputs] and then goes away:
    [receive()] raises [WebSocketDisconnect] once they are consumed. *)
Definition websocket_endpoint (websocket : nat) (inputs : list client_data)
  : M unit :=
  connect websocket ;;
  logger INFO "Client connected" ;;
  fun w =>
    let '(w', r) :=
      try_except (receive_loop websocket inputs)
        (fun e =>
           if bool_decide (exn_cls e = WebSocketDisconnect)
           then logger INFO "Client disconnected"
           else logger ERROR ("WebSocket error: " ++ exn_str e)) w in
    let '(w'', _) := disconnect websocket w' in
    (w'', r).

End Methods.
End ConnectionManager.

(* ===================================================================== *)
(** * Vocabulary of the properties *)
(* ===================================================================== *)

Module Spec.
Import Py Runtime BaseSTTProvider.

(** The Normalized Error Event attributed to provider [p]. *)
Definition error_event (p : provider) (msg : string) : value :=
  VDict [("provider", VStr (provider_name p)); ("error", VStr msg)].

(** The event sent for a provider whose entry has no usable credential. *)
Definition key_missing_event (p : provider) : value :=
  error_event p "API key not provided".

Definition is_key_missing_event (p : provider) (v : value) : bool :=
  match v with
  | VDict [(k1, VStr n); (k2, VStr m)] =>
      String.eqb k1 "provider" && String.eqb n (provider_name p) &&
      String.eqb k2 "error" && String.eqb m "API key not provided"
  | _ => false
  end.

(** The payload under ["transcript"] of a message for the client. *)
Definition transcript_of (payload : value) : option (list (string * value)) :=
  match payload with
  | VDict d =>
      match dict_lookup d "transcript" with
      | Some (VDict inner) => Some inner
      | _ => None
      end
  | _ => None
  end.

(** The provider whose vendor a call goes to; [None] for the client's
    own channel. *)
Definition call_provider (c : call) : option provider :=
  match c with
  | Accept _ | SendText _ _ => None
  | WsConnect _ _ | WsSendText _ _ | WsSendBytes _ _ | WsRecv _ | WsClose _ =>
      Some Deepgram
  | NewVoiceAgentConfig _ | SetVoiceConfigAttrs _ _ | NewVoiceAgentClient _ _
  | VoiceOn _ _ | VoiceConnect _ | VoiceSendAudio _ _ | VoiceClose _ =>
      Some Speechmatics
  end.

Definition to_client (c : call) : bool :=
  match c with SendText _ _ => true | _ => false end.

(** The state [Connected] of an adapter: the guard of [send_audio]. *)
Definition in_connected_state (a : adapter) : bool :=
  is_connected a &&
  match cls a with
  | Deepgram => match provider_websocket a with Some _ => true | None => false end
  | Speechmatics => match voice_client a with Some _ => true | None => false end
  end.

(** An adapter that has been disconnected, or never was connected: the
    flag is down and the vendor channel, if there was one, is closed. *)
Definition deepgram_disconnected (a : adapter) : bool :=
  negb (is_connected a) &&
  match provider_websocket a with
  | Some s => vs_closed s
  | None => true
  end.

(** [self] is an adapter object of class [c] that belongs to the client
    connection [ws]. *)
Definition is_adapter (self : nat) (c : provider) (ws : nat) (w : world) : Prop :=
  exists a, objects w !! self = Some a /\ cls a = c /\ websocket a = ws.

(** What a method of [self] leaves alone: the session table, the number
    of objects and every other object. *)
Definition frame (self : nat) (w w' : world) : Prop :=
  active_connections w' = active_connections w /\
  length (objects w') = length (objects w) /\
  forall j, j <> self -> objects w' !! j = objects w !! j.

Definition returns {A} (r : res A) : Prop := exists a, r = inr a.
Definition any_outcome {A} (r : res A) : Prop := True.

(** [new] is what [w'] added to the history of [w], newest first. *)
Definition history_grows (w w' : world) (new : list event) : Prop :=
  trace w' = new ++ trace w.

(** A method of the adapter [self]: run from a world where [self] is an
    adapter, it ends with an outcome in [Q], keeps [self] an adapter,
    respects the [frame], and every call it makes satisfies [P]. *)
Definition method {A} (self : nat) (c : provider) (ws : nat)
    (P : event -> Prop) (Q : res A -> Prop) (m : M A) : Prop :=
  forall w, is_adapter self c ws w ->
    Q (snd (m w)) /\
    is_adapter self c ws (fst (m w)) /\
    frame self w (fst (m w)) /\
    exists new, history_grows w (fst (m w)) new /\ Forall P new.

(** Every session refers to objects that exist, of the class the key
    names and owned by that session. *)
Definition sessions_ok (w : world) : Prop :=
  forall ws cd p self,
    active_connections w !! ws = Some cd ->
    ConnectionManager.cd_provider p cd = Some self ->
    is_adapter self p ws w.

(** The shape of a configuration (section 6 of the specification): an
    object whose ["audio"] and provider entries, when present, are
    objects. *)
Definition is_dict (v : value) : bool :=
  match v with VDict _ => true | _ => false end.

Definition entry_ok (d : list (string * value)) (k : string) : bool :=
  match dict_lookup d k with
  | Some v => is_dict v
  | None => true
  end.

Definition config_ok (config : value) : bool :=
  match config with
  | VDict d => entry_ok d "audio" && entry_ok d "speechmatics" && entry_ok d "deepgram"
  | _ => false
  end.

(** The provider's entry carries a non-empty [apiKey]. *)
Definition has_api_key (config : value) (p : provider) : bool :=
  match config with
  | VDict d =>
      match dict_lookup d (provider_name p) with
      | Some (VDict e) =>
          match dict_lookup e "apiKey" with
          | Some k => truthy k
          | None => false
          end
      | _ => false
      end
  | _ => false
  end.

(** The client channel takes every message. *)
Definition client_accepts (E : Env) (ws : nat) : Prop :=
  forall t v, exists s, respond E t (SendText ws v) = inr s.

End Spec.

(* ===================================================================== *)
(** * Vocabulary for the speaker of an utterance *)
(* ===================================================================== *)

Module Frequency.
Import Py.

(** [v] counts under the key [k]. *)
Definition has_key (k : key) (v : value) : Prop := key_of v = Some k.

Global Instance has_key_dec k v : Decision (has_key k v).
Proof. unfold has_key. apply _. Defined.

(** How often the key [k] occurs in [l]. *)
Definition occurrences (k : key) (l : list value) : nat :=
  length (filter (has_key k) l).

(** Where the key [k] occurs first in [l] ([length l] if nowhere). *)
Definition first_index (k : key) (l : list value) : nat :=
  match list_find (has_key k) l with
  | Some (i, _) => i
  | None => length l
  end.

(** [v] is the most frequent element of [l] and, among the most
    frequent, the one met first: [v] stands where its key occurs for the
    first time, no key is more frequent, and every key met earlier is
    strictly less frequent. *)
Definition most_frequent_first (l : list value) (v : value) : Prop :=
  exists i k,
    l !! i = Some v /\ key_of v = Some k /\ first_index k l = i /\
    (forall u k', u ∈ l -> key_of u = Some k' ->
                  (occurrences k' l <= occurrences k l)%nat) /\
    (forall j u k', l !! j = Some u -> (j < i)%nat -> key_of u = Some k' ->
                    (occurrences k' l < occurrences k l)%nat).

(** A counter that has consumed the elements [pre]. *)
Definition counter_for (c : list centry) (pre : list value) : Prop :=
  Forall (fun x => list_find (has_key (ce_key x)) pre
                     = Some (first_index (ce_key x) pre, ce_elem x) /\
                   ce_count x = occurrences (ce_key x) pre) c /\
  StronglySorted (fun k k' => (first_index k pre < first_index k' pre)%nat)
                 (map ce_key c) /\
  (forall u k, u ∈ pre -> key_of u = Some k -> k ∈ map ce_key c).

End Frequency.

(* ===================================================================== *)
(** * What the adapters write *)
(* ===================================================================== *)

Module Writes.
Import Py Runtime BaseSTTProvider Spec.

(** A call to the vendor of [c]. *)
Definition vendor_call (c : provider) (ev : event) : Prop :=
  call_provider (fst ev) = Some c.

(** An error event of [c] written to the client [ws]. *)
Definition error_write (c : provider) (ws : nat) (ev : event) : Prop :=
  exists msg, fst ev = SendText ws (error_event c msg).

(** What [connect], [disconnect] and [send_audio] may do. *)
Definition control_call (c : provider) (ws : nat) (ev : event) : Prop :=
  vendor_call c ev \/ error_write c ws ev.

(** A transcript of the Deepgram message [response] written to [ws]. *)
Definition deepgram_write (E : Env) (response : string) (ws : nat) (ev : event)
  : Prop :=
  exists data t,
    json_loads E response = inr data /\
    DeepgramProvider.transcription_result data = inr (Some t) /\
    fst ev = SendText ws t.

(** What [_process_response] may do with [response]. *)
Definition response_call (E : Env) (response : string) (ws : nat) (ev : event)
  : Prop :=
  deepgram_write E response ws ev \/ error_write Deepgram ws ev.

(** What [_listen_for_responses] may do. *)
Definition listen_call (E : Env) (ws : nat) (ev : event) : Prop :=
  vendor_call Deepgram ev \/ exists response, response_call E response ws ev.

(** A transcript of a segment of the Speechmatics [message], built by
    [build], written to [ws]. *)
Definition segment_write (build : value -> res value) (message : value)
    (ws : nat) (ev : event) : Prop :=
  exists segments l segment t,
    getitem message "segments" = inr segments /\
    iter segments = inr l /\ In segment l /\
    build segment = inr t /\
    fst ev = SendText ws t.

(** A lifecycle event written to [ws]. *)
Definition lifecycle_write (ws : nat) (ev : event) : Prop :=
  exists kind rest,
    fst ev = SendText ws (VDict (("provider", VStr (provider_name Speechmatics))
                                 :: ("event", VStr kind) :: rest)) /\
    dict_lookup rest "transcript" = None.

(** What the handler of the message kind [k] may do. *)
Definition handler_call (k : AgentServerMessageType) (message : value)
    (ws : nat) (ev : event) : Prop :=
  match k with
  | ADD_PARTIAL_SEGMENT =>
      segment_write SpeechmaticsProvider.partial_transcript message ws ev
  | ADD_SEGMENT =>
      segment_write SpeechmaticsProvider.final_transcript message ws ev
  | _ => lifecycle_write ws ev
  end.

End Writes.

(* ===================================================================== *)
(** * Vocabulary for the translation rules *)
(* ===================================================================== *)

Module Translation.
Import Py Runtime BaseSTTProvider Spec.

(** The utterance of a Deepgram message: [data["channel"]["alternatives"][0]],
    reached the way [_process_response] reaches it. *)
Definition first_alternative (data : value) : res value :=
  (channel <- getitem data "channel" ;;
   alternatives <- get channel "alternatives" (VList []) ;;
   getitem0 alternatives)%res.

(** The word-level speaker tags of an utterance, in word order. *)
Definition word_speakers (alternative : value) : res (list value) :=
  (words <- getitem alternative "words" ;;
   ws <- iter words ;;
   DeepgramProvider.tagged_speakers ws)%res.

(** A field of an object, when the value is one. *)
Definition field (v : value) (k : string) : option value :=
  match v with
  | VDict d => dict_lookup d k
  | _ => None
  end.

(** The speaker rule of the Deepgram adapter, for an utterance and the
    speaker field [sp] of the event ([None]: the field is left out): the
    utterance's own speaker if it has one; otherwise, over the speaker
    tags of its words, the most frequent one and the first met among the
    most frequent; no field when there is no tag. *)
Definition speaker_rule (alternative : value) (sp : option value) : Prop :=
  match field alternative "speaker" with
  | Some s => sp = Some s
  | None =>
      match field alternative "words" with
      | None => sp = None
      | Some words =>
          forall ws, words = VList ws -> Forall (fun w => is_dict w = true) ws ->
            match omap (fun w => field w "speaker") ws with
            | [] => sp = None
            | tags => exists v, sp = Some v /\ Frequency.most_frequent_first tags v
            end
      end
  end.

(** A decoded Deepgram message that [_process_response] cannot
    translate: one of the steps before the write raises [e]. *)
Definition malformed (data : value) (e : exn) : Prop :=
  DeepgramProvider.is_transcription data = inl e \/
  (DeepgramProvider.is_transcription data = inr true /\
   DeepgramProvider.transcription_result data = inl e) \/
  (DeepgramProvider.is_transcription data = inr false /\
   (contains "type" data = inl e \/
    (contains "type" data = inr true /\ getitem data "type" = inl e))).

(** The [float] [z.0] for an integer [z] that a double holds exactly. *)
Definition whole (z : Z) : value := VFloat (f64 z 0).

(** A speaker token [S<digit>]. *)
Definition speaker_token (d : nat) : string :=
  String "S" (String (ascii_of_nat (48 + d)) EmptyString).

End Translation.

(* ===================================================================== *)
(** * Sample messages *)
(* ===================================================================== *)

Module Samples.
Import Py Runtime BaseSTTProvider Spec Translation.

(** A Deepgram result: start 1.0 s, duration 0.5 s, no confidence, three
    words tagged with the speakers 1, 1 and 2. *)
Definition deepgram_words : value :=
  VList [VDict [("word", VStr "good"); ("speaker", VInt 1)];
         VDict [("word", VStr "morning"); ("speaker", VInt 1)];
         VDict [("word", VStr "all"); ("speaker", VInt 2)]].

Definition deepgram_alternative : value :=
  VDict [("transcript", VStr "good morning all"); ("words", deepgram_words)].

Definition deepgram_result : value :=
  VDict [("channel", VDict [("alternatives", VList [deepgram_alternative])]);
         ("is_final", VBool true);
         ("start", VFloat (f64 1 0));
         ("duration", VFloat (f64 1 (-1)))].

(** A Speechmatics segment: from 2.0 s to 2.75 s, speaker [S3], no
    confidence, with the vendor's [has_final] annotation. *)
Definition speechmatics_segment : value :=
  VDict [("text", VStr "hello there");
         ("start_time", VFloat (f64 2 0));
         ("end_time", VFloat (f64 11 (-2)));
         ("speaker_id", VStr "S3");
         ("annotation", VList [VStr "has_final"])].

Definition speechmatics_message : value :=
  VDict [("segments", VList [speechmatics_segment])].

(** A segment whose speaker label starts with [S] and is not a number,
    followed by a well-formed one. *)
Definition named_speaker_segment : value :=
  VDict [("text", VStr "hi"); ("start_time", VInt 0); ("end_time", VInt 1);
         ("speaker_id", VStr "Sam")].

Definition named_speaker_message : value :=
  VDict [("segments", VList [named_speaker_segment; speechmatics_segment])].

(** An environment where every call succeeds, no text decodes, and
    nothing else is known. *)
Definition calm : Env :=
  {| respond := fun _ _ => inr EmptyString;
     json_loads := fun _ => inl (Exn JSONDecodeError "Expecting value");
     repr := fun _ => "?";
     parse_float := fun _ => None |}.

(** The same, where the text ["r"] decodes to [deepgram_result]. *)
Definition decoding : Env :=
  {| respond := fun _ _ => inr EmptyString;
     json_loads := fun s => if String.eqb s "r" then inr deepgram_result
                            else inl (Exn JSONDecodeError "Expecting value");
     repr := fun _ => "?";
     parse_float := fun _ => None |}.

(** An environment where Deepgram refuses the connection and every
    other call succeeds. *)
Definition refusing : Env :=
  {| respond := fun _ c =>
       match c with
       | WsConnect _ _ => inl (Exn OtherError "server rejected WebSocket connection: HTTP 401")
       | _ => inr EmptyString
       end;
     json_loads := fun _ => inl (Exn JSONDecodeError "Expecting value");
     repr := fun _ => "?";
     parse_float := fun _ => None |}.

Definition refusal : exn :=
  Exn OtherError "server rejected WebSocket connection: HTTP 401".

(** The call [DeepgramProvider.connect] makes for [deepgram_only] in
    that environment. *)
Definition refused_connect : call :=
  WsConnect
    "wss://api.deepgram.com/v1/listen?encoding=linear16&sample_rate=?&channels=?&model=nova-2&language=en&punctuate=true&interim_results=true&endpointing=?&vad_events=true&smart_format=true&filler_words=false&numerals=true&diarize=false"
    [("Authorization", "Token dg-key")].

(** An environment where the vendor channel drops while the adapter is
    receiving, and every other call succeeds. *)
Definition dropping : Env :=
  {| respond := fun _ c =>
       match c with
       | WsRecv _ => inl (Exn ConnectionClosed "no close frame received or sent")
       | _ => inr EmptyString
       end;
     json_loads := fun _ => inl (Exn JSONDecodeError "Expecting value");
     repr := fun _ => "?";
     parse_float := fun _ => None |}.

(** The session of the client 7, as [connect] creates it. *)
Definition fresh_session : connection_data :=
  {| cd_speechmatics := None; cd_deepgram := None; cd_config := None |}.

Definition session_world : world :=
  {| trace := []; objects := [];
     active_connections := <[7%nat := fresh_session]> ∅;
     tasks := []; log := [] |}.

(** A configuration with a key for Deepgram only. *)
Definition deepgram_only : value :=
  VDict [("audio", VDict [("sampleRate", VInt 16000)]);
         ("deepgram", VDict [("apiKey", VStr "dg-key")])].

Definition empty_world : world :=
  {| trace := []; objects := []; active_connections := ∅; tasks := []; log := [] |}.

(** A world with a fresh Speechmatics adapter (object 0) and a fresh
    Deepgram adapter (object 1) of the client 7. *)
Definition two_adapters : world :=
  {| trace := [];
     objects := [init Speechmatics (VStr "key") (VDict [("apiKey", VStr "key")]) 7;
                 init Deepgram (VStr "key") (VDict [("apiKey", VStr "key")]) 7];
     active_connections := ∅; tasks := []; log := [] |}.

(** A world with one fresh adapter of class [c] for the client 7. *)
Definition one_adapter (c : provider) : world :=
  {| trace := [];
     objects := [init c (VStr "key") (VDict [("apiKey", VStr "key")]) 7];
     active_connections := ∅; tasks := []; log := [] |}.

(** An environment where the SDK of Speechmatics refuses every frame and
    every other call succeeds. *)
Definition choking : Env :=
  {| respond := fun _ c =>
       match c with
       | VoiceSendAudio _ _ => inl (Exn OtherError "client is not connected")
       | _ => inr EmptyString
       end;
     json_loads := fun _ => inl (Exn JSONDecodeError "Expecting value");
     repr := fun _ => "?";
     parse_float := fun _ => None |}.

(** A configuration with a key for both providers. *)
Definition both_keys : value :=
  VDict [("audio", VDict [("sampleRate", VInt 16000)]);
         ("speechmatics", VDict [("apiKey", VStr "sm-key")]);
         ("deepgram", VDict [("apiKey", VStr "dg-key")])].

(** The session of the client 7 once [both_keys] has been processed and
    both vendors have accepted: object 0 is the Speechmatics adapter,
    object 1 the Deepgram adapter, both connected and stored. *)
Definition live_session : world :=
  fst (ConnectionManager.initialize_providers calm 7 both_keys session_world).

End Samples.

(* ===================================================================== *)
(** * Vocabulary for the outcome of [connect] and of a session's calls *)
(* ===================================================================== *)

Module Outcomes.
Import Py Runtime BaseSTTProvider Spec Writes.

(** A call to the vendor of [c] that returned. *)
Definition vendor_ok (c : provider) (ev : event) : Prop :=
  call_provider (fst ev) = Some c /\ returns (snd ev).

(** The history of an operation of the adapter that failed with [e] and
    reported it: the newest call is the write of the error event with
    the text [prefix ++ str(e)]; before it come calls to the vendor, and
    any of them that raised, raised [e]. *)
Definition reported (c : provider) (ws : nat) (prefix : string) (e : exn)
    (new : list event) : Prop :=
  exists o rest,
    new = (SendText ws (error_event c (prefix ++ exn_str e)), o) :: rest /\
    Forall (vendor_call c) rest /\
    (forall call e', In (call, inl e') rest -> e' = e).

(** The world after [connect] on the adapter [a] at [self]: either every
    vendor call returned and the flag is up, or the flag is as it was
    and the failure was reported to the client. *)
Definition connect_post (c : provider) (self : nat) (a : adapter) (w w' : world)
  : Prop :=
  exists a' new,
    objects w' !! self = Some a' /\
    frame self w w' /\
    cls a' = c /\ websocket a' = websocket a /\
    history_grows w w' new /\
    ((is_connected a' = true /\ Forall (vendor_ok c) new) \/
     (is_connected a' = is_connected a /\
      exists e, reported c (websocket a) "Connection failed: " e new)).

(** The events [w'] added to the history of [w], newest first. *)
Definition added (w w' : world) : list event :=
  take (length (trace w') - length (trace w)) (trace w').

(** The log lines [w'] added to those of [w], newest first. *)
Definition logged (w w' : world) : list (level * string) :=
  take (length (log w') - length (log w)) (log w').

(** The name of a provider in the log lines of its adapter. *)
Definition log_name (c : provider) : string :=
  match c with Speechmatics => "Speechmatics" | Deepgram => "Deepgram" end.

(** A log line that [disconnect] of an adapter of class [c] writes. *)
Definition disconnect_line (c : provider) (line : level * string) : Prop :=
  line = (INFO, ("Disconnected from " ++ log_name c)%string) \/
  exists e, line = (ERROR, ("Error disconnecting from " ++ log_name c ++ ": "
                            ++ exn_str e)%string).

(** How often the messages [new] tell the client [ws] that the key of
    [p] is missing. *)
Definition key_missing_among (p : provider) (ws : nat) (new : list event) : nat :=
  length (filter (fun v => is_key_missing_event p v = true)
                 (omap (sent_of ws) (rev new))).

(** How often the client was told that the key of [p] is missing. *)
Definition key_missing_count (p : provider) (ws : nat) (w : world) : nat :=
  length (filter (fun v => is_key_missing_event p v = true) (client_received ws w)).

(** The history of a [connect] that went through, or that failed and
    said so. *)
Definition connect_history (c : provider) (ws : nat) (flag : bool)
    (new : list event) : Prop :=
  (flag = true /\ Forall (vendor_ok c) new) \/
  (flag = false /\ exists e, reported c ws "Connection failed: " e new).

(** What one of the two blocks of [initialize_providers] makes of the
    world [w], for the provider [p] of the client [ws]: with a key, a
    new adapter is constructed, connected and stored; without one, the
    client is told so and nothing else changes. *)
Definition block_post (config : value) (ws : nat) (p : provider) (w w' : world)
  : Prop :=
  if has_api_key config p
  then exists a' cd new,
         objects w' = objects w ++ [a'] /\
         cls a' = p /\ websocket a' = ws /\
         active_connections w !! ws = Some cd /\
         active_connections w' =
           <[ws := ConnectionManager.set_cd_provider p (Some (length (objects w))) cd]>
             (active_connections w) /\
         history_grows w w' new /\
         connect_history p ws (is_connected a') new
  else objects w' = objects w /\
       active_connections w' = active_connections w /\
       exists s, trace w' = (SendText ws (key_missing_event p), inr s) :: trace w.

(** Every adapter of [w] is still one in [w'], of the same class and for
    the same client. *)
Definition adapters_kept (w w' : world) : Prop :=
  forall j c ws, is_adapter j c ws w -> is_adapter j c ws w'.

(** What [stop_providers] makes of the entry of [p] in the session of
    [ws]: nothing when nothing is stored; otherwise the stored adapter is
    disconnected (its log line is the newest) and the entry is cleared.
    Only the vendor of [p] is called. *)
Definition stop_post (ws : nat) (p : provider) (w w' : world) : Prop :=
  match active_connections w !! ws with
  | None => w' = w
  | Some cd =>
      match ConnectionManager.cd_provider p cd with
      | None => w' = w
      | Some self =>
          active_connections w' =
            <[ws := ConnectionManager.set_cd_provider p None cd]>
              (active_connections w) /\
          adapters_kept w w' /\
          (exists new, history_grows w w' new /\ Forall (vendor_call p) new) /\
          exists line, log w' = line :: log w /\ disconnect_line p line
      end
  end.

(** The close handshake of Deepgram. *)
Definition close_stream : value := VDict [("type", VStr "CloseStream")].

(** Nothing is stored for [p] in the session of [ws], or there is no
    such session. *)
Definition nothing_stored (ws : nat) (p : provider) (w : world) : Prop :=
  match active_connections w !! ws with
  | Some cd => ConnectionManager.cd_provider p cd = None
  | None => True
  end.

(** The history of a [send_audio] on a connected adapter: the frame goes
    to the vendor with the call [send]; if that raises, the error event
    follows. *)
Definition send_history (c : provider) (ws : nat) (send : call)
    (new : list event) : Prop :=
  (exists s, new = [(send, inr s)]) \/
  (exists e o,
     new = [(SendText ws (error_event c ("Audio transmission error: "
                                         ++ exn_str e)), o);
            (send, inl e)]).

(** The call that carries a frame to the vendor of the adapter [a]. *)
Definition audio_call (a : adapter) (audio_data : bytes) : option call :=
  if is_connected a
  then match cls a with
       | Speechmatics => option_map (fun c => VoiceSendAudio c audio_data)
                                    (voice_client a)
       | Deepgram => option_map (fun s => WsSendBytes (vs_id s) audio_data)
                                (provider_websocket a)
       end
  else None.

(** No call to the vendor of [c] raised in [new]. *)
Definition vendor_calm (c : provider) (new : list event) : Prop :=
  forall call e, In (call, inl e) new -> call_provider call <> Some c.

(** [m], run from [w], turns a failed call to the vendor of [c] into
    the error event [prefix ++ str(e)] for the client [ws]: if a call to
    the vendor raised [e], the newest call of [m] is the write of that
    event. *)
Definition converts {A} (c : provider) (ws : nat) (prefix : string)
    (m : M A) (w : world) : Prop :=
  forall call e,
    In (call, inl e) (added w (fst (m w))) -> call_provider call = Some c ->
    exists o,
      hd_error (added w (fst (m w)))
      = Some (SendText ws (error_event c (prefix ++ exn_str e)), o).

(** The same, except for [ConnectionClosed]: then the call that raised
    is the newest call of [m], and nothing was written after it. *)
Definition converts_unless_closed {A} (c : provider) (ws : nat)
    (prefix : string) (m : M A) (w : world) : Prop :=
  forall call e,
    In (call, inl e) (added w (fst (m w))) -> call_provider call = Some c ->
    if bool_decide (exn_cls e = ConnectionClosed)
    then hd_error (added w (fst (m w))) = Some (call, inl e)
    else exists o,
      hd_error (added w (fst (m w)))
      = Some (SendText ws (error_event c (prefix ++ exn_str e)), o).

End Outcomes.

(* ===================================================================== *)
(** * Vocabulary for the properties beyond the specification *)
(* ===================================================================== *)

Module Options.
Import Py Runtime BaseSTTProvider Spec.

(** [d.get(k, default)] on a [dict]. *)
Definition option_or (d : list (string * value)) (k : string) (default : value)
  : value :=
  match dict_lookup d k with Some v => v | None => default end.

(** The query parameters [DeepgramProvider.connect] always sends, in the
    order of the URL. *)
Definition base_keys : list string :=
  ["encoding"; "sample_rate"; "channels"; "model"; "language"; "punctuate";
   "interim_results"; "endpointing"; "vad_events"; "smart_format";
   "filler_words"; "numerals"; "diarize"].

(** The options [DeepgramProvider.connect] renders as [true] or [false],
    with their defaults. *)
Definition switches : list (string * bool) :=
  [("punctuate", true); ("interim_results", true); ("vad_events", true);
   ("smart_format", true); ("filler_words", false); ("numerals", true);
   ("diarize", false)].

(** The call that opens the channel of the Deepgram adapter [a]. *)
Definition opening (E : Env) (a : adapter) (params : list (string * value)) : call :=
  WsConnect (DeepgramProvider.connection_url E params)
            [("Authorization", ("Token " ++ str E (api_key a))%string)].

(** The SDK calls of a [SpeechmaticsProvider.connect] that goes through,
    oldest first: [attrs] are the diarization settings, if any were set;
    [cfg] and [client] name the configuration and the client. *)
Definition sdk_calls (args : list (string * value))
    (attrs : option (list (string * value))) (key : value) (cfg client : nat)
  : list call :=
  NewVoiceAgentConfig args
  :: match attrs with
     | Some l => [SetVoiceConfigAttrs cfg l]
     | None => []
     end
  ++ [NewVoiceAgentClient key cfg;
      VoiceOn client ADD_PARTIAL_SEGMENT;
      VoiceOn client ADD_SEGMENT;
      VoiceOn client SPEAKER_STARTED;
      VoiceOn client SPEAKER_ENDED;
      VoiceOn client END_OF_TURN;
      VoiceConnect client].

End Options.

Module MoreSamples.
Import Py Runtime BaseSTTProvider Spec.

(** A provider entry whose [endOfUtteranceMode] is a number. *)
Definition numeric_mode : value :=
  VDict [("apiKey", VStr "key"); ("endOfUtteranceMode", VInt 1)].

(** A world with one fresh adapter of class [c] for the client 7,
    configured with [config]. *)
Definition one_adapter_with (c : provider) (config : value) : world :=
  {| trace := []; objects := [init c (VStr "key") config 7];
     active_connections := ∅; tasks := []; log := [] |}.

(** An environment where the vendors take no goodbye: the close
    handshake of Deepgram and [close()] of the Speechmatics client raise;
    every other call succeeds. *)
Definition stuck : Env :=
  {| respond := fun _ c =>
       match c with
       | WsSendText _ _ | VoiceClose _ => inl (Exn OtherError "timed out")
       | _ => inr EmptyString
       end;
     json_loads := fun _ => inl (Exn JSONDecodeError "Expecting value");
     repr := fun _ => "?";
     parse_float := fun _ => None |}.

(** The Deepgram adapter of [two_adapters] once it is connected. *)
Definition connected_deepgram : adapter :=
  set_is_connected true
    (set_provider_websocket (Some {| vs_id := 0; vs_closed := false |})
       (init Deepgram (VStr "key") (VDict [("apiKey", VStr "key")]) 7)).

End MoreSamples.

Module Sessions.
Import Py Runtime BaseSTTProvider Spec.

(** The tasks [ConnectionManager.disconnect] creates for a session,
    newest first: one [disconnect()] per stored adapter. *)
Definition teardown_tasks (cd : connection_data) : list task :=
  match cd_deepgram cd with Some p => [DisconnectTask p] | None => [] end ++
  match cd_speechmatics cd with Some p => [DisconnectTask p] | None => [] end.

(** [message.get("type")] of a decoded object is neither ["config"] nor
    ["stop"]. *)
Definition unknown_type (d : list (string * value)) : bool :=
  match dict_lookup d "type" with
  | Some ty => negb (is_str "config" ty) && negb (is_str "stop" ty)
  | None => true
  end.

(** The text of the [AttributeError] for [message.get] on a decoded
    value that is not an object. *)
Definition no_get (v : value) : exn :=
  Exn AttributeError ("'" ++ type_name v ++ "' object has no attribute 'get'").

End Sessions.

Module Decoders.
Import Py Runtime BaseSTTProvider Spec.

(** An environment where every call succeeds and the text ["[]"]
    decodes to the empty list. *)
Definition listing : Env :=
  {| respond := fun _ _ => inr EmptyString;
     json_loads := fun s => if String.eqb s "[]" then inr (VList [])
                            else inl (Exn JSONDecodeError "Expecting value");
     repr := fun _ => "?";
     parse_float := fun _ => None |}.

End Decoders.

Module Isolation.
Import Py Runtime BaseSTTProvider Spec.

(** A call on a client channel is a call on the channel of [ws]. *)
Definition client_only (ws : nat) (ev : event) : Prop :=
  match fst ev with
  | SendText t _ | Accept t => t = ws
  | _ => True
  end.

(** The calls with which a channel is set up, and the writes to a
    client. *)
Definition setup_call (c : call) : bool :=
  match c with
  | SendText _ _ | WsConnect _ _ | NewVoiceAgentConfig _
  | SetVoiceConfigAttrs _ _ | NewVoiceAgentClient _ _ | VoiceOn _ _
  | VoiceConnect _ => true
  | _ => false
  end.

(** What [connect] of an adapter of class [c] may do: set the channel to
    its vendor up, or report an error to the client [ws]. *)
Definition setup_event (c : provider) (ws : nat) (ev : event) : Prop :=
  (Writes.vendor_call c ev /\ setup_call (fst ev) = true) \/
  Writes.error_write c ws ev.

(** What the code that serves the client [ws] may make of the world: the
    table stays in order, the sessions of the other clients and the
    adapters of the other clients are as they were, no adapter changes
    class or owner, and every call it makes is one [R] admits. *)
Definition confined (R : event -> Prop) (ws : nat) (w w' : world) : Prop :=
  sessions_ok w' /\
  (forall ws', ws' <> ws ->
     active_connections w' !! ws' = active_connections w !! ws') /\
  (forall j a, objects w !! j = Some a -> websocket a <> ws ->
     objects w' !! j = Some a) /\
  (forall j c t, is_adapter j c t w -> is_adapter j c t w') /\
  exists new, history_grows w w' new /\ Forall R new.

(** A coroutine serving [ws]: from a table in order and a world where
    [P] holds, it keeps the world [confined], and [Q] holds of what it
    returns. *)
Definition serves {A} (R : event -> Prop) (ws : nat) (P : world -> Prop)
    (m : M A) (Q : A -> world -> Prop) : Prop :=
  forall w, sessions_ok w -> P w ->
    confined R ws w (fst (m w)) /\
    forall a, snd (m w) = inr a -> Q a (fst (m w)).

Definition anywhere (w : world) : Prop := True.
Definition anything {A} (a : A) (w : world) : Prop := True.

(** The adapter a lookup in the session of [ws] returned, if any, is an
    adapter of [ws]. *)
Definition stored_adapter (ws : nat) (p : provider) (r : option nat) (w : world)
  : Prop :=
  match r with
  | Some self => is_adapter self p ws w
  | None => True
  end.

End Isolation.

Module Segments.
Import Py Runtime BaseSTTProvider Spec.

(** The transcripts of the segments of a message, in order, up to the
    first segment [build] raises on. *)
Fixpoint translations (build : value -> res value) (l : list value) : list value :=
  match l with
  | [] => []
  | segment :: r =>
      match build segment with
      | inr t => t :: translations build r
      | inl _ => []
      end
  end.

(** The builder of the handler of a segment message. *)
Definition builder (k : AgentServerMessageType) : value -> res value :=
  match k with
  | ADD_SEGMENT => SpeechmaticsProvider.final_transcript
  | _ => SpeechmaticsProvider.partial_transcript
  end.

(** The handler of [ADD_SEGMENT] is the one of final segments. *)
Definition final_kind (k : AgentServerMessageType) : bool :=
  match k with ADD_SEGMENT => true | _ => false end.

Definition segment_kind (k : AgentServerMessageType) : bool :=
  match k with
  | ADD_PARTIAL_SEGMENT | ADD_SEGMENT => true
  | _ => false
  end.

(** The body of the loop of a segment handler of the adapter [self] of
    [ws]: it translates the segment with [build], writes the transcript
    and fails if either step does. *)
Definition sends_translation (E : Env) (self ws : nat)
    (build : value -> res value) (body : value -> M unit) : Prop :=
  forall segment w, is_adapter self Speechmatics ws w ->
    objects (fst (body segment w)) = objects w /\
    match build segment with
    | inl e => trace (fst (body segment w)) = trace w /\
               snd (body segment w) = inl e
    | inr t =>
        trace (fst (body segment w))
          = (SendText ws t, respond E (trace w) (SendText ws t)) :: trace w /\
        match respond E (trace w) (SendText ws t) with
        | inl e => snd (body segment w) = inl e
        | inr _ => snd (body segment w) = inr tt
        end
    end.

End Segments.

Module MoreDecoders.
Import Py Runtime BaseSTTProvider Spec.

(** An environment where every call succeeds and the text ["r"] decodes
    to a Deepgram result whose only alternative has no text. *)
Definition silent : Env :=
  {| respond := fun _ _ => inr EmptyString;
     json_loads := fun s =>
       if String.eqb s "r"
       then inr (VDict [("channel",
                         VDict [("alternatives",
                                 VList [VDict [("transcript", VStr EmptyString)]])])])
       else inl (Exn JSONDecodeError "Expecting value");
     repr := fun _ => "?";
     parse_float := fun _ => None |}.

(** An environment where every call succeeds and the text ["r"] decodes
    to an error message of Deepgram without a description. *)
Definition failing : Env :=
  {| respond := fun _ _ => inr EmptyString;
     json_loads := fun s =>
       if String.eqb s "r" then inr (VDict [("type", VStr "Error")])
       else inl (Exn JSONDecodeError "Expecting value");
     repr := fun _ => "?";
     parse_float := fun _ => None |}.

End MoreDecoders.
(* ===================================================================== *)
(** * Vocabulary for what the handlers deliver *)
(* ===================================================================== *)

Module Delivery.
Import Py Runtime BaseSTTProvider Spec Translation Segments.

(** What the [except] clauses of [_process_response] send to the client
    for the exception [e]: nothing for a [JSONDecodeError], the error
    event otherwise. *)
Definition failure_report (ws : nat) (e : exn) : list call :=
  if bool_decide (exn_cls e = JSONDecodeError) then []
  else [SendText ws (error_event Deepgram
                       ("Response processing error: " ++ exn_str e))].

(** From [w] to [w'] the calls made are: the write of the message [t] to
    the client [ws], and, when that write raises, what the [except]
    clauses send for it. *)
Definition sent_first (E : Env) (ws : nat) (t : value) (w w' : world) : Prop :=
  calls w' = calls w ++
             SendText ws t ::
             match respond E (trace w) (SendText ws t) with
             | inr _ => []
             | inl e => failure_report ws e
             end.

(** From [w] to [w'] the calls made are the writes of the messages [ts]
    to the client [ws], one each and in order, up to the first write that
    raises: all of them on a channel that takes every message. *)
Definition sent_in_order (E : Env) (ws : nat) (ts : list value) (w w' : world)
  : Prop :=
  exists n,
    calls w' = calls w ++ map (SendText ws) (take n ts) /\
    (client_accepts E ws -> n = length ts).

(** A field that holds a [float] or is not there. *)
Definition float_or_absent (d : list (string * value)) (k : string) : bool :=
  match dict_lookup d k with
  | None | Some (VFloat _) => true
  | Some _ => false
  end.

(** A field that holds a number or is not there. *)
Definition number_or_absent (d : list (string * value)) (k : string) : bool :=
  match dict_lookup d k with
  | None => true
  | Some v => match as_number v with Some _ => true | None => false end
  end.

Definition hashable (v : value) : bool :=
  match key_of v with Some _ => true | None => false end.

(** A word of an utterance: an object whose speaker tag, if it has one,
    can be counted. *)
Definition word_ok (word : value) : bool :=
  match word with
  | VDict fields =>
      match dict_lookup fields "speaker" with
      | Some tag => hashable tag
      | None => true
      end
  | _ => false
  end.

(** A Deepgram result as the vendor documents it: [start] and [duration]
    are floats when present, and the first alternative is an object with
    a speaker of its own, or without words, or with a list of words. *)
Definition plain_result (data alternative : value) : bool :=
  match data, alternative with
  | VDict d, VDict al =>
      float_or_absent d "start" && float_or_absent d "duration" &&
      match dict_lookup al "speaker", dict_lookup al "words" with
      | Some _, _ => true
      | None, None => true
      | None, Some (VList words) => forallb word_ok words
      | None, Some _ => false
      end
  | _, _ => false
  end.

(** A Speechmatics segment as the vendor documents it: [start_time] and
    [end_time] are numbers when present, and the speaker label, when it
    is a string that starts with [S], is [S] and one digit. *)
Definition plain_segment (segment : value) : bool :=
  match segment with
  | VDict d =>
      number_or_absent d "start_time" && number_or_absent d "end_time" &&
      match dict_lookup d "speaker_id" with
      | Some (VStr s) =>
          negb (startswith s "S") ||
          existsb (fun n => String.eqb s (speaker_token n)) (seq 0 10)
      | _ => true
      end
  | _ => false
  end.

End Delivery.

(* ===================================================================== *)
(** * Facts about the Python fragment *)
(* ===================================================================== *)

Module PyFacts.
Import Py Frequency.

Lemma dict_lookup_set d k v k' :
  dict_lookup (dict_set d k v) k' =
  if String.eqb k' k then Some v else dict_lookup d k'.
Proof.
  induction d as [|[k0 v0] d IH]; cbn.
  - destruct (String.eqb k' k); reflexivity.
  - destruct (String.eqb k k0) eqn:Hk; cbn.
    + apply String.eqb_eq in Hk. subst k0.
      destruct (String.eqb k' k); reflexivity.
    + destruct (String.eqb k' k0) eqn:Hk'.
      * apply String.eqb_eq in Hk'. subst k0.
        rewrite String.eqb_sym in Hk. rewrite Hk. reflexivity.
      * exact IH.
Qed.

(** ** The counter *)

Lemma StronglySorted_impl_elem {A} (R R' : relation A) (l : list A) :
  (forall x y, x ∈ l -> y ∈ l -> R x y -> R' x y) ->
  StronglySorted R l -> StronglySorted R' l.
Proof.
  induction l as [|a l IH]; intros Himp Hs; [constructor|].
  apply StronglySorted_cons in Hs as (Hfa & Hs).
  apply StronglySorted_cons. split.
  - rewrite Forall_forall in Hfa |- *. intros y Hy.
    apply Himp; [left | right; exact Hy | auto].
  - apply IH; [|exact Hs]. intros x y Hx Hy. apply Himp; right; assumption.
Qed.

Lemma first_index_lt k l u :
  u ∈ l -> has_key k u -> (first_index k l < length l)%nat.
Proof.
  intros Hu Hk. unfold first_index.
  destruct (list_find_elem_of (has_key k) l u Hu Hk) as [[i x] Hf].
  rewrite Hf. apply list_find_Some in Hf as (Hi & _). eapply lookup_lt_Some; eauto.
Qed.

Lemma first_index_app k l v u :
  u ∈ l -> has_key k u -> first_index k (l ++ [v]) = first_index k l.
Proof.
  intros Hu Hk. unfold first_index.
  destruct (list_find_elem_of (has_key k) l u Hu Hk) as [[i x] Hf].
  rewrite Hf. erewrite list_find_app_l; eauto.
Qed.

Lemma first_index_fresh k l v :
  (forall u, u ∈ l -> ~ has_key k u) -> has_key k v ->
  list_find (has_key k) (l ++ [v]) = Some (length l, v).
Proof.
  intros Hn Hk. apply list_find_Some. split; [|split; [exact Hk|]].
  - rewrite lookup_app_r by lia. rewrite Nat.sub_diag. reflexivity.
  - intros j y Hj Hlt. rewrite lookup_app_l in Hj by exact Hlt.
    apply Hn. eapply list_elem_of_lookup_2; eauto.
Qed.

Lemma occurrences_app k l v :
  occurrences k (l ++ [v]) =
  (occurrences k l + if decide (has_key k v) then 1 else 0)%nat.
Proof.
  unfold occurrences. rewrite filter_app, length_app. f_equal.
  rewrite filter_cons. destruct (decide (has_key k v)); reflexivity.
Qed.

Lemma occurrences_none k l :
  (forall u, u ∈ l -> ~ has_key k u) -> occurrences k l = 0%nat.
Proof.
  intros Hn. unfold occurrences. induction l as [|x l IH]; [reflexivity|].
  rewrite filter_cons_False by (apply Hn; left).
  apply IH. intros u Hu. apply Hn. right. exact Hu.
Qed.

(** [counter_incr] either bumps the entry of the key or appends one. *)
Lemma counter_incr_cases c k v :
  (exists c1 x c2, c = c1 ++ x :: c2 /\ ce_key x = k /\
                   counter_incr c k v =
                   c1 ++ CEntry k (ce_elem x) (S (ce_count x)) :: c2) \/
  ((k ∉ map ce_key c) /\ counter_incr c k v = c ++ [CEntry k v 1]).
Proof.
  induction c as [|y c IH]; cbn.
  - right. split; [apply not_elem_of_nil | reflexivity].
  - destruct (decide (ce_key y = k)) as [Hy|Hy].
    + left. exists [], y, c. rewrite Hy. auto.
    + destruct IH as [(c1 & x & c2 & Hc & Hx & Hi)|(Hn & Hi)].
      * left. exists (y :: c1), x, c2. rewrite Hi, Hc. auto.
      * right. split.
        -- rewrite not_elem_of_cons. split; [congruence | exact Hn].
        -- rewrite Hi. reflexivity.
Qed.

Lemma counter_for_nil : counter_for [] [].
Proof.
  split; [constructor|]. split; [constructor|].
  intros u k Hu. apply elem_of_nil in Hu. destruct Hu.
Qed.

Lemma counter_for_keys_occur c pre k :
  counter_for c pre -> k ∈ map ce_key c -> exists u, u ∈ pre /\ has_key k u.
Proof.
  intros (Hall & _ & _) Hk. apply list_elem_of_fmap in Hk as (x & -> & Hx).
  rewrite Forall_forall in Hall. destruct (Hall x Hx) as (Hf & _).
  apply list_find_Some in Hf as (Hi & Hk & _).
  exists (ce_elem x). split; [eapply list_elem_of_lookup_2; eauto | exact Hk].
Qed.

Lemma counter_for_step c pre k v :
  counter_for c pre -> key_of v = Some k ->
  counter_for (counter_incr c k v) (pre ++ [v]).
Proof.
  intros Hc Hv. pose proof Hc as (Hall & Hsort & Hcov).
  assert (Hkeep : forall k', k' ∈ map ce_key c ->
            first_index k' (pre ++ [v]) = first_index k' pre).
  { intros k' Hk'. destruct (counter_for_keys_occur _ _ _ Hc Hk') as (u & Hu & Hku).
    eapply first_index_app; eauto. }
  assert (Hentry : forall x, x ∈ c ->
            list_find (has_key (ce_key x)) pre
              = Some (first_index (ce_key x) pre, ce_elem x) ->
            list_find (has_key (ce_key x)) (pre ++ [v])
              = Some (first_index (ce_key x) (pre ++ [v]), ce_elem x)).
  { intros x Hx Hf. rewrite Hkeep by (apply list_elem_of_fmap; eauto).
    eapply list_find_app_l; eauto. }
  destruct (counter_incr_cases c k v)
    as [(c1 & x & c2 & Hceq & Hx & Hi)|(Hn & Hi)]; rewrite Hi; clear Hi.
  - (* the key is known: its entry is bumped *)
    assert (Hkeys : map ce_key (c1 ++ CEntry k (ce_elem x) (S (ce_count x)) :: c2)
                    = map ce_key c).
    { rewrite Hceq, !map_app. cbn. rewrite Hx. reflexivity. }
    split; [|split].
    + rewrite Hceq in Hall. apply Forall_app in Hall as (H1 & H2).
      apply Forall_cons in H2 as ((Hfx & Hcx) & H2).
      assert (Hin : forall y, y ∈ c1 ++ c2 -> y ∈ c).
      { intros y Hy. rewrite Hceq. apply elem_of_app in Hy as [Hy|Hy];
          apply elem_of_app; [left|right; right]; exact Hy. }
      assert (Hother : forall y, y ∈ c1 ++ c2 ->
                list_find (has_key (ce_key y)) pre
                  = Some (first_index (ce_key y) pre, ce_elem y) /\
                ce_count y = occurrences (ce_key y) pre ->
                list_find (has_key (ce_key y)) (pre ++ [v])
                  = Some (first_index (ce_key y) (pre ++ [v]), ce_elem y) /\
                ce_count y = occurrences (ce_key y) (pre ++ [v])).
      { intros y Hy (Hfy & Hcy). split; [apply Hentry; auto|].
        rewrite occurrences_app, Hcy.
        destruct (decide (has_key (ce_key y) v)) as [Hyv|]; [|lia].
        exfalso. unfold has_key in Hyv. rewrite Hv in Hyv.
        injection Hyv as Hyk.
        (* two entries with the key [k] contradict the strict order *)
        rewrite Hceq, map_app in Hsort. cbn in Hsort.
        apply elem_of_app in Hy as [Hy|Hy].
        - assert (Hlt : (first_index (ce_key y) pre < first_index (ce_key x) pre)%nat).
          { eapply (StronglySorted_app_1_elem_of _ _ _ _ _ Hsort).
            - apply list_elem_of_fmap. eauto.
            - left. }
          rewrite Hx, <- Hyk in Hlt. lia.
        - apply StronglySorted_app_1_r in Hsort.
          apply StronglySorted_cons in Hsort as (Hfa & _).
          rewrite Forall_forall in Hfa.
          assert (Hlt : (first_index (ce_key x) pre < first_index (ce_key y) pre)%nat).
          { apply Hfa. apply list_elem_of_fmap. eauto. }
          rewrite Hx, <- Hyk in Hlt. lia. }
      apply Forall_app. split; [|apply Forall_cons; split].
      * rewrite Forall_forall in H1 |- *. intros y Hy. apply Hother; auto.
        apply elem_of_app. left. exact Hy.
      * cbn. split.
        -- rewrite <- Hx. apply Hentry; [|exact Hfx].
           rewrite Hceq. apply elem_of_app. right. left.
        -- rewrite occurrences_app, <- Hx, <- Hcx.
           rewrite decide_True by (unfold has_key; rewrite Hx; exact Hv). lia.
      * rewrite Forall_forall in H2 |- *. intros y Hy. apply Hother; auto.
        apply elem_of_app. right. exact Hy.
    + rewrite Hkeys.
      eapply StronglySorted_impl_elem; [|exact Hsort].
      intros k1 k2 H1 H2 Hlt. cbn in Hlt. rewrite !Hkeep; auto.
    + rewrite Hkeys. intros u k' Hu Hk'.
      apply elem_of_app in Hu as [Hu|Hu]; [eapply Hcov; eauto|].
      apply list_elem_of_singleton in Hu. subst u.
      rewrite Hv in Hk'. injection Hk' as <-.
      rewrite Hceq, map_app. apply elem_of_app. right. cbn. rewrite Hx. left.
  - (* a new key: its entry goes last *)
    assert (Hfresh : forall u, u ∈ pre -> ~ has_key k u).
    { intros u Hu Hku. apply Hn. eapply Hcov; eauto. }
    pose proof (first_index_fresh k pre v Hfresh Hv) as Hfk.
    assert (Hik : first_index k (pre ++ [v]) = length pre).
    { unfold first_index. rewrite Hfk. reflexivity. }
    split; [|split].
    + apply Forall_app. split.
      * rewrite Forall_forall in Hall |- *. intros y Hy.
        destruct (Hall y Hy) as (Hfy & Hcy). split; [apply Hentry; auto|].
        rewrite occurrences_app, Hcy.
        destruct (decide (has_key (ce_key y) v)) as [Hyv|]; [|lia].
        exfalso. unfold has_key in Hyv. rewrite Hv in Hyv. injection Hyv as Hyk.
        apply Hn. rewrite Hyk. apply list_elem_of_fmap. eauto.
      * apply Forall_cons. split; [|constructor]. cbn. split.
        -- rewrite Hik. exact Hfk.
        -- rewrite occurrences_app, occurrences_none by exact Hfresh.
           rewrite decide_True by exact Hv. reflexivity.
    + rewrite map_app. cbn.
      apply StronglySorted_app_2.
      * intros k1 k2 H1 H2. apply list_elem_of_singleton in H2. subst k2.
        rewrite Hik, Hkeep by exact H1.
        destruct (counter_for_keys_occur _ _ _ Hc H1) as (u & Hu & Hku).
        eapply first_index_lt; eauto.
      * eapply StronglySorted_impl_elem; [|exact Hsort].
        intros k1 k2 H1 H2 Hlt. cbn in Hlt. rewrite !Hkeep; auto.
      * repeat constructor.
    + intros u k' Hu Hk'. rewrite map_app. apply elem_of_app.
      apply elem_of_app in Hu as [Hu|Hu]; [left; eapply Hcov; eauto|].
      apply list_elem_of_singleton in Hu. subst u.
      rewrite Hv in Hk'. injection Hk' as <-. right. cbn. left.
Qed.

Lemma counter_update_for l : forall c pre c',
  counter_for c pre -> counter_update c l = inr c' -> counter_for c' (pre ++ l).
Proof.
  induction l as [|v l IH]; intros c pre c' Hc Hu; cbn in Hu.
  - injection Hu as <-. rewrite app_nil_r. exact Hc.
  - unfold hash_key in Hu. destruct (key_of v) as [k|] eqn:Hk; [|discriminate].
    cbn in Hu. replace (pre ++ v :: l) with ((pre ++ [v]) ++ l)
      by (rewrite <- app_assoc; reflexivity).
    eapply IH; [|exact Hu]. apply counter_for_step; assumption.
Qed.

(** [max_from] returns the first entry of greatest count. *)
Lemma max_from_first r : forall best,
  exists c1 c2,
    best :: r = c1 ++ max_from best r :: c2 /\
    Forall (fun y => (ce_count y < ce_count (max_from best r))%nat) c1 /\
    Forall (fun y => (ce_count y <= ce_count (max_from best r))%nat) c2.
Proof.
  induction r as [|x r IH]; intros best; cbn [max_from].
  - exists [], []. repeat split; constructor.
  - destruct (ce_count best <? ce_count x)%nat eqn:Hlt.
    + apply Nat.ltb_lt in Hlt.
      destruct (IH x) as (c1 & c2 & Heq & H1 & H2).
      exists (best :: c1), c2. split; [cbn; f_equal; exact Heq|].
      split; [|exact H2]. constructor; [|exact H1].
      destruct c1 as [|y c1]; cbn in Heq.
      * injection Heq as Hx _. rewrite <- Hx. exact Hlt.
      * injection Heq as Hx _. subst y. apply Forall_cons in H1 as (H1 & _). lia.
    + apply Nat.ltb_ge in Hlt.
      destruct (IH best) as (c1 & c2 & Heq & H1 & H2).
      destruct c1 as [|y c1]; cbn in Heq.
      * injection Heq as Hb Hr. exists [], (x :: c2).
        split; [cbn; congruence|].
        split; [constructor|]. constructor; [rewrite <- Hb; exact Hlt | exact H2].
      * injection Heq as Hb Hr. subst y. exists (best :: x :: c1), c2.
        split; [cbn; congruence|].
        split; [|exact H2]. apply Forall_cons in H1 as (Hb & H1).
        constructor; [exact Hb|]. constructor; [lia | exact H1].
Qed.

(** [Counter(l).most_common(1)[0][0]] is the most frequent element of
    [l], the first-met one among the most frequent. *)
Lemma most_common_elem_spec l v :
  most_common_elem l = inr v -> most_frequent_first l v.
Proof.
  unfold most_common_elem, Counter. intros H.
  destruct (counter_update [] l) as [e|c] eqn:Hu; cbn in H; [discriminate|].
  pose proof (counter_update_for l [] [] c counter_for_nil Hu) as Hc.
  cbn in Hc. destruct Hc as (Hall & Hsort & Hcov).
  destruct c as [|x r]; cbn in H; [discriminate|]. injection H as Hv.
  destruct (max_from_first r x) as (c1 & c2 & Heq & H1 & H2).
  set (b := max_from x r) in *. subst v.
  rewrite Heq in Hall, Hsort, Hcov. clear Heq Hu.
  apply Forall_app in Hall as (Ha1 & Ha2).
  apply Forall_cons in Ha2 as ((Hfb & Hcb) & Ha2).
  pose proof Hfb as Hfb'. apply list_find_Some in Hfb' as (Hib & Hkb & _).
  assert (Hle : forall y, y ∈ c1 ++ b :: c2 -> (ce_count y <= ce_count b)%nat).
  { intros y Hy. apply elem_of_app in Hy as [Hy|Hy].
    - rewrite Forall_forall in H1. specialize (H1 y Hy). lia.
    - apply elem_of_cons in Hy as [->|Hy]; [lia|].
      rewrite Forall_forall in H2. auto. }
  assert (Hcount : forall y, y ∈ c1 ++ b :: c2 ->
            ce_count y = occurrences (ce_key y) l).
  { intros y Hy. apply elem_of_app in Hy as [Hy|Hy].
    - rewrite Forall_forall in Ha1. apply Ha1. exact Hy.
    - apply elem_of_cons in Hy as [->|Hy]; [exact Hcb|].
      rewrite Forall_forall in Ha2. apply Ha2. exact Hy. }
  exists (first_index (ce_key b) l), (ce_key b).
  split; [exact Hib|]. split; [exact Hkb|]. split; [reflexivity|]. split.
  - intros u k' Hu Hk'. specialize (Hcov u k' Hu Hk').
    apply list_elem_of_fmap in Hcov as (y & -> & Hy).
    rewrite <- Hcb, <- (Hcount y Hy). apply Hle. exact Hy.
  - intros j u k' Hj Hlt Hk'.
    assert (Hu : u ∈ l) by (eapply list_elem_of_lookup_2; eauto).
    specialize (Hcov u k' Hu Hk').
    apply list_elem_of_fmap in Hcov as (y & -> & Hy).
    rewrite <- Hcb, <- (Hcount y Hy).
    assert (Hfy : (first_index (ce_key y) l <= j)%nat).
    { unfold first_index.
      destruct (list_find (has_key (ce_key y)) l) as [[i z]|] eqn:Hf.
      - apply list_find_Some in Hf as (_ & _ & Hmin).
        destruct (decide (i <= j)%nat) as [|Hgt]; [assumption|].
        exfalso. apply (Hmin j u Hj); [lia | exact Hk'].
      - apply list_find_None in Hf. rewrite Forall_forall in Hf.
        exfalso. apply (Hf u Hu). exact Hk'. }
    rewrite map_app in Hsort. cbn in Hsort.
    apply elem_of_app in Hy as [Hy|Hy].
    + rewrite Forall_forall in H1. apply H1. exact Hy.
    + exfalso. apply elem_of_cons in Hy as [->|Hy]; [lia|].
      apply StronglySorted_app_1_r in Hsort.
      apply StronglySorted_cons in Hsort as (Hfa & _).
      rewrite Forall_forall in Hfa.
      assert ((first_index (ce_key b) l < first_index (ce_key y) l)%nat).
      { apply Hfa. apply list_elem_of_fmap. eauto. }
      lia.
Qed.

End PyFacts.

(* ===================================================================== *)
(** * Rules for reasoning about methods *)
(* ===================================================================== *)

Module Logic.
Import Py Runtime BaseSTTProvider Spec.
Local Open Scope coro_scope.

Lemma frame_refl self w : frame self w w.
Proof. repeat split; auto. Qed.

Lemma frame_trans self w1 w2 w3 :
  frame self w1 w2 -> frame self w2 w3 -> frame self w1 w3.
Proof.
  intros (A1 & B1 & C1) (A2 & B2 & C2). repeat split; try congruence.
  intros j Hj. rewrite C2, C1; auto.
Qed.

Lemma history_refl w : history_grows w w [].
Proof. reflexivity. Qed.

Lemma history_trans w1 w2 w3 n1 n2 :
  history_grows w1 w2 n1 -> history_grows w2 w3 n2 ->
  history_grows w1 w3 (n2 ++ n1).
Proof. unfold history_grows. intros H1 H2. rewrite H2, H1, app_assoc. reflexivity. Qed.

Section Rules.
Context (E : Env) (self : nat) (c : provider) (ws : nat).
Context (P : event -> Prop).

Local Abbreviation method := (method self c ws).

(** A step that changes neither the objects nor the session table. *)
Lemma method_step {A} (Q : res A -> Prop) (m : M A) :
  (forall w, Q (snd (m w)) /\
             (exists new, history_grows w (fst (m w)) new /\ Forall P new) /\
             objects (fst (m w)) = objects w /\
             active_connections (fst (m w)) = active_connections w) ->
  method P Q m.
Proof.
  intros H w Hw. destruct (H w) as (HQ & Ht & Ho & Hc).
  split; [exact HQ|]. split.
  - destruct Hw as (a & Ha & Hcls). exists a. rewrite Ho. auto.
  - split; [|exact Ht].
    repeat split; auto.
    + congruence.
    + intros; congruence.
Qed.

Lemma method_pure {A} (Q : res A -> Prop) (m : M A) :
  (forall w, Q (snd (m w)) /\ trace (fst (m w)) = trace w /\
             objects (fst (m w)) = objects w /\
             active_connections (fst (m w)) = active_connections w) ->
  method P Q m.
Proof.
  intros H. apply method_step. intros w. destruct (H w) as (HQ & Ht & Ho & Hc).
  repeat split; auto. exists []. split; [exact Ht | constructor].
Qed.

Lemma method_ret {A} (Q : res A -> Prop) (a : A) :
  Q (inr a) -> method P Q (ret a).
Proof. intros HQ. apply method_pure. intros w. cbn. auto. Qed.

Lemma method_raise {A} (Q : res A -> Prop) (e : exn) :
  Q (inl e) -> method P Q (raise e).
Proof. intros HQ. apply method_pure. intros w. cbn. auto. Qed.

Lemma method_lift {A} (r : res A) : method P any_outcome (lift r).
Proof. apply method_pure. intros w. cbn. unfold any_outcome. auto. Qed.

Lemma method_logger (Q : res unit -> Prop) l msg :
  Q (inr tt) -> method P Q (logger l msg).
Proof. intros HQ. apply method_pure. intros w. cbn. auto. Qed.

Lemma method_create_task (Q : res unit -> Prop) t :
  Q (inr tt) -> method P Q (create_task t).
Proof. intros HQ. apply method_pure. intros w. cbn. auto. Qed.

Lemma method_attr {A} (f : adapter -> A) : method P returns (attr self f).
Proof.
  intros w Hw. pose proof Hw as (a & Ha & Hcls).
  unfold attr. rewrite Ha. cbn. split; [eexists; reflexivity|].
  split; [exact Hw|]. split; [apply frame_refl|].
  exists []. split; [reflexivity | constructor].
Qed.

Lemma method_set_attr (upd : adapter -> adapter) :
  (forall a, cls (upd a) = cls a /\ websocket (upd a) = websocket a) ->
  method P returns (set_attr self upd).
Proof.
  intros Hupd w Hw. pose proof Hw as (a & Ha & Hc & Hs).
  unfold set_attr. rewrite Ha. cbn.
  assert (Hlt : (self < length (objects w))%nat) by (eapply lookup_lt_Some; eauto).
  split; [eexists; reflexivity|]. split.
  - exists (upd a). cbn. rewrite list_lookup_insert_eq by exact Hlt.
    destruct (Hupd a). split; [reflexivity|]. split; congruence.
  - split.
    + repeat split; cbn.
      * apply length_insert.
      * intros j Hj. apply list_lookup_insert_ne. congruence.
    + exists []. split; [reflexivity | constructor].
Qed.

Lemma method_perform (call : call) :
  (forall o, P (call, o)) -> method P any_outcome (perform E call).
Proof.
  intros HP. apply method_step. intros w. unfold perform. cbn.
  repeat split; auto.
  eexists [_]. split; [reflexivity|]. constructor; [apply HP | constructor].
Qed.

Lemma method_construct (call : call) :
  (forall o, P (call, o)) -> method P any_outcome (construct E call).
Proof.
  intros HP. apply method_step. intros w. unfold construct.
  destruct (respond E (trace w) call) eqn:Hr; cbn;
    (repeat split; auto;
     eexists [_]; split; [reflexivity|]; constructor; [apply HP | constructor]).
Qed.

Lemma method_weaken {A} (P' : event -> Prop) (Q Q' : res A -> Prop) (m : M A) :
  (forall ev, P' ev -> P ev) -> (forall r, Q' r -> Q r) ->
  Spec.method self c ws P' Q' m -> method P Q m.
Proof.
  intros HP HQ Hm w Hw. destruct (Hm w Hw) as (H1 & H2 & H3 & new & H4 & H5).
  split; [auto|]. split; [auto|]. split; [auto|].
  exists new. split; [auto|]. eapply Forall_impl; eauto.
Qed.

Lemma method_bind {A B} (Q1 : res A -> Prop) (Q : res B -> Prop)
    (m : M A) (k : A -> M B) :
  method P Q1 m ->
  (forall e, Q1 (inl e) -> Q (inl e)) ->
  (forall a, method P Q (k a)) ->
  method P Q (bind m k).
Proof.
  intros Hm He Hk w Hw. destruct (Hm w Hw) as (H1 & H2 & H3 & new & H4 & H5).
  unfold bind. destruct (m w) as [w1 [e|a]]; cbn in *.
  - split; [auto|]. split; [auto|]. split; [auto|]. exists new. auto.
  - destruct (Hk a w1 H2) as (K1 & K2 & K3 & new' & K4 & K5).
    split; [auto|]. split; [auto|]. split; [eapply frame_trans; eauto|].
    exists (new' ++ new). split; [eapply history_trans; eauto|].
    apply Forall_app; auto.
Qed.

Lemma method_try {A} (Q : res A -> Prop) (m : M A) (h : exn -> M A) :
  method P any_outcome m ->
  (forall a, Q (inr a)) ->
  (forall e, method P Q (h e)) ->
  method P Q (try_except m h).
Proof.
  intros Hm Ha Hh w Hw. destruct (Hm w Hw) as (H1 & H2 & H3 & new & H4 & H5).
  unfold try_except. destruct (m w) as [w1 [e|a]]; cbn in *.
  - destruct (Hh e w1 H2) as (K1 & K2 & K3 & new' & K4 & K5).
    split; [auto|]. split; [auto|]. split; [eapply frame_trans; eauto|].
    exists (new' ++ new). split; [eapply history_trans; eauto|].
    apply Forall_app; auto.
  - split; [auto|]. split; [auto|]. split; [auto|]. exists new. auto.
Qed.

(** Sequencing when the outcome does not matter. *)
Lemma method_seq {A B} (m : M A) (k : A -> M B) :
  method P any_outcome m ->
  (forall a, method P any_outcome (k a)) ->
  method P any_outcome (bind m k).
Proof.
  intros Hm Hk. eapply method_bind; eauto.
Qed.

(** Sequencing of steps that both return. *)
Lemma method_then {A B} (m : M A) (k : A -> M B) :
  method P returns m ->
  (forall a, method P returns (k a)) ->
  method P returns (bind m k).
Proof.
  intros Hm Hk. eapply method_bind; [exact Hm | | exact Hk].
  intros e (a & Ha). discriminate.
Qed.

Lemma method_any {A} (Q : res A -> Prop) (m : M A) :
  method P Q m -> method P any_outcome m.
Proof. apply method_weaken; auto. intros; exact I. Qed.

Lemma method_for_each {A} (l : list A) (body : A -> M unit) :
  (forall x, In x l -> method P any_outcome (body x)) ->
  method P any_outcome (SpeechmaticsProvider.for_each l body).
Proof.
  induction l as [|x l IH]; intros Hb; cbn.
  - apply method_ret. exact I.
  - apply method_seq.
    + apply Hb. left. reflexivity.
    + intros _. apply IH. intros y Hy. apply Hb. right. exact Hy.
Qed.

(** Reading an attribute of [self] and going on with its value. *)
Lemma method_bind_attr {A B} (f : adapter -> A) (Q : res B -> Prop)
    (k : A -> M B) :
  (forall a, cls a = c -> websocket a = ws -> method P Q (k (f a))) ->
  method P Q (bind (attr self f) k).
Proof.
  intros Hk w Hw. pose proof Hw as (a & Ha & Hc & Hs).
  unfold bind, attr. rewrite Ha. apply Hk; assumption.
Qed.

(** Evaluating an expression and going on with its value. *)
Lemma method_bind_lift {A B} (r : res A) (Q : res B -> Prop) (k : A -> M B) :
  (forall e, r = inl e -> Q (inl e)) ->
  (forall a, r = inr a -> method P Q (k a)) ->
  method P Q (bind (lift r) k).
Proof.
  intros He Hk. destruct r as [e|a].
  - apply method_pure. intros w. cbn. auto.
  - intros w Hw. unfold bind, lift. apply Hk; auto.
Qed.

Lemma method_mark_closed : method P returns (mark_closed self).
Proof. apply method_set_attr. intros a. split; reflexivity. Qed.

Lemma method_on_socket (call : call) :
  (forall o, P (call, o)) -> method P any_outcome (on_socket E self call).
Proof.
  intros HP. unfold on_socket. apply method_try.
  - apply method_perform. exact HP.
  - intros; exact I.
  - intros e. apply method_seq.
    + destruct (bool_decide _).
      * eapply method_any. apply method_mark_closed.
      * apply method_ret. exact I.
    + intros _. apply method_raise. exact I.
Qed.

Lemma method_socket_close (h : nat) :
  (forall o, P (WsClose h, o)) -> method P any_outcome (socket_close E self h).
Proof.
  intros HP. unfold socket_close. apply method_seq.
  - apply method_perform. exact HP.
  - intros _. eapply method_any. apply method_mark_closed.
Qed.

End Rules.
End Logic.

(* ===================================================================== *)
(** * The methods of the adapters *)
(* ===================================================================== *)

Module AdapterFacts.
Import Py Runtime BaseSTTProvider Spec Writes Logic.
Local Open Scope coro_scope.

Section Methods.
Context (E : Env) (self : nat) (ws : nat).

Lemma error_event_set c msg :
  VDict (dict_set [("provider", VStr (provider_name c)); ("error", VStr msg)]
                  "provider" (VStr (provider_name c)))
  = error_event c msg.
Proof. reflexivity. Qed.

Lemma send_result_method c P result :
  (forall o, P (SendText ws (VDict (dict_set result "provider"
                                      (VStr (provider_name c)))), o)) ->
  method self c ws P returns (send_result_to_client E self result).
Proof.
  intros HP. unfold send_result_to_client. apply method_try.
  - unfold get_provider_name. apply method_bind_attr. intros a Hc Hs.
    apply method_bind_attr. intros a' Hc' Hs'. rewrite Hc, Hs'.
    apply method_seq; [apply method_perform; exact HP|].
    intros _. apply method_ret. exact I.
  - intros a. eexists; reflexivity.
  - intros e. apply method_logger. eexists; reflexivity.
Qed.

Lemma send_error_method c P msg :
  (forall o, P (SendText ws (error_event c msg), o)) ->
  method self c ws P returns (send_error_to_client E self msg).
Proof.
  intros HP. unfold send_error_to_client, get_provider_name.
  apply method_bind_attr. intros a Hc Hs. rewrite Hc.
  apply send_result_method. exact HP.
Qed.

Lemma control_error c o msg : control_call c ws (SendText ws (error_event c msg), o).
Proof. right. exists msg. reflexivity. Qed.

Lemma control_vendor c call o :
  call_provider call = Some c -> control_call c ws (call, o).
Proof. intros H. left. exact H. Qed.

(** ** Deepgram *)

Lemma deepgram_send_audio_method audio_data :
  method self Deepgram ws (control_call Deepgram ws) returns
         (DeepgramProvider.send_audio E self audio_data).
Proof.
  unfold DeepgramProvider.send_audio. apply method_try.
  - apply method_bind_attr. intros a _ _.
    apply method_bind_attr. intros a' _ _.
    destruct (provider_websocket a) as [s|]; [|apply method_ret; exact I].
    destruct (is_connected a'); [|apply method_ret; exact I].
    apply method_seq.
    + apply method_on_socket. intros o. apply control_vendor. reflexivity.
    + intros _. apply method_ret. exact I.
  - intros a. eexists; reflexivity.
  - intros e. apply method_then.
    + apply method_logger. eexists; reflexivity.
    + intros _. apply send_error_method. intros o. apply control_error.
Qed.

Lemma deepgram_disconnect_method :
  method self Deepgram ws (vendor_call Deepgram) returns
         (DeepgramProvider.disconnect E self).
Proof.
  unfold DeepgramProvider.disconnect. apply method_try.
  - apply method_bind_attr. intros a _ _. apply method_seq.
    + destruct (provider_websocket a) as [s|]; [|apply method_ret; exact I].
      destruct (negb (vs_closed s)); [|apply method_ret; exact I].
      apply method_seq.
      * apply method_on_socket. intros o. reflexivity.
      * intros _. apply method_socket_close. intros o. reflexivity.
    + intros _. apply method_seq.
      * eapply method_any. apply method_set_attr. intros; split; reflexivity.
      * intros _. apply method_logger. exact I.
  - intros a. eexists; reflexivity.
  - intros e. apply method_logger. eexists; reflexivity.
Qed.

Lemma deepgram_connect_method :
  method self Deepgram ws (control_call Deepgram ws) returns
         (DeepgramProvider.connect E self).
Proof.
  unfold DeepgramProvider.connect. apply method_try.
  - apply method_bind_attr. intros a _ _.
    apply method_bind_lift; [intros; exact I|]. intros params _.
    apply method_bind_attr. intros a' _ _.
    apply method_seq.
    + apply method_construct. intros o. apply control_vendor. reflexivity.
    + intros h. apply method_seq.
      * eapply method_any. apply method_set_attr. intros; split; reflexivity.
      * intros _. apply method_seq.
        -- eapply method_any. apply method_set_attr. intros; split; reflexivity.
        -- intros _. apply method_seq.
           ++ apply method_create_task. exact I.
           ++ intros _. apply method_logger. exact I.
  - intros a. eexists; reflexivity.
  - intros e. apply method_then.
    + apply method_logger. eexists; reflexivity.
    + intros _. apply send_error_method. intros o. apply control_error.
Qed.

Lemma process_response_method response :
  method self Deepgram ws (response_call E response ws) returns
         (DeepgramProvider._process_response E self response).
Proof.
  unfold DeepgramProvider._process_response. apply method_try.
  - apply method_bind_lift; [intros; exact I|]. intros data Hdata.
    apply method_bind_lift; [intros; exact I|]. intros [|] Htr.
    + apply method_bind_lift; [intros; exact I|]. intros [t|] Hout.
      * apply method_bind_attr. intros a _ Hs. rewrite Hs.
        apply method_seq; [|intros _; apply method_ret; exact I].
        apply method_perform. intros o. left. exists data, t. auto.
      * apply method_ret. exact I.
    + apply method_bind_lift; [intros; exact I|]. intros [|] Hty.
      * apply method_bind_lift; [intros; exact I|]. intros message_type _.
        destruct (is_str "UtteranceEnd" message_type); [apply method_ret; exact I|].
        destruct (is_str "SpeechStarted" message_type); [apply method_ret; exact I|].
        destruct (is_str "Error" message_type); [|apply method_ret; exact I].
        apply method_bind_lift; [intros; exact I|]. intros msg _.
        eapply method_any. apply send_error_method. intros o. right. eexists. reflexivity.
      * apply method_ret. exact I.
  - intros a. eexists; reflexivity.
  - intros e. destruct (bool_decide _).
    + apply method_logger. eexists; reflexivity.
    + apply method_then.
      * apply method_logger. eexists; reflexivity.
      * intros _. apply send_error_method. intros o. right. eexists. reflexivity.
Qed.

Lemma listen_loop_method fuel :
  method self Deepgram ws (listen_call E ws) any_outcome
         (DeepgramProvider.listen_loop E fuel self).
Proof.
  induction fuel as [|fuel IH]; cbn [DeepgramProvider.listen_loop].
  - apply method_ret. exact I.
  - apply method_bind_attr. intros a _ _.
    destruct (provider_websocket a) as [s|]; [|apply method_ret; exact I].
    destruct (negb (vs_closed s)); [|apply method_ret; exact I].
    apply method_seq.
    + apply method_on_socket. intros o. left. reflexivity.
    + intros response. apply method_seq; [|intros _; exact IH].
      eapply method_weaken; [| |apply (process_response_method response)].
      * intros ev Hev. right. exists response. exact Hev.
      * intros; exact I.
Qed.

Lemma listen_method fuel :
  method self Deepgram ws (listen_call E ws) returns
         (DeepgramProvider._listen_for_responses E fuel self).
Proof.
  unfold DeepgramProvider._listen_for_responses. apply method_try.
  - apply listen_loop_method.
  - intros a. eexists; reflexivity.
  - intros e. destruct (bool_decide _).
    + apply method_then; [apply method_logger; eexists; reflexivity|].
      intros _. apply method_ret. eexists; reflexivity.
    + apply method_then; [apply method_logger; eexists; reflexivity|].
      intros _. apply method_then.
      * apply send_error_method. intros o. right. exists EmptyString. right.
        eexists. reflexivity.
      * intros _. apply method_ret. eexists; reflexivity.
Qed.

(** ** Speechmatics *)

Lemma speechmatics_send_audio_method audio_data :
  method self Speechmatics ws (control_call Speechmatics ws) returns
         (SpeechmaticsProvider.send_audio E self audio_data).
Proof.
  unfold SpeechmaticsProvider.send_audio. apply method_try.
  - apply method_bind_attr. intros a _ _.
    apply method_bind_attr. intros a' _ _.
    destruct (voice_client a) as [vc|]; [|apply method_ret; exact I].
    destruct (is_connected a'); [|apply method_ret; exact I].
    apply method_seq.
    + apply method_perform. intros o. apply control_vendor. reflexivity.
    + intros _. apply method_ret. exact I.
  - intros a. eexists; reflexivity.
  - intros e. apply method_then.
    + apply method_logger. eexists; reflexivity.
    + intros _. apply send_error_method. intros o. apply control_error.
Qed.

Lemma speechmatics_disconnect_method :
  method self Speechmatics ws (vendor_call Speechmatics) returns
         (SpeechmaticsProvider.disconnect E self).
Proof.
  unfold SpeechmaticsProvider.disconnect. apply method_try.
  - apply method_bind_attr. intros a _ _. apply method_seq.
    + destruct (voice_client a) as [vc|]; [|apply method_ret; exact I].
      apply method_seq; [|intros _; apply method_ret; exact I].
      apply method_perform. intros o. reflexivity.
    + intros _. apply method_seq.
      * eapply method_any. apply method_set_attr. intros; split; reflexivity.
      * intros _. apply method_logger. exact I.
  - intros a. eexists; reflexivity.
  - intros e. apply method_logger. eexists; reflexivity.
Qed.

Lemma speechmatics_connect_method :
  method self Speechmatics ws (control_call Speechmatics ws) returns
         (SpeechmaticsProvider.connect E self).
Proof.
  unfold SpeechmaticsProvider.connect. apply method_try.
  - apply method_bind_attr. intros a _ _.
    apply method_seq; [apply method_logger; exact I|]. intros _.
    apply method_bind_lift; [intros; exact I|]. intros dia _.
    apply method_bind_lift; [intros; exact I|]. intros args _.
    apply method_seq; [apply method_logger; exact I|]. intros _.
    apply method_seq;
      [apply method_construct; intros o; apply control_vendor; reflexivity|].
    intros voice_config.
    apply method_seq; [apply method_logger; exact I|]. intros _.
    apply method_seq.
    { destruct (truthy dia); [|apply method_ret; exact I].
      apply method_bind_lift; [intros; exact I|]. intros attrs _.
      apply method_seq;
        [apply method_perform; intros o; apply control_vendor; reflexivity|].
      intros _. apply method_logger. exact I. }
    intros _. apply method_bind_attr. intros a' _ _.
    apply method_seq;
      [apply method_construct; intros o; apply control_vendor; reflexivity|].
    intros client.
    apply method_seq;
      [eapply method_any; apply method_set_attr; intros; split; reflexivity|].
    intros _.
    do 6 (apply method_seq;
          [apply method_perform; intros o; apply control_vendor; reflexivity|];
          intros _).
    apply method_seq;
      [eapply method_any; apply method_set_attr; intros; split; reflexivity|].
    intros _. apply method_logger. exact I.
  - intros a. eexists; reflexivity.
  - intros e. apply method_then.
    + apply method_logger. eexists; reflexivity.
    + intros _. apply send_error_method. intros o. apply control_error.
Qed.

Lemma partial_segments_method message :
  method self Speechmatics ws
         (segment_write SpeechmaticsProvider.partial_transcript message ws) returns
         (SpeechmaticsProvider._handle_partial_segments E self message).
Proof.
  unfold SpeechmaticsProvider._handle_partial_segments. apply method_try.
  - apply method_bind_lift; [intros; exact I|]. intros segments Hseg.
    apply method_bind_lift; [intros; exact I|]. intros l Hl.
    apply method_for_each. intros segment Hin.
    apply method_bind_lift; [intros; exact I|]. intros t Ht.
    apply method_bind_attr. intros a _ Hs. rewrite Hs.
    apply method_seq; [|intros _; apply method_ret; exact I].
    apply method_perform. intros o. exists segments, l, segment, t. auto.
  - intros a. eexists; reflexivity.
  - intros e. apply method_logger. eexists; reflexivity.
Qed.

Lemma final_segments_method message :
  method self Speechmatics ws
         (segment_write SpeechmaticsProvider.final_transcript message ws) returns
         (SpeechmaticsProvider._handle_final_segments E self message).
Proof.
  unfold SpeechmaticsProvider._handle_final_segments. apply method_try.
  - apply method_seq; [apply method_logger; exact I|]. intros _.
    apply method_bind_lift; [intros; exact I|]. intros segments Hseg.
    apply method_bind_lift; [intros; exact I|]. intros l Hl.
    apply method_seq; [apply method_logger; exact I|]. intros _.
    apply method_for_each. intros segment Hin.
    apply method_seq; [apply method_logger; exact I|]. intros _.
    apply method_bind_lift; [intros; exact I|]. intros t Ht.
    apply method_bind_attr. intros a _ Hs. rewrite Hs.
    apply method_seq; [|intros _; apply method_logger; exact I].
    apply method_perform. intros o. exists segments, l, segment, t. auto.
  - intros a. eexists; reflexivity.
  - intros e. apply method_logger. eexists; reflexivity.
Qed.

Lemma lifecycle_method (event : list (string * value)) kind rest :
  event = ("provider", VStr (provider_name Speechmatics))
          :: ("event", VStr kind) :: rest ->
  dict_lookup rest "transcript" = None ->
  method self Speechmatics ws (lifecycle_write ws) any_outcome
    (ws' <- attr self websocket ;;
     perform E (SendText ws' (VDict event)) ;; ret tt).
Proof.
  intros -> Hrest. apply method_bind_attr. intros a _ Hs. rewrite Hs.
  apply method_seq; [|intros _; apply method_ret; exact I].
  apply method_perform. intros o. exists kind, rest. auto.
Qed.

Lemma handler_method k message :
  method self Speechmatics ws (handler_call k message ws) returns
         (SpeechmaticsProvider.handler E self k message).
Proof.
  destruct k; cbn [SpeechmaticsProvider.handler handler_call].
  - apply partial_segments_method.
  - apply final_segments_method.
  - unfold SpeechmaticsProvider._handle_speech_started. apply method_try.
    + apply method_bind_lift; [intros; exact I|]. intros status _.
      eapply lifecycle_method; reflexivity.
    + intros a. eexists; reflexivity.
    + intros e. apply method_logger. eexists; reflexivity.
  - unfold SpeechmaticsProvider._handle_speech_ended. apply method_try.
    + apply method_bind_lift; [intros; exact I|]. intros status _.
      eapply lifecycle_method; reflexivity.
    + intros a. eexists; reflexivity.
    + intros e. apply method_logger. eexists; reflexivity.
  - unfold SpeechmaticsProvider._handle_end_of_turn. apply method_try.
    + eapply lifecycle_method; reflexivity.
    + intros a. eexists; reflexivity.
    + intros e. apply method_logger. eexists; reflexivity.
Qed.

End Methods.
End AdapterFacts.

(* ===================================================================== *)
(** * The translation rules, as functions *)
(* ===================================================================== *)

Module TranslationFacts.
Import Py Runtime BaseSTTProvider Spec Translation PyFacts.

Lemma rbind_inr {A B} (r : res A) (k : A -> res B) b :
  rbind r k = inr b -> exists a, r = inr a /\ k a = inr b.
Proof. destruct r as [e|a]; cbn; [discriminate | eauto]. Qed.

Ltac unbind H :=
  repeat match type of H with
         | rbind _ _ = inr _ =>
             let a := fresh "x" in let Ha := fresh "H" a in
             apply rbind_inr in H as (a & Ha & H)
         end.

Lemma with_speaker_other inner speaker k :
  String.eqb k "speaker" = false ->
  dict_lookup (SpeechmaticsProvider.with_speaker inner speaker) k
  = dict_lookup inner k.
Proof.
  intros Hk. destruct speaker as [sp|]; cbn; [|reflexivity].
  rewrite dict_lookup_set, Hk. reflexivity.
Qed.

Lemma with_speaker_speaker inner speaker :
  dict_lookup inner "speaker" = None ->
  dict_lookup (SpeechmaticsProvider.with_speaker inner speaker) "speaker" = speaker.
Proof.
  intros Hn. destruct speaker as [sp|]; cbn; [|exact Hn].
  rewrite dict_lookup_set. reflexivity.
Qed.

(** The message [partial_transcript] builds. *)
Lemma partial_transcript_fields segment t :
  SpeechmaticsProvider.partial_transcript segment = inr t ->
  exists inner text start_time end_time start_ms end_ms speaker,
    t = VDict [("provider", VStr "speechmatics"); ("transcript", VDict inner)] /\
    get segment "text" (VStr EmptyString) = inr text /\
    get segment "start_time" (VInt 0) = inr start_time /\
    get segment "end_time" (VInt 0) = inr end_time /\
    mul start_time (VInt 1000) = inr start_ms /\
    mul end_time (VInt 1000) = inr end_ms /\
    SpeechmaticsProvider.segment_speaker segment = inr speaker /\
    dict_lookup inner "text" = Some text /\
    dict_lookup inner "is_final" = Some (VBool false) /\
    dict_lookup inner "start_ms" = Some start_ms /\
    dict_lookup inner "end_ms" = Some end_ms /\
    dict_lookup inner "confidence" = None /\
    dict_lookup inner "speaker" = speaker.
Proof.
  unfold SpeechmaticsProvider.partial_transcript. intros H. unbind H.
  injection H as <-.
  eexists _, x, x0, x2, x1, x3, x4.
  repeat (split; [first [reflexivity | eassumption
                        | rewrite with_speaker_other by reflexivity; reflexivity
                        | apply with_speaker_speaker; reflexivity]|]).
  apply with_speaker_speaker; reflexivity.
Qed.

(** The message [final_transcript] builds. *)
Lemma final_transcript_fields segment t :
  SpeechmaticsProvider.final_transcript segment = inr t ->
  exists inner text start_time end_time start_ms end_ms confidence speaker,
    t = VDict [("provider", VStr "speechmatics"); ("transcript", VDict inner)] /\
    get segment "text" (VStr EmptyString) = inr text /\
    get segment "start_time" (VInt 0) = inr start_time /\
    get segment "end_time" (VInt 0) = inr end_time /\
    mul start_time (VInt 1000) = inr start_ms /\
    mul end_time (VInt 1000) = inr end_ms /\
    get segment "confidence" SpeechmaticsProvider.zero_float = inr confidence /\
    SpeechmaticsProvider.segment_speaker segment = inr speaker /\
    dict_lookup inner "text" = Some text /\
    dict_lookup inner "is_final" = Some (VBool true) /\
    dict_lookup inner "start_ms" = Some start_ms /\
    dict_lookup inner "end_ms" = Some end_ms /\
    dict_lookup inner "confidence" = Some confidence /\
    dict_lookup inner "speaker" = speaker.
Proof.
  unfold SpeechmaticsProvider.final_transcript. intros H. unbind H.
  injection H as <-.
  eexists _, x, x0, x2, x1, x3, x4, x5.
  repeat (split; [first [reflexivity | eassumption
                        | rewrite with_speaker_other by reflexivity; reflexivity
                        | apply with_speaker_speaker; reflexivity]|]).
  apply with_speaker_speaker; reflexivity.
Qed.

(** ** Speechmatics speaker tokens *)

Lemma int_of_digit (d : nat) :
  (d < 10)%nat ->
  int_of_str (String (ascii_of_nat (48 + d)) EmptyString) = inr (Z.of_nat d).
Proof.
  intros Hd.
  do 10 (destruct d as [|d]; [vm_compute; reflexivity|]). lia.
Qed.

(** [S<digit>] becomes the 0-based number. *)
Lemma segment_speaker_token fields (d : nat) :
  (d < 10)%nat ->
  dict_lookup fields "speaker_id" = Some (VStr (speaker_token d)) ->
  SpeechmaticsProvider.segment_speaker (VDict fields)
  = inr (Some (VInt (Z.of_nat d - 1))).
Proof.
  intros Hd Hf. unfold SpeechmaticsProvider.segment_speaker.
  cbn [contains getitem rbind ok]. rewrite Hf. cbn [rbind ok].
  assert (Hst : startswith (speaker_token d) "S" = true) by reflexivity.
  assert (Hsl : slice_from_1 (speaker_token d)
                = String (ascii_of_nat (48 + d)) EmptyString) by reflexivity.
  rewrite Hst, Hsl, (int_of_digit d Hd). reflexivity.
Qed.

(** A speaker that is not [None] and not a string starting with [S] is
    passed through. *)
Lemma segment_speaker_other fields v :
  dict_lookup fields "speaker_id" = Some v ->
  v <> VNone ->
  (forall s, v = VStr s -> startswith s "S" = false) ->
  SpeechmaticsProvider.segment_speaker (VDict fields) = inr (Some v).
Proof.
  intros Hf Hn Hs. unfold SpeechmaticsProvider.segment_speaker.
  cbn [contains getitem rbind ok]. rewrite Hf. cbn [rbind ok].
  destruct v as [|b|z|f|s|l|d]; try reflexivity; [congruence|].
  rewrite (Hs s eq_refl). reflexivity.
Qed.

(** A string that starts with [S] and does not go on as a number raises
    out of the segment's translation. *)
Lemma segment_speaker_label fields s e :
  dict_lookup fields "speaker_id" = Some (VStr s) ->
  startswith s "S" = true ->
  int_of_str (slice_from_1 s) = inl e ->
  SpeechmaticsProvider.segment_speaker (VDict fields) = inl e.
Proof.
  intros Hf Hs He. unfold SpeechmaticsProvider.segment_speaker.
  cbn [contains getitem rbind ok]. rewrite Hf. cbn [rbind ok].
  rewrite Hs, He. reflexivity.
Qed.

(** ** Deepgram *)

Lemma tagged_speakers_dicts ws :
  Forall (fun w => is_dict w = true) ws ->
  DeepgramProvider.tagged_speakers ws = inr (omap (fun w => field w "speaker") ws).
Proof.
  induction 1 as [|w ws Hw _ IH]; [reflexivity|].
  destruct w as [|b|z|f|s|l|d]; try discriminate.
  cbn [DeepgramProvider.tagged_speakers contains rbind ok omap list_omap field].
  destruct (dict_lookup d "speaker") as [sp|] eqn:Hsp.
  - cbn. rewrite Hsp, IH. reflexivity.
  - exact IH.
Qed.

Lemma utterance_speaker_rule alternative sp :
  DeepgramProvider.utterance_speaker alternative = inr sp ->
  speaker_rule alternative sp.
Proof.
  unfold DeepgramProvider.utterance_speaker, speaker_rule. intros H.
  apply rbind_inr in H as (has_speaker & Hhas & H).
  destruct alternative as [|b|z|f|s|l|d]; try discriminate.
  - (* a string: it has no fields and cannot be indexed by a name *)
    cbn [field]. cbn in Hhas. injection Hhas as <-.
    destruct (is_substring "speaker" s); cbn in H; [discriminate|].
    destruct (is_substring "words" s); cbn in H; [discriminate|].
    unfold ok in H. congruence.
  - (* a list: likewise *)
    cbn [field]. cbn in Hhas. injection Hhas as <-.
    destruct (existsb _ l); cbn in H; [discriminate|].
    destruct (existsb _ l); cbn in H; [discriminate|].
    unfold ok in H. congruence.
  - cbn [field]. cbn in Hhas. injection Hhas as <-.
    destruct (dict_lookup d "speaker") as [s|] eqn:Hs.
    + cbn in H. rewrite Hs in H. cbn in H. unfold ok in H. congruence.
    + cbn [contains getitem rbind ok] in H.
      destruct (dict_lookup d "words") as [words|] eqn:Hw;
        cbn [rbind ok andb] in H; [|unfold ok in H; congruence].
      intros ws -> Hdicts. cbn [truthy] in H.
      destruct ws as [|w0 ws']; [cbn in *; unfold ok in H; congruence|].
      cbn [iter rbind ok] in H.
      rewrite (tagged_speakers_dicts _ Hdicts) in H. cbn [rbind] in H.
      destruct (omap _ (w0 :: ws')) as [|tag tags] eqn:Htags;
        [unfold ok in H; congruence|].
      apply rbind_inr in H as (v & Hv & H). injection H as <-.
      exists v. split; [reflexivity|]. apply most_common_elem_spec. exact Hv.
Qed.

(** The message [transcript_message] builds. *)
Lemma transcript_message_fields data alternative text t :
  DeepgramProvider.transcript_message data alternative text = inr t ->
  exists inner is_final start duration start_ms duration_ms end_ms confidence speaker,
    t = VDict [("provider", VStr "deepgram"); ("transcript", VDict inner)] /\
    get data "is_final" (VBool false) = inr is_final /\
    get data "start" (VInt 0) = inr start /\
    get data "duration" (VInt 0) = inr duration /\
    mul start (VInt 1000) = inr start_ms /\
    mul duration (VInt 1000) = inr duration_ms /\
    add start_ms duration_ms = inr end_ms /\
    get alternative "confidence" DeepgramProvider.zero_float = inr confidence /\
    DeepgramProvider.utterance_speaker alternative = inr speaker /\
    dict_lookup inner "text" = Some text /\
    dict_lookup inner "is_final" = Some is_final /\
    dict_lookup inner "start_ms" = Some start_ms /\
    dict_lookup inner "end_ms" = Some end_ms /\
    dict_lookup inner "confidence" = Some confidence /\
    dict_lookup inner "speaker" = speaker.
Proof.
  unfold DeepgramProvider.transcript_message. intros H.
  apply rbind_inr in H as (is_final & Hfin & H).
  destruct data as [|b|z|f|s|l|d]; try discriminate.
  cbn [contains rbind ok] in H.
  apply rbind_inr in H as (start_ms & Hstart & H).
  apply rbind_inr in H as (duration_ms & Hdur & H).
  unbind H. injection H as <-.
  assert (Hconv : forall k v_ms,
            (if match dict_lookup d k with Some _ => true | None => false end
             then rbind (get (VDict d) k (VInt 0)) (fun s => mul s (VInt 1000))
             else ok (VInt 0)) = inr v_ms ->
            exists v, get (VDict d) k (VInt 0) = inr v /\ mul v (VInt 1000) = inr v_ms).
  { intros k v_ms. cbn [get]. destruct (dict_lookup d k) as [v|]; cbn; intros Hm.
    - exists v. split; [reflexivity | exact Hm].
    - exists (VInt 0). split; [reflexivity|]. injection Hm as <-. reflexivity. }
  destruct (Hconv _ _ Hstart) as (start & Hs1 & Hs2).
  destruct (Hconv _ _ Hdur) as (duration & Hd1 & Hd2).
  eexists _, is_final, start, duration, start_ms, duration_ms, x, x0, x1.
  repeat (split; [first [reflexivity | eassumption]|]).
  destruct x1; repeat split; reflexivity.
Qed.

(** What [transcription_result] returns is [transcript_message] of the
    first alternative, whose text is not empty. *)
Lemma transcription_result_message data t :
  DeepgramProvider.transcription_result data = inr (Some t) ->
  exists alternative text,
    first_alternative data = inr alternative /\
    get alternative "transcript" (VStr EmptyString) = inr text /\
    truthy text = true /\
    DeepgramProvider.transcript_message data alternative text = inr t.
Proof.
  unfold DeepgramProvider.transcription_result, first_alternative. intros H.
  apply rbind_inr in H as (channel & Hch & H).
  apply rbind_inr in H as (alternatives & Halt & H).
  rewrite Hch. cbn [rbind]. rewrite Halt. cbn [rbind].
  destruct (truthy alternatives); [|discriminate].
  apply rbind_inr in H as (alternative & Ha & H).
  apply rbind_inr in H as (text & Htext & H).
  destruct (truthy text) eqn:Htruthy; [|discriminate].
  apply rbind_inr in H as (t' & Ht & H). injection H as <-.
  exists alternative, text. auto.
Qed.

End TranslationFacts.

(* ===================================================================== *)
(** * [connect], call by call *)
(* ===================================================================== *)

Module ConnectFacts.
Import Py Runtime BaseSTTProvider Spec Writes Outcomes Logic.
Local Open Scope coro_scope.

(** Destructs the outcome of the next external call. *)
Ltac next_call :=
  match goal with
  | |- context [respond ?E ?t ?c] =>
      let e := fresh "e" in let s := fresh "s" in let H := fresh "Hcall" in
      destruct (respond E t c) as [e|s] eqn:H
  end.

(** Runs the monad as far as it goes; [Ha] is the lookup of [self]. *)
Ltac run_with Ha :=
  repeat (first
    [ progress unfold bind, try_except, ret, raise, lift, attr, set_attr, logger,
        create_task, perform, construct, get_provider_name, send_error_to_client,
        send_result_to_client
    | progress cbn [fst snd trace objects active_connections tasks log
                    with_trace with_objects with_connections with_tasks with_log
                    cls api_key config websocket is_connected provider_websocket
                    voice_client set_is_connected set_provider_websocket
                    set_voice_client dict_set String.eqb Ascii.eqb Bool.eqb
                    provider_name]
    | rewrite Ha
    | rewrite list_lookup_insert_eq
        by (rewrite ?length_insert; eapply lookup_lt_Some; eassumption) ]).

Lemma frame_insert self (w w' : world) (a : adapter) :
  objects w' = <[self := a]> (objects w) ->
  active_connections w' = active_connections w ->
  frame self w w'.
Proof.
  intros Ho Hc. repeat split; [exact Hc | |].
  - rewrite Ho. apply length_insert.
  - intros j Hj. rewrite Ho. apply list_lookup_insert_ne. congruence.
Qed.

Lemma frame_insert2 self (w w' : world) (a b : adapter) :
  objects w' = <[self := a]> (<[self := b]> (objects w)) ->
  active_connections w' = active_connections w ->
  frame self w w'.
Proof.
  intros Ho Hc. repeat split; [exact Hc | |].
  - rewrite Ho, !length_insert. reflexivity.
  - intros j Hj. rewrite Ho, !list_lookup_insert_ne by congruence. reflexivity.
Qed.

Lemma frame_same self (w w' : world) :
  objects w' = objects w -> active_connections w' = active_connections w ->
  frame self w w'.
Proof. intros Ho Hc. repeat split; [exact Hc | |]; rewrite Ho; reflexivity. Qed.

Lemma grows_nil (w : world) (t : list event) : t = trace w -> t = [] ++ trace w.
Proof. intros ->. reflexivity. Qed.

Lemma grows_cons (ev : event) (t t0 new : list event) :
  t = new ++ t0 -> ev :: t = (ev :: new) ++ t0.
Proof. intros ->. reflexivity. Qed.

(** Finds what a concrete history added. *)
Ltac grows :=
  unfold history_grows; cbn [trace with_trace with_objects with_connections
                             with_tasks with_log];
  repeat (first [apply grows_nil; reflexivity | apply grows_cons]).

(** Closes the branch of [connect] that ended in the [except]: the
    error event is the newest call. *)
Ltac failed_branch Ha e :=
  eexists; split; [reflexivity|];
  eexists _, _;
  split; [cbn; first [exact Ha
                     | rewrite list_lookup_insert_eq
                         by (eapply lookup_lt_Some; eassumption); reflexivity]|];
  split; [first [apply frame_same; reflexivity
                | eapply frame_insert; reflexivity]|];
  split; [first [assumption | reflexivity]|];
  split; [reflexivity|];
  split; [grows|];
  right; split; [reflexivity|];
  exists e; eexists _, _; split; [reflexivity|];
  split; [repeat constructor|];
  intros call e' Hin; cbn in Hin;
  repeat match goal with
         | H : _ \/ _ |- _ => destruct H
         | H : False |- _ => destruct H
         | H : (_, _) = (_, _) |- _ => injection H as ? ?; try discriminate
         end; congruence.

Lemma deepgram_connect_run (E : Env) (w : world) (self : nat) (a : adapter) :
  objects w !! self = Some a -> cls a = Deepgram ->
  exists w', DeepgramProvider.connect E self w = (w', inr tt) /\
             connect_post Deepgram self a w w'.
Proof.
  intros Ha Hc. unfold DeepgramProvider.connect. run_with Ha.
  destruct (DeepgramProvider.connection_params E (config a)) as [e|params] eqn:Hp;
    run_with Ha.
  { rewrite Hc. run_with Ha. next_call; run_with Ha; failed_branch Ha e. }
  next_call; run_with Ha.
  { rewrite Hc. run_with Ha. next_call; run_with Ha; failed_branch Ha e. }
  eexists; split; [reflexivity|].
  eexists _, _.
  split; [cbn; rewrite list_lookup_insert_eq
                 by (rewrite length_insert; eapply lookup_lt_Some; eassumption);
          reflexivity|].
  split; [eapply frame_insert2; reflexivity|].
  split; [exact Hc|]. split; [reflexivity|].
  split; [grows|].
  left. split; [reflexivity|].
  repeat constructor. eexists; reflexivity.
Qed.

(** Closes the branch where every call returned. *)
Ltac connected_branch Hc :=
  eexists; split; [reflexivity|];
  eexists _, _;
  split; [cbn; rewrite list_lookup_insert_eq
                 by (rewrite ?length_insert; eapply lookup_lt_Some; eassumption);
          reflexivity|];
  split; [first [eapply frame_insert2; reflexivity
                | eapply frame_insert; reflexivity]|];
  split; [exact Hc|]; split; [reflexivity|];
  split; [grows|];
  left; split; [reflexivity|];
  repeat constructor; eexists; reflexivity.

(** A failure sends the run into the [except]. *)
Ltac fail_here Ha Hc e :=
  rewrite ?Hc; run_with Ha; rewrite ?Hc; run_with Ha;
  next_call; run_with Ha; failed_branch Ha e.

Lemma speechmatics_connect_run (E : Env) (w : world) (self : nat) (a : adapter) :
  objects w !! self = Some a -> cls a = Speechmatics ->
  exists w', SpeechmaticsProvider.connect E self w = (w', inr tt) /\
             connect_post Speechmatics self a w w'.
Proof.
  intros Ha Hc. unfold SpeechmaticsProvider.connect. run_with Ha.
  assert (Hlt : (self < length (objects w))%nat) by (eapply lookup_lt_Some; eauto).
  destruct (get (config a) "enableDiarization" (VBool false)) as [e|dia] eqn:Hd;
    run_with Ha; [fail_here Ha Hc e|].
  destruct (SpeechmaticsProvider.voice_agent_config E (config a)) as [e|args] eqn:Hargs;
    run_with Ha; [fail_here Ha Hc e|].
  next_call; run_with Ha; [fail_here Ha Hc e|].
  destruct (truthy dia); run_with Ha.
  - destruct (SpeechmaticsProvider.diarization_attrs (config a)) as [e|attrs] eqn:Hattrs;
      run_with Ha; [fail_here Ha Hc e|].
    next_call; run_with Ha; [fail_here Ha Hc e|].
    next_call; run_with Ha; [fail_here Ha Hc e|].
    do 6 (next_call; run_with Ha; [fail_here Ha Hc e|]).
    connected_branch Hc.
  - next_call; run_with Ha; [fail_here Ha Hc e|].
    do 6 (next_call; run_with Ha; [fail_here Ha Hc e|]).
    connected_branch Hc.
Qed.

(** ** [disconnect] and [send_audio], path by path *)

Ltac run_socket Ha :=
  repeat (first
    [ progress unfold on_socket, socket_close, mark_closed
    | progress run_with Ha
    | progress cbn [option_map vs_id vs_closed] ]).

(** [disconnect] writes exactly one log line, and it is its own. *)
Lemma deepgram_disconnect_log (E : Env) (w : world) (self : nat) (a : adapter) :
  objects w !! self = Some a ->
  exists line,
    log (fst (DeepgramProvider.disconnect E self w)) = line :: log w /\
    disconnect_line Deepgram line.
Proof.
  intros Ha. unfold DeepgramProvider.disconnect. run_socket Ha.
  assert (Hinfo : disconnect_line Deepgram (INFO, "Disconnected from Deepgram"))
    by (left; reflexivity).
  assert (Herr : forall e, disconnect_line Deepgram
            (ERROR, ("Error disconnecting from Deepgram: " ++ exn_str e)%string))
    by (intros e; right; exists e; reflexivity).
  destruct (provider_websocket a) as [s|] eqn:Hpw; run_socket Ha;
    [|eexists; split; [reflexivity | exact Hinfo]].
  destruct (vs_closed s) eqn:Hclosed; cbn [negb]; run_socket Ha;
    [eexists; split; [reflexivity | exact Hinfo]|].
  next_call; run_socket Ha.
  - destruct (bool_decide (exn_cls e = ConnectionClosed)); run_socket Ha;
      eexists; (split; [reflexivity | apply Herr]).
  - next_call; run_socket Ha; eexists;
      (split; [reflexivity | first [apply Herr | exact Hinfo]]).
Qed.

Lemma speechmatics_disconnect_log (E : Env) (w : world) (self : nat) (a : adapter) :
  objects w !! self = Some a ->
  exists line,
    log (fst (SpeechmaticsProvider.disconnect E self w)) = line :: log w /\
    disconnect_line Speechmatics line.
Proof.
  intros Ha. unfold SpeechmaticsProvider.disconnect. run_socket Ha.
  assert (Hinfo : disconnect_line Speechmatics (INFO, "Disconnected from Speechmatics"))
    by (left; reflexivity).
  assert (Herr : forall e, disconnect_line Speechmatics
            (ERROR, ("Error disconnecting from Speechmatics: " ++ exn_str e)%string))
    by (intros e; right; exists e; reflexivity).
  destruct (voice_client a) as [c|] eqn:Hvc; run_socket Ha;
    [|eexists; split; [reflexivity | exact Hinfo]].
  next_call; run_socket Ha; eexists;
    (split; [reflexivity | first [apply Herr | exact Hinfo]]).
Qed.

(** Outside the state [Connected], [send_audio] does nothing at all. *)
Lemma deepgram_send_audio_idle (E : Env) (w : world) (self : nat) (a : adapter)
    (audio_data : bytes) :
  objects w !! self = Some a -> cls a = Deepgram ->
  in_connected_state a = false ->
  DeepgramProvider.send_audio E self audio_data w = (w, inr tt).
Proof.
  intros Ha Hc Hidle. unfold in_connected_state in Hidle. rewrite Hc in Hidle.
  unfold DeepgramProvider.send_audio. run_socket Ha.
  destruct (provider_websocket a) as [s|]; [|reflexivity].
  destruct (is_connected a); [discriminate | reflexivity].
Qed.

Lemma speechmatics_send_audio_idle (E : Env) (w : world) (self : nat) (a : adapter)
    (audio_data : bytes) :
  objects w !! self = Some a -> cls a = Speechmatics ->
  in_connected_state a = false ->
  SpeechmaticsProvider.send_audio E self audio_data w = (w, inr tt).
Proof.
  intros Ha Hc Hidle. unfold in_connected_state in Hidle. rewrite Hc in Hidle.
  unfold SpeechmaticsProvider.send_audio. run_socket Ha.
  destruct (voice_client a) as [c|]; [|reflexivity].
  destruct (is_connected a); [discriminate | reflexivity].
Qed.

Lemma set_is_connected_same (a : adapter) :
  is_connected a = false -> set_is_connected false a = a.
Proof. destruct a; cbn. intros ->. reflexivity. Qed.

(** [disconnect] on a Deepgram adapter that is already disconnected
    touches nothing but the log. *)
Lemma deepgram_disconnect_idle (E : Env) (w : world) (self : nat) (a : adapter) :
  objects w !! self = Some a ->
  deepgram_disconnected a = true ->
  DeepgramProvider.disconnect E self w
  = (with_log ((INFO, "Disconnected from Deepgram") :: log w) w, inr tt).
Proof.
  intros Ha Hd. unfold deepgram_disconnected in Hd.
  apply andb_prop in Hd as (Hflag & Hclosed).
  apply negb_true_iff in Hflag.
  assert (Hsame : <[self := set_is_connected false a]> (objects w) = objects w).
  { rewrite (set_is_connected_same a Hflag). apply list_insert_id. exact Ha. }
  unfold DeepgramProvider.disconnect. run_socket Ha.
  destruct (provider_websocket a) as [s|].
  - rewrite Hclosed. cbn [negb]. run_socket Ha. rewrite Hsame.
    destruct w; reflexivity.
  - run_socket Ha. rewrite Hsame. destruct w; reflexivity.
Qed.

(** A [disconnect] whose handshake goes through sends the close frame,
    closes the channel and leaves the adapter disconnected. *)
Lemma deepgram_disconnect_open (E : Env) (w : world) (self : nat) (a : adapter)
    (s : vendor_socket) (r1 r2 : string) :
  objects w !! self = Some a ->
  provider_websocket a = Some s -> vs_closed s = false ->
  respond E (trace w) (WsSendText (vs_id s) close_stream) = inr r1 ->
  respond E ((WsSendText (vs_id s) close_stream, inr r1) :: trace w)
          (WsClose (vs_id s)) = inr r2 ->
  exists w' a',
    DeepgramProvider.disconnect E self w = (w', inr tt) /\
    trace w' = (WsClose (vs_id s), inr r2)
               :: (WsSendText (vs_id s) close_stream, inr r1) :: trace w /\
    objects w' !! self = Some a' /\
    deepgram_disconnected a' = true.
Proof.
  intros Ha Hpw Hopen H1 H2. unfold close_stream in *.
  unfold DeepgramProvider.disconnect. run_socket Ha.
  rewrite Hpw, Hopen. cbn [negb]. run_socket Ha.
  rewrite H1. run_socket Ha.
  next_call.
  { exfalso. assert (X : @inl exn string e = inr r2)
      by (rewrite <- Hcall; exact H2). discriminate. }
  assert (X : @inr exn string s0 = inr r2) by (rewrite <- Hcall; exact H2).
  injection X as ->. run_socket Ha.
  rewrite Hpw. cbn [option_map]. run_socket Ha.
  eexists _, _. split; [reflexivity|]. cbn.
  split; [reflexivity|].
  split; [rewrite list_lookup_insert_eq
            by (rewrite length_insert; eapply lookup_lt_Some; eauto);
          reflexivity|].
  reflexivity.
Qed.

(** [disconnect] on a Speechmatics adapter that holds an SDK client
    calls the client's [close] first, whatever the state it is in. *)
Lemma speechmatics_disconnect_closes (E : Env) (w : world) (self : nat)
    (a : adapter) (c : nat) :
  objects w !! self = Some a ->
  voice_client a = Some c ->
  exists o, trace (fst (SpeechmaticsProvider.disconnect E self w))
            = (VoiceClose c, o) :: trace w.
Proof.
  intros Ha Hvc. unfold SpeechmaticsProvider.disconnect. run_socket Ha.
  rewrite Hvc. run_socket Ha.
  next_call; run_socket Ha; eexists; reflexivity.
Qed.

(** ** [send_audio] on a connected adapter *)

Lemma deepgram_send_audio_run (E : Env) (w : world) (self : nat) (a : adapter)
    (s : vendor_socket) (audio_data : bytes) :
  objects w !! self = Some a -> cls a = Deepgram ->
  provider_websocket a = Some s -> is_connected a = true ->
  snd (DeepgramProvider.send_audio E self audio_data w) = inr tt /\
  exists new,
    history_grows w (fst (DeepgramProvider.send_audio E self audio_data w)) new /\
    send_history Deepgram (websocket a) (WsSendBytes (vs_id s) audio_data) new.
Proof.
  intros Ha Hc Hpw Hi. unfold DeepgramProvider.send_audio. run_socket Ha.
  rewrite Hpw, Hi. run_socket Ha.
  next_call; run_socket Ha.
  - destruct (bool_decide (exn_cls e = ConnectionClosed)); run_socket Ha;
      rewrite ?Hpw; cbn [option_map]; run_socket Ha; rewrite Hc; run_socket Ha;
      next_call; run_socket Ha;
      (split; [reflexivity|]);
      (eexists; split; [grows|]);
      right; eexists _, _; reflexivity.
  - split; [reflexivity|]. eexists. split; [grows|]. left. eexists. reflexivity.
Qed.

Lemma speechmatics_send_audio_run (E : Env) (w : world) (self : nat) (a : adapter)
    (c : nat) (audio_data : bytes) :
  objects w !! self = Some a -> cls a = Speechmatics ->
  voice_client a = Some c -> is_connected a = true ->
  snd (SpeechmaticsProvider.send_audio E self audio_data w) = inr tt /\
  exists new,
    history_grows w (fst (SpeechmaticsProvider.send_audio E self audio_data w)) new /\
    send_history Speechmatics (websocket a) (VoiceSendAudio c audio_data) new.
Proof.
  intros Ha Hc Hvc Hi. unfold SpeechmaticsProvider.send_audio. run_socket Ha.
  rewrite Hvc, Hi. run_socket Ha.
  next_call; run_socket Ha.
  - rewrite Hc. run_socket Ha.
    next_call; run_socket Ha;
      (split; [reflexivity|]);
      (eexists; split; [grows|]);
      right; eexists _, _; reflexivity.
  - split; [reflexivity|]. eexists. split; [grows|]. left. eexists. reflexivity.
Qed.

End ConnectFacts.

(* ===================================================================== *)
(** * The coordinator, block by block *)
(* ===================================================================== *)

Module ManagerFacts.
Import Py Runtime BaseSTTProvider Spec Writes Outcomes Logic ConnectFacts.
Local Open Scope coro_scope.

Section Manager.
Context (E : Env).

Lemma provider_connect_run (w : world) (self : nat) (a : adapter) :
  objects w !! self = Some a ->
  exists w', ConnectionManager.provider_connect E self w = (w', inr tt) /\
             connect_post (cls a) self a w w'.
Proof.
  intros Ha. unfold ConnectionManager.provider_connect, bind, attr. rewrite Ha.
  destruct (cls a) eqn:Hc.
  - apply speechmatics_connect_run; assumption.
  - apply deepgram_connect_run; assumption.
Qed.

(** A method of the last object leaves the earlier objects as they are. *)
Lemma frame_last (w w' : world) (l : list adapter) (a0 a' : adapter) :
  objects w = l ++ [a0] ->
  frame (length l) w w' ->
  objects w' !! length l = Some a' ->
  objects w' = l ++ [a'].
Proof.
  intros Ho (_ & Hlen & Hother) Ha'.
  apply list_eq. intros j.
  destruct (decide (j = length l)) as [->|Hj].
  - rewrite Ha'. rewrite lookup_app_r by lia. rewrite Nat.sub_diag. reflexivity.
  - rewrite (Hother j Hj), Ho.
    destruct (decide (j < length l)%nat) as [Hlt|Hge].
    + rewrite !lookup_app_l by lia. reflexivity.
    + rewrite !lookup_ge_None_2; [reflexivity | |];
        rewrite length_app; cbn; lia.
Qed.

Lemma has_api_key_true config p :
  has_api_key config p = true ->
  exists d e k,
    config = VDict d /\ dict_lookup d (provider_name p) = Some (VDict e) /\
    dict_lookup e "apiKey" = Some k /\ truthy k = true.
Proof.
  unfold has_api_key. destruct config as [|b|z|f|s|l|d]; try discriminate.
  destruct (dict_lookup d (provider_name p)) as [[|b|z|f|s|l|e]|] eqn:Hd;
    try discriminate.
  destruct (dict_lookup e "apiKey") as [k|] eqn:Hk; try discriminate.
  intros Ht. exists d, e, k. auto.
Qed.

Lemma initialize_one_with_key ws p config sample_rate w cd :
  has_api_key config p = true ->
  active_connections w !! ws = Some cd ->
  exists w', ConnectionManager.initialize_one E ws p config sample_rate w
             = (w', inr tt) /\
             block_post config ws p w w'.
Proof.
  intros Hkey Hcd. unfold block_post. rewrite Hkey.
  destruct (has_api_key_true _ _ Hkey) as (d & e & k & -> & Hd & Hk & Ht).
  unfold ConnectionManager.initialize_one.
  unfold bind at 1. unfold lift at 1. cbn [get]. rewrite Hd. cbn [ok].
  set (w0 := fst ((match p with
                   | Speechmatics =>
                       logger INFO ("[CONFIG] Extracted Speechmatics config: "
                                    ++ str E (VDict e))
                   | Deepgram => ret tt
                   end) w)).
  assert (Hw0 : (match p with
                 | Speechmatics =>
                     logger INFO ("[CONFIG] Extracted Speechmatics config: "
                                  ++ str E (VDict e))
                 | Deepgram => ret tt
                 end) w = (w0, inr tt)) by (destruct p; reflexivity).
  assert (Hsame : trace w0 = trace w /\ objects w0 = objects w /\
                  active_connections w0 = active_connections w)
    by (destruct p; repeat split; reflexivity).
  destruct Hsame as (Ht0 & Ho0 & Hc0).
  unfold bind at 1. rewrite Hw0.
  unfold bind at 1. unfold lift at 1. unfold get1. cbn [get]. rewrite Hk. cbn [ok].
  rewrite Ht.
  unfold bind at 1. unfold lift at 1. cbn [ok].
  unfold bind at 1. unfold lift at 1. cbn [getitem]. rewrite Hk. cbn [ok].
  unfold bind at 1. unfold new_object at 1.
  set (a0 := init p k (VDict (dict_set e "sampleRate" sample_rate)) ws).
  set (w1 := with_objects (objects w0 ++ [a0]) w0).
  assert (Ha0 : objects w1 !! length (objects w0) = Some a0).
  { cbn. rewrite lookup_app_r by lia. rewrite Nat.sub_diag. reflexivity. }
  destruct (provider_connect_run w1 _ a0 Ha0)
    as (w2 & Hrun & a' & new & Ha' & Hframe & Hcls & Hws & Hgrow & Hhist).
  unfold bind at 1. rewrite Hrun.
  unfold ConnectionManager.update_connection.
  pose proof Hframe as (Hconn & _ & _). rewrite Hconn. cbn [active_connections w1 with_objects].
  rewrite Hc0, Hcd.
  eexists. split; [reflexivity|].
  exists a', cd, new. cbn.
  split; [rewrite <- Ho0; exact (frame_last w1 w2 (objects w0) a0 a' eq_refl Hframe Ha')|].
  split; [exact Hcls|]. split; [rewrite Hws; reflexivity|].
  split; [first [exact Hcd | reflexivity]|].
  split; [rewrite ?Hconn; cbn; rewrite ?Hc0, ?Ho0; reflexivity|].
  split; [unfold history_grows in *; cbn; rewrite Hgrow; cbn; rewrite Ht0; reflexivity|].
  unfold connect_history. unfold a0 in Hhist. cbn in Hhist.
  destruct Hhist as [(Hi & Hf)|(Hi & Hr)]; [left|right]; auto.
Qed.

Lemma initialize_one_without_key ws p d sample_rate w :
  entry_ok d (provider_name p) = true ->
  has_api_key (VDict d) p = false ->
  client_accepts E ws ->
  exists w', ConnectionManager.initialize_one E ws p (VDict d) sample_rate w
             = (w', inr tt) /\
             block_post (VDict d) ws p w w'.
Proof.
  intros Hentry Hkey Hclient. unfold block_post. rewrite Hkey.
  unfold ConnectionManager.initialize_one.
  unfold bind at 1. unfold lift at 1. cbn [get ok].
  assert (Hcfg : exists e,
            match dict_lookup d (provider_name p) with
            | Some v => v
            | None => VDict []
            end = VDict e /\
            match dict_lookup e "apiKey" with
            | Some k => truthy k
            | None => false
            end = false).
  { unfold entry_ok in Hentry. unfold has_api_key in Hkey.
    destruct (dict_lookup d (provider_name p)) as [[|b|z|f|s|l|e]|];
      try discriminate; eauto. }
  destruct Hcfg as (e & -> & Hfalse).
  set (w0 := fst ((match p with
                   | Speechmatics =>
                       logger INFO ("[CONFIG] Extracted Speechmatics config: "
                                    ++ str E (VDict e))
                   | Deepgram => ret tt
                   end) w)).
  assert (Hw0 : (match p with
                 | Speechmatics =>
                     logger INFO ("[CONFIG] Extracted Speechmatics config: "
                                  ++ str E (VDict e))
                 | Deepgram => ret tt
                 end) w = (w0, inr tt)) by (destruct p; reflexivity).
  assert (Hsame : trace w0 = trace w /\ objects w0 = objects w /\
                  active_connections w0 = active_connections w)
    by (destruct p; repeat split; reflexivity).
  destruct Hsame as (Ht0 & Ho0 & Hc0).
  unfold bind at 1. rewrite Hw0.
  unfold bind at 1. unfold lift at 1. unfold get1. cbn [get ok].
  assert (Htruthy : truthy match dict_lookup e "apiKey" with
                           | Some v => v
                           | None => VNone
                           end = false)
    by (destruct (dict_lookup e "apiKey"); [exact Hfalse | reflexivity]).
  rewrite Htruthy.
  unfold bind, perform, ret.
  destruct (Hclient (trace w0) (VDict [("provider", VStr (provider_name p));
                                       ("error", VStr "API key not provided")]))
    as (s & Hs).
  rewrite Hs. eexists. split; [reflexivity|].
  cbn. rewrite Ho0, Hc0, Ht0. repeat split. exists s. reflexivity.
Qed.

(** One block, with or without a key. *)
Lemma initialize_one_run ws p d sample_rate w cd :
  entry_ok d (provider_name p) = true ->
  client_accepts E ws ->
  active_connections w !! ws = Some cd ->
  exists w', ConnectionManager.initialize_one E ws p (VDict d) sample_rate w
             = (w', inr tt) /\
             block_post (VDict d) ws p w w'.
Proof.
  intros Hentry Hclient Hcd.
  destruct (has_api_key (VDict d) p) eqn:Hkey.
  - eapply initialize_one_with_key; eauto.
  - apply initialize_one_without_key; auto.
Qed.

(** The session of [ws] is still there after a block. *)
Lemma block_post_session config ws p w w' cd :
  block_post config ws p w w' ->
  active_connections w !! ws = Some cd ->
  exists cd', active_connections w' !! ws = Some cd'.
Proof.
  unfold block_post. intros Hpost Hcd. destruct (has_api_key config p).
  - destruct Hpost as (a' & cd0 & new & _ & _ & _ & _ & Hc & _).
    rewrite Hc. rewrite lookup_insert_eq. eauto.
  - destruct Hpost as (_ & Hc & _). rewrite Hc. eauto.
Qed.

(** [initialize_providers] on a configuration of the expected shape, for
    a client that takes every message: the two blocks, one after the
    other, and no exception. *)
Lemma initialize_providers_run ws config w cd :
  active_connections w !! ws = Some cd ->
  config_ok config = true ->
  client_accepts E ws ->
  exists w1 w2,
    ConnectionManager.initialize_providers E ws config w = (w2, inr tt) /\
    block_post config ws Speechmatics
      (with_connections
         (<[ws := ConnectionManager.set_cd_config (Some config) cd]>
            (active_connections w)) w) w1 /\
    block_post config ws Deepgram w1 w2.
Proof.
  intros Hcd Hok Hclient.
  destruct config as [|b|z|f|s|l|d]; try discriminate.
  cbn in Hok. apply andb_prop in Hok as (Hok & Hdg).
  apply andb_prop in Hok as (Haudio & Hsm).
  unfold ConnectionManager.initialize_providers.
  unfold bind at 1. rewrite Hcd.
  unfold bind at 1. unfold ConnectionManager.update_connection at 1. rewrite Hcd.
  set (w0 := with_connections _ w).
  assert (Hcd0 : active_connections w0 !! ws
                 = Some (ConnectionManager.set_cd_config (Some (VDict d)) cd))
    by (cbn; apply lookup_insert_eq).
  unfold try_except.
  unfold bind at 1. unfold lift at 1. cbn [get ok].
  assert (Haudio' : exists au,
            match dict_lookup d "audio" with
            | Some v => v
            | None => VDict []
            end = VDict au).
  { unfold entry_ok in Haudio.
    destruct (dict_lookup d "audio") as [[|b|z|f|s|l|au]|]; try discriminate; eauto. }
  destruct Haudio' as (au & ->).
  unfold bind at 1. unfold lift at 1. cbn [get ok].
  set (sample_rate := match dict_lookup au "sampleRate" with
                      | Some v => v
                      | None => VInt 16000
                      end).
  destruct (initialize_one_run ws Speechmatics d sample_rate w0 _ Hsm Hclient Hcd0)
    as (w1 & Hrun1 & Hpost1).
  unfold bind at 1. rewrite Hrun1.
  destruct (block_post_session _ _ _ _ _ _ Hpost1 Hcd0) as (cd1 & Hcd1).
  destruct (initialize_one_run ws Deepgram d sample_rate w1 _ Hdg Hclient Hcd1)
    as (w2 & Hrun2 & Hpost2).
  rewrite Hrun2. exists w1, w2. auto.
Qed.

(** ** What a block adds *)

Lemma added_grows w w' new : history_grows w w' new -> added w w' = new.
Proof.
  unfold history_grows, added. intros ->. rewrite length_app.
  replace (length new + length (trace w) - length (trace w))%nat
    with (length new) by lia.
  apply take_app_length.
Qed.

Lemma client_received_grows ws w w' new :
  history_grows w w' new ->
  client_received ws w' = client_received ws w ++ omap (sent_of ws) (rev new).
Proof.
  unfold history_grows, client_received. intros ->.
  rewrite rev_app_distr. apply omap_app.
Qed.

Lemma key_missing_count_grows p ws w w' new :
  history_grows w w' new ->
  key_missing_count p ws w' = (key_missing_count p ws w + key_missing_among p ws new)%nat.
Proof.
  intros H. unfold key_missing_count, key_missing_among.
  rewrite (client_received_grows _ _ _ _ H), filter_app, length_app. reflexivity.
Qed.

Lemma key_missing_among_app p ws new1 new2 :
  key_missing_among p ws (new2 ++ new1)
  = (key_missing_among p ws new1 + key_missing_among p ws new2)%nat.
Proof.
  unfold key_missing_among.
  rewrite rev_app_distr, omap_app, filter_app, length_app. reflexivity.
Qed.

Lemma key_missing_among_vendor p ws c new :
  Forall (vendor_call c) new -> key_missing_among p ws new = 0%nat.
Proof.
  unfold key_missing_among. intros H.
  replace (omap (sent_of ws) (rev new)) with (@nil value); [reflexivity|].
  symmetry. apply Forall_rev in H.
  induction H as [|[call o] l Hc _ IH]; [reflexivity|].
  cbn. rewrite <- IH. unfold vendor_call in Hc. cbn in Hc.
  destruct call; cbn in Hc; try discriminate; reflexivity.
Qed.

Lemma connect_failed_is_not_key_missing p c msg :
  is_key_missing_event p (error_event c ("Connection failed: " ++ msg)) = false.
Proof.
  unfold is_key_missing_event, error_event. cbn.
  destruct (String.eqb (provider_name c) (provider_name p)); reflexivity.
Qed.

Lemma key_missing_among_connect p ws c flag new :
  connect_history c ws flag new -> key_missing_among p ws new = 0%nat.
Proof.
  intros [(_ & H)|(_ & e & o & rest & -> & Hrest & _)].
  - apply (key_missing_among_vendor p ws c).
    eapply Forall_impl; [exact H|]. intros ev (Hv & _). exact Hv.
  - change (?x :: rest) with ([x] ++ rest).
    rewrite key_missing_among_app, (key_missing_among_vendor p ws c rest Hrest).
    unfold key_missing_among. cbn.
    destruct o as [e'|s]; [reflexivity|].
    destruct (Nat.eqb ws ws); [|reflexivity]. cbn [omap list_omap].
    rewrite filter_cons_False; [reflexivity|].
    rewrite connect_failed_is_not_key_missing. discriminate.
Qed.

Lemma key_missing_event_counts p q :
  is_key_missing_event p (key_missing_event q) = bool_decide (p = q).
Proof. destruct p, q; reflexivity. Qed.

(** The history of one block. *)
Lemma block_post_history config ws p w w' :
  block_post config ws p w w' ->
  exists new,
    history_grows w w' new /\
    Forall (fun ev => forall q, call_provider (fst ev) = Some q ->
                      q = p /\ has_api_key config p = true) new /\
    (forall q, key_missing_among q ws new =
               if has_api_key config p then 0%nat
               else if bool_decide (q = p) then 1%nat else 0%nat) /\
    (has_api_key config p = true ->
     exists a', objects w' !! length (objects w) = Some a' /\
                connect_history p ws (is_connected a') new).
Proof.
  unfold block_post. destruct (has_api_key config p) eqn:Hkey.
  - intros (a' & cd & new & Ho & Hcls & Hws & Hcd & Hc & Hg & Hh).
    exists new. split; [exact Hg|]. split; [|split].
    + destruct Hh as [(_ & H)|(_ & e & o & rest & -> & Hrest & _)].
      * eapply Forall_impl; [exact H|]. intros ev (Hv & _) q Hq.
        split; [congruence | reflexivity].
      * constructor; [intros q Hq; discriminate|].
        eapply Forall_impl; [exact Hrest|]. intros ev Hv q Hq.
        unfold vendor_call in Hv. split; [congruence | reflexivity].
    + intros q. eapply key_missing_among_connect. exact Hh.
    + intros _. exists a'. split; [|exact Hh].
      rewrite Ho, lookup_app_r by lia. rewrite Nat.sub_diag. reflexivity.
  - intros (Ho & Hc & s & Ht).
    exists [(SendText ws (key_missing_event p), inr s)].
    split; [exact Ht|]. split; [|split].
    + constructor; [|constructor]. intros q Hq. discriminate.
    + intros q. unfold key_missing_among. cbn.
      rewrite Nat.eqb_refl. cbn [omap list_omap].
      rewrite filter_cons, key_missing_event_counts.
      destruct (decide (bool_decide (q = p) = true)) as [Hd|Hd].
      * rewrite Hd. reflexivity.
      * apply not_true_is_false in Hd. rewrite Hd. reflexivity.
    + discriminate.
Qed.

(** The session and the objects after one block. *)
Lemma block_post_state config ws p w w' cd :
  block_post config ws p w w' ->
  active_connections w !! ws = Some cd ->
  exists cd' created,
    active_connections w' !! ws = Some cd' /\
    objects w' = objects w ++ created /\
    map cls created = (if has_api_key config p then [p] else []) /\
    Forall (fun a => websocket a = ws) created /\
    (forall q, q <> p ->
               ConnectionManager.cd_provider q cd' = ConnectionManager.cd_provider q cd) /\
    ConnectionManager.cd_provider p cd' =
      (if has_api_key config p then Some (length (objects w))
       else ConnectionManager.cd_provider p cd).
Proof.
  unfold block_post. intros Hpost Hcd. destruct (has_api_key config p).
  - destruct Hpost as (a' & cd0 & new & Ho & Hcls & Hws & Hcd0 & Hc & _).
    rewrite Hcd in Hcd0. injection Hcd0 as <-.
    eexists _, [a']. rewrite Hc, lookup_insert_eq.
    split; [reflexivity|]. split; [exact Ho|]. cbn. rewrite Hcls.
    split; [reflexivity|]. split; [repeat constructor; exact Hws|].
    split; [intros q Hq; destruct q, p; congruence || reflexivity|].
    destruct p; reflexivity.
  - destruct Hpost as (Ho & Hc & _). exists cd, []. rewrite Hc, Ho, app_nil_r.
    repeat split; auto.
Qed.

(** ** Stopping *)

Lemma adapters_kept_refl w : adapters_kept w w.
Proof. intros j c ws H. exact H. Qed.

Lemma adapters_kept_trans w1 w2 w3 :
  adapters_kept w1 w2 -> adapters_kept w2 w3 -> adapters_kept w1 w3.
Proof. intros H1 H2 j c ws H. apply H2, H1, H. Qed.

Lemma adapters_kept_frame self c ws w w' :
  is_adapter self c ws w -> is_adapter self c ws w' -> frame self w w' ->
  adapters_kept w w'.
Proof.
  intros (a & Ha & Hc & Hs) Hw' (_ & _ & Hother) j c' ws' (b & Hb & Hc' & Hs').
  destruct (decide (j = self)) as [->|Hj].
  - rewrite Ha in Hb. injection Hb as <-. rewrite <- Hc', <- Hs', Hc, Hs. exact Hw'.
  - exists b. rewrite (Hother j Hj). auto.
Qed.

Lemma adapters_kept_objects w w' :
  objects w' = objects w -> adapters_kept w w'.
Proof. intros Ho j c ws (a & Ha & H). exists a. rewrite Ho. auto. Qed.

Lemma adapters_kept_app w w' created :
  objects w' = objects w ++ created -> adapters_kept w w'.
Proof.
  intros Ho j c ws (a & Ha & H). exists a. rewrite Ho.
  rewrite lookup_app_l by (eapply lookup_lt_Some; eauto). auto.
Qed.

Lemma provider_disconnect_run w self c ws :
  is_adapter self c ws w ->
  exists w', ConnectionManager.provider_disconnect E self w = (w', inr tt) /\
             active_connections w' = active_connections w /\
             adapters_kept w w' /\
             (exists new, history_grows w w' new /\ Forall (vendor_call c) new) /\
             exists line, log w' = line :: log w /\ disconnect_line c line.
Proof.
  intros Hw. pose proof Hw as (a & Ha & Hc & Hs).
  unfold ConnectionManager.provider_disconnect, bind, attr. rewrite Ha, Hc.
  destruct c.
  - destruct (AdapterFacts.speechmatics_disconnect_method E self ws w Hw)
      as ((r & Hr) & Hw' & Hf & Hnew).
    destruct (speechmatics_disconnect_log E w self a Ha) as (line & Hl & Hd).
    destruct (SpeechmaticsProvider.disconnect E self w) as [w' res] eqn:Hrun.
    cbn in *. subst res. destruct r. exists w'. split; [reflexivity|].
    split; [apply Hf|]. split; [eapply adapters_kept_frame; eauto|].
    split; [exact Hnew|]. eauto.
  - destruct (AdapterFacts.deepgram_disconnect_method E self ws w Hw)
      as ((r & Hr) & Hw' & Hf & Hnew).
    destruct (deepgram_disconnect_log E w self a Ha) as (line & Hl & Hd).
    destruct (DeepgramProvider.disconnect E self w) as [w' res] eqn:Hrun.
    cbn in *. subst res. destruct r. exists w'. split; [reflexivity|].
    split; [apply Hf|]. split; [eapply adapters_kept_frame; eauto|].
    split; [exact Hnew|]. eauto.
Qed.

Lemma stop_one_run ws p w :
  sessions_ok w ->
  exists w', ConnectionManager.stop_one E ws p w = (w', inr tt) /\
             stop_post ws p w w'.
Proof.
  intros Hok. unfold ConnectionManager.stop_one, stop_post.
  unfold bind at 1. unfold ConnectionManager.stored_provider.
  destruct (active_connections w !! ws) as [cd|] eqn:Hcd;
    [|exists w; split; reflexivity].
  destruct (ConnectionManager.cd_provider p cd) as [self|] eqn:Hp;
    [|exists w; split; reflexivity].
  destruct (provider_disconnect_run w self p ws (Hok ws cd p self Hcd Hp))
    as (w1 & Hrun & Hconn & Hkept & Hnew & Hline).
  unfold bind. rewrite Hrun. unfold ConnectionManager.update_connection.
  rewrite Hconn, Hcd. eexists. split; [reflexivity|]. cbn.
  split; [rewrite ?Hconn; reflexivity|]. auto.
Qed.

(** The session table and the objects agree after a stop of one entry. *)
Lemma stop_post_sessions_ok ws p w w' :
  sessions_ok w -> stop_post ws p w w' -> sessions_ok w'.
Proof.
  intros Hok. unfold stop_post.
  destruct (active_connections w !! ws) as [cd|] eqn:Hcd; [|intros ->; exact Hok].
  destruct (ConnectionManager.cd_provider p cd) as [self|] eqn:Hp;
    [|intros ->; exact Hok].
  intros (Hconn & Hkept & _) ws' cd' q self' Hcd' Hq.
  rewrite Hconn in Hcd'. apply Hkept.
  destruct (decide (ws' = ws)) as [->|Hne].
  - rewrite lookup_insert_eq in Hcd'. injection Hcd' as <-.
    apply (Hok ws cd q self' Hcd). destruct p, q; cbn in *; congruence.
  - rewrite lookup_insert_ne in Hcd' by congruence. eapply Hok; eauto.
Qed.

Lemma stop_providers_run ws w :
  sessions_ok w ->
  exists w1 w2,
    ConnectionManager.stop_providers E ws w = (w2, inr tt) /\
    stop_post ws Speechmatics w w1 /\
    stop_post ws Deepgram w1 w2.
Proof.
  intros Hok. unfold ConnectionManager.stop_providers.
  destruct (stop_one_run ws Speechmatics w Hok) as (w1 & Hrun1 & Hpost1).
  destruct (stop_one_run ws Deepgram w1 (stop_post_sessions_ok _ _ _ _ Hok Hpost1))
    as (w2 & Hrun2 & Hpost2).
  unfold bind. rewrite Hrun1, Hrun2. eauto.
Qed.

Lemma logged_grows w w' more : log w' = more ++ log w -> logged w w' = more.
Proof.
  unfold logged. intros ->. rewrite length_app.
  replace (length more + length (log w) - length (log w))%nat
    with (length more) by lia.
  apply take_app_length.
Qed.

Lemma stop_post_log ws p w w' :
  stop_post ws p w w' -> exists more, log w' = more ++ log w.
Proof.
  unfold stop_post.
  destruct (active_connections w !! ws) as [cd|]; [|intros ->; exists []; reflexivity].
  destruct (ConnectionManager.cd_provider p cd) as [self|];
    [|intros ->; exists []; reflexivity].
  intros (_ & _ & _ & line & Hl & _). exists [line]. exact Hl.
Qed.

(** [stop_providers] disconnects the adapter stored for [p], whatever
    state it is in, and clears both entries. *)
Lemma stop_disconnects_stored ws p w cd self :
  sessions_ok w ->
  active_connections w !! ws = Some cd ->
  ConnectionManager.cd_provider p cd = Some self ->
  snd (ConnectionManager.stop_providers E ws w) = inr tt /\
  exists line,
    In line (logged w (fst (ConnectionManager.stop_providers E ws w))) /\
    disconnect_line p line.
Proof.
  intros Hok Hcd Hp.
  destruct (stop_providers_run ws w Hok) as (w1 & w2 & Hrun & Hp1 & Hp2).
  rewrite Hrun. cbn [fst snd]. split; [reflexivity|].
  destruct (stop_post_log _ _ _ _ Hp1) as (m1 & Hm1).
  destruct (stop_post_log _ _ _ _ Hp2) as (m2 & Hm2).
  assert (Hlog : log w2 = (m2 ++ m1) ++ log w)
    by (rewrite Hm2, Hm1, app_assoc; reflexivity).
  rewrite (logged_grows _ _ _ Hlog).
  destruct p.
  - unfold stop_post in Hp1. rewrite Hcd, Hp in Hp1.
    destruct Hp1 as (_ & _ & _ & line & Hl & Hd).
    exists line. split; [|exact Hd].
    rewrite Hm1 in Hl. apply in_or_app. right.
    destruct m1 as [|x m1]; cbn in Hl.
    + exfalso. assert (Hlen : length (log w) = length (line :: log w)) by congruence.
      cbn in Hlen. lia.
    + injection Hl as -> _. left. reflexivity.
  - assert (Hcd1 : exists cd1, active_connections w1 !! ws = Some cd1 /\
                    ConnectionManager.cd_provider Deepgram cd1 = Some self).
    { unfold stop_post in Hp1. rewrite Hcd in Hp1.
      destruct (ConnectionManager.cd_provider Speechmatics cd) as [s|].
      - destruct Hp1 as (Hc & _). rewrite Hc, lookup_insert_eq.
        eexists. split; [reflexivity|]. destruct cd; exact Hp.
      - subst w1. eauto. }
    destruct Hcd1 as (cd1 & Hcd1 & Hp').
    unfold stop_post in Hp2. rewrite Hcd1, Hp' in Hp2.
    destruct Hp2 as (_ & _ & _ & line & Hl & Hd).
    exists line. split; [|exact Hd].
    rewrite Hm2 in Hl. apply in_or_app. left.
    destruct m2 as [|x m2]; cbn in Hl.
    + exfalso. assert (Hlen : length (log w1) = length (line :: log w1)) by congruence.
      cbn in Hlen. lia.
    + injection Hl as -> _. left. reflexivity.
Qed.

(** ** The invariant of the session table *)

Lemma sessions_ok_config ws config cd w :
  sessions_ok w ->
  active_connections w !! ws = Some cd ->
  sessions_ok (with_connections
                 (<[ws := ConnectionManager.set_cd_config (Some config) cd]>
                    (active_connections w)) w).
Proof.
  intros Hok Hcd ws' cd' q self Hcd' Hq. cbn in Hcd'.
  destruct (decide (ws' = ws)) as [->|Hne].
  - rewrite lookup_insert_eq in Hcd'. injection Hcd' as <-.
    apply (Hok ws cd q self Hcd). destruct q; exact Hq.
  - rewrite lookup_insert_ne in Hcd' by congruence. eapply Hok; eauto.
Qed.

Lemma block_post_sessions_ok config ws p w w' :
  sessions_ok w -> block_post config ws p w w' -> sessions_ok w'.
Proof.
  intros Hok. unfold block_post. destruct (has_api_key config p).
  - intros (a' & cd & new & Ho & Hcls & Hws & Hcd & Hc & _).
    pose proof (adapters_kept_app _ _ _ Ho) as Hkept.
    intros ws' cd' q self Hcd' Hq. rewrite Hc in Hcd'.
    destruct (decide (ws' = ws)) as [->|Hne].
    + rewrite lookup_insert_eq in Hcd'. injection Hcd' as <-.
      destruct (decide (q = p)) as [->|Hqp].
      * assert (self = length (objects w)) as -> by (destruct p; cbn in Hq; congruence).
        exists a'. rewrite Ho, lookup_app_r by lia. rewrite Nat.sub_diag. auto.
      * apply Hkept. apply (Hok ws cd q self Hcd).
        destruct p, q; cbn in *; congruence.
    + rewrite lookup_insert_ne in Hcd' by congruence. apply Hkept. eapply Hok; eauto.
  - intros (Ho & Hc & _) ws' cd' q self Hcd' Hq. rewrite Hc in Hcd'.
    apply (adapters_kept_objects _ _ Ho). eapply Hok; eauto.
Qed.

Lemma provider_send_audio_idle w self a audio_data :
  objects w !! self = Some a ->
  in_connected_state a = false ->
  ConnectionManager.provider_send_audio E self audio_data w = (w, inr tt).
Proof.
  intros Ha Hidle. unfold ConnectionManager.provider_send_audio, bind, attr.
  rewrite Ha. destruct (cls a) eqn:Hc.
  - eapply speechmatics_send_audio_idle; eauto.
  - eapply deepgram_send_audio_idle; eauto.
Qed.

(** ** Stopping twice *)

Lemma stop_post_nothing ws p w w' :
  stop_post ws p w w' -> nothing_stored ws p w'.
Proof.
  unfold stop_post, nothing_stored.
  destruct (active_connections w !! ws) as [cd|] eqn:Hcd.
  - destruct (ConnectionManager.cd_provider p cd) as [self|] eqn:Hp.
    + intros (Hc & _). rewrite Hc, lookup_insert_eq. destruct p; reflexivity.
    + intros ->. rewrite Hcd. exact Hp.
  - intros ->. rewrite Hcd. exact I.
Qed.

Lemma stop_post_keeps_nothing ws p q w w' :
  nothing_stored ws q w -> stop_post ws p w w' -> nothing_stored ws q w'.
Proof.
  unfold stop_post, nothing_stored.
  destruct (active_connections w !! ws) as [cd|] eqn:Hcd.
  - destruct (ConnectionManager.cd_provider p cd) as [self|] eqn:Hp.
    + intros Hq (Hc & _). rewrite Hc, lookup_insert_eq.
      destruct p, q; cbn in *; congruence.
    + intros Hq ->. rewrite Hcd. exact Hq.
  - intros _ ->. rewrite Hcd. exact I.
Qed.

Lemma stop_one_idle ws p w :
  nothing_stored ws p w -> ConnectionManager.stop_one E ws p w = (w, inr tt).
Proof.
  unfold nothing_stored, ConnectionManager.stop_one, bind,
    ConnectionManager.stored_provider.
  destruct (active_connections w !! ws) as [cd|]; [|reflexivity].
  intros ->. reflexivity.
Qed.

Lemma stop_providers_idle ws w :
  nothing_stored ws Speechmatics w -> nothing_stored ws Deepgram w ->
  ConnectionManager.stop_providers E ws w = (w, inr tt).
Proof.
  intros Hs Hd. unfold ConnectionManager.stop_providers, bind.
  rewrite (stop_one_idle ws Speechmatics w Hs). apply stop_one_idle. exact Hd.
Qed.

(** A second [stop_providers] finds nothing to do. *)
Lemma stop_providers_twice ws w :
  sessions_ok w ->
  ConnectionManager.stop_providers E ws
    (fst (ConnectionManager.stop_providers E ws w))
  = (fst (ConnectionManager.stop_providers E ws w), inr tt) /\
  nothing_stored ws Speechmatics (fst (ConnectionManager.stop_providers E ws w)) /\
  nothing_stored ws Deepgram (fst (ConnectionManager.stop_providers E ws w)).
Proof.
  intros Hok. destruct (stop_providers_run ws w Hok) as (w1 & w2 & Hrun & H1 & H2).
  rewrite Hrun. cbn [fst].
  assert (Hs : nothing_stored ws Speechmatics w2)
    by (eapply stop_post_keeps_nothing; [eapply stop_post_nothing|]; eauto).
  assert (Hd : nothing_stored ws Deepgram w2) by (eapply stop_post_nothing; eauto).
  split; [apply stop_providers_idle; assumption | auto].
Qed.

(** ** Removing a session *)

Lemma disconnect_absent ws w :
  active_connections w !! ws = None ->
  ConnectionManager.disconnect ws w = (w, inr tt).
Proof. intros H. unfold ConnectionManager.disconnect. rewrite H. reflexivity. Qed.

Lemma disconnect_removes ws w :
  active_connections (fst (ConnectionManager.disconnect ws w)) !! ws = None /\
  snd (ConnectionManager.disconnect ws w) = inr tt /\
  trace (fst (ConnectionManager.disconnect ws w)) = trace w.
Proof.
  unfold ConnectionManager.disconnect.
  destruct (active_connections w !! ws) as [cd|] eqn:Hcd; [|auto].
  unfold bind, ConnectionManager.disconnect_task, create_task, ret.
  destruct (cd_speechmatics cd), (cd_deepgram cd); cbn;
    (split; [apply lookup_delete_eq | split; reflexivity]).
Qed.

Lemma disconnect_twice ws w :
  ConnectionManager.disconnect ws (fst (ConnectionManager.disconnect ws w))
  = (fst (ConnectionManager.disconnect ws w), inr tt).
Proof. apply disconnect_absent. apply disconnect_removes. Qed.

(** Removing a session whose providers were stopped creates no task. *)
Lemma disconnect_after_stop ws w :
  nothing_stored ws Speechmatics w -> nothing_stored ws Deepgram w ->
  tasks (fst (ConnectionManager.disconnect ws w)) = tasks w.
Proof.
  unfold nothing_stored, ConnectionManager.disconnect.
  destruct (active_connections w !! ws) as [cd|]; [|reflexivity].
  cbn. intros -> ->. reflexivity.
Qed.

End Manager.
End ManagerFacts.

(* ===================================================================== *)
(** * Failures, path by path *)
(* ===================================================================== *)

Module FailureFacts.
Import Py Runtime BaseSTTProvider Spec Writes Translation Outcomes Logic.
Import ConnectFacts ManagerFacts.
Local Open Scope coro_scope.

Section Failures.
Context (E : Env).

Lemma vendor_calm_nil c : vendor_calm c [].
Proof. intros call e []. Qed.

Lemma vendor_calm_app c l1 l2 :
  vendor_calm c l1 -> vendor_calm c l2 -> vendor_calm c (l1 ++ l2).
Proof.
  intros H1 H2 call e Hin. apply in_app_or in Hin as [Hin|Hin]; eauto.
Qed.

Lemma vendor_calm_returned c call s : vendor_calm c [(call, inr s)].
Proof. intros call' e [Heq|[]]. discriminate. Qed.

Lemma response_calls_calm response ws new :
  Forall (response_call E response ws) new -> vendor_calm Deepgram new.
Proof.
  intros HF call e Hin Hp.
  destruct (proj1 (List.Forall_forall _ _) HF _ Hin)
    as [(data & t & _ & _ & Hev)|(msg & Hev)];
    cbn in Hev; subst call; discriminate.
Qed.

(** ** The receive loop of Deepgram *)

(** The loop ends by itself, runs out of [fuel], or is ended by a [recv]
    that raises: no other call of the loop to the vendor fails. *)
Lemma listen_loop_failures ws self fuel : forall w,
  is_adapter self Deepgram ws w ->
  is_adapter self Deepgram ws (fst (DeepgramProvider.listen_loop E fuel self w)) /\
  exists new,
    history_grows w (fst (DeepgramProvider.listen_loop E fuel self w)) new /\
    match snd (DeepgramProvider.listen_loop E fuel self w) with
    | inr _ => vendor_calm Deepgram new
    | inl e => exists h rest,
        new = (WsRecv h, inl e) :: rest /\ vendor_calm Deepgram rest
    end.
Proof.
  induction fuel as [|fuel IH]; intros w Hw; cbn [DeepgramProvider.listen_loop].
  - split; [exact Hw|]. exists []. split; [reflexivity|]. apply vendor_calm_nil.
  - pose proof Hw as (a & Ha & Hc & Hs).
    run_socket Ha.
    destruct (provider_websocket a) as [s|] eqn:Hpw;
      [|split; [exact Hw|]; exists []; split; [reflexivity|]; apply vendor_calm_nil].
    destruct (vs_closed s) eqn:Hcl; cbn [negb];
      [split; [exact Hw|]; exists []; split; [reflexivity|]; apply vendor_calm_nil|].
    run_socket Ha. next_call; run_socket Ha.
    + assert (Hw' : forall w0 a0, objects w0 = <[self := a0]> (objects w) ->
                cls a0 = Deepgram -> websocket a0 = ws ->
                is_adapter self Deepgram ws w0).
      { intros w0 a0 Ho Hc0 Hs0. exists a0. rewrite Ho.
        rewrite list_lookup_insert_eq by (eapply lookup_lt_Some; eauto). auto. }
      destruct (bool_decide (exn_cls e = ConnectionClosed)); run_socket Ha.
      * split; [eapply Hw'; [reflexivity| |]; assumption|].
        eexists. split; [grows|]. eexists _, []. split; [reflexivity|].
        apply vendor_calm_nil.
      * split; [exists a; auto|].
        eexists. split; [grows|]. eexists _, []. split; [reflexivity|].
        apply vendor_calm_nil.
    + match goal with
      | |- context [DeepgramProvider._process_response E self s0 ?w0] =>
          set (w1 := w0)
      end.
      assert (Hw1 : is_adapter self Deepgram ws w1) by (exists a; auto).
      destruct (AdapterFacts.process_response_method E self ws s0 w1 Hw1)
        as ((u & Hu) & Hw2 & _ & new2 & Hg2 & HP2).
      destruct (DeepgramProvider._process_response E self s0 w1) as [w2 r2].
      cbn [fst snd] in Hu, Hw2, Hg2. subst r2.
      destruct (IH w2 Hw2) as (Hw3 & new3 & Hg3 & Hm).
      destruct (DeepgramProvider.listen_loop E fuel self w2) as [w3 r3].
      cbn [fst snd] in *.
      split; [exact Hw3|].
      exists (new3 ++ new2 ++ [(WsRecv (vs_id s), inr s0)]).
      split.
      { unfold history_grows in *. rewrite Hg3, Hg2. subst w1. cbn [trace with_trace].
        rewrite <- !app_assoc. reflexivity. }
      assert (Hcalm : vendor_calm Deepgram (new2 ++ [(WsRecv (vs_id s), inr s0)])).
      { apply vendor_calm_app;
          [eapply response_calls_calm; eauto | apply vendor_calm_returned]. }
      destruct r3 as [e|b].
      * destruct Hm as (h & rest & -> & Hrest).
        exists h, (rest ++ new2 ++ [(WsRecv (vs_id s), inr s0)]).
        split; [reflexivity|]. apply vendor_calm_app; assumption.
      * apply vendor_calm_app; assumption.
Qed.

(** [_listen_for_responses] always returns.  A [recv] that raised
    [ConnectionClosed] is the last thing it did; one that raised
    anything else is followed by the error event. *)
Lemma listen_run ws self fuel w :
  is_adapter self Deepgram ws w ->
  returns (snd (DeepgramProvider._listen_for_responses E fuel self w)) /\
  exists new,
    history_grows w (fst (DeepgramProvider._listen_for_responses E fuel self w)) new /\
    (vendor_calm Deepgram new \/
     exists h e rest,
       vendor_calm Deepgram rest /\
       if bool_decide (exn_cls e = ConnectionClosed)
       then new = (WsRecv h, inl e) :: rest
       else exists o,
         new = (SendText ws (error_event Deepgram
                               ("Response processing error: " ++ exn_str e)), o)
               :: (WsRecv h, inl e) :: rest).
Proof.
  intros Hw. unfold DeepgramProvider._listen_for_responses, try_except.
  destruct (listen_loop_failures ws self fuel w Hw) as (Hw1 & new & Hg & Hm).
  destruct (DeepgramProvider.listen_loop E fuel self w) as [w1 [e|b]];
    cbn [fst snd] in *.
  - destruct Hm as (h & rest & -> & Hrest).
    destruct Hw1 as (a1 & Ha1 & Hc1 & Hs1).
    destruct (bool_decide (exn_cls e = ConnectionClosed)) eqn:Hcc; run_with Ha1.
    + split; [eexists; reflexivity|]. eexists. split; [exact Hg|].
      right. exists h, e, rest. rewrite Hcc. auto.
    + rewrite Hc1, Hs1. next_call; run_with Ha1;
        (split; [eexists; reflexivity|]);
        (eexists; split;
         [unfold history_grows in *; cbn [trace with_trace with_log]; rewrite Hg;
          rewrite app_comm_cons; reflexivity|]);
        right; exists h, e, rest; rewrite Hcc;
        (split; [assumption | eexists; reflexivity]).
  - split; [eexists; reflexivity|]. exists new. split; [exact Hg|]. left. exact Hm.
Qed.

(** ** Payloads Deepgram cannot use *)

(** A payload that is not JSON is logged and dropped. *)
Lemma process_response_undecodable self response w e :
  json_loads E response = inl e ->
  exn_cls e = JSONDecodeError ->
  snd (DeepgramProvider._process_response E self response w) = inr tt /\
  trace (fst (DeepgramProvider._process_response E self response w)) = trace w.
Proof.
  intros Hj Hcls. unfold DeepgramProvider._process_response.
  unfold bind, try_except, lift. rewrite Hj.
  rewrite (bool_decide_eq_true_2 _ Hcls). unfold logger. cbn. auto.
Qed.

(** A decoded payload whose translation raises is reported. *)
Lemma process_response_malformed ws self response w data e :
  is_adapter self Deepgram ws w ->
  json_loads E response = inr data ->
  malformed data e ->
  exn_cls e <> JSONDecodeError ->
  snd (DeepgramProvider._process_response E self response w) = inr tt /\
  exists o,
    trace (fst (DeepgramProvider._process_response E self response w))
    = (SendText ws (error_event Deepgram
                      ("Response processing error: " ++ exn_str e)), o)
      :: trace w.
Proof.
  intros (a & Ha & Hc & Hs) Hj Hm Hcls.
  assert (Hend : forall w0 : world,
    objects w0 = objects w -> trace w0 = trace w ->
    let r := (if bool_decide (exn_cls e = JSONDecodeError)
              then logger ERROR ("Failed to parse Deepgram response: " ++ exn_str e)
              else
                logger ERROR ("Error processing Deepgram response: " ++ exn_str e) ;;
                send_error_to_client E self
                  ("Response processing error: " ++ exn_str e)) w0 in
    snd r = inr tt /\
    exists o, trace (fst r)
              = (SendText ws (error_event Deepgram
                                ("Response processing error: " ++ exn_str e)), o)
                :: trace w).
  { intros w0 Ho Ht. rewrite (bool_decide_eq_false_2 _ Hcls).
    assert (Ha0 : objects w0 !! self = Some a) by (rewrite Ho; exact Ha).
    run_with Ha0. rewrite Hc, Hs, Ht.
    next_call; run_with Ha0; (split; [reflexivity|]); eexists; reflexivity. }
  unfold DeepgramProvider._process_response.
  unfold bind at 1. unfold try_except, lift at 1. rewrite Hj.
  destruct Hm as [Hm|[(Ht & Hm)|(Ht & [Hm|(Hty & Hm)])]].
  - unfold bind, lift. rewrite Hm. apply Hend; reflexivity.
  - unfold bind, lift. rewrite Ht, Hm. apply Hend; reflexivity.
  - unfold bind, lift. rewrite Ht, Hm. apply Hend; reflexivity.
  - unfold bind, lift. rewrite Ht, Hty, Hm. apply Hend; reflexivity.
Qed.

(** ** [send_audio], whatever the class *)

Lemma provider_send_audio_run w self a audio_data :
  objects w !! self = Some a ->
  exists w',
    ConnectionManager.provider_send_audio E self audio_data w = (w', inr tt) /\
    frame self w w' /\
    exists new,
      history_grows w w' new /\
      match audio_call a audio_data with
      | Some send => send_history (cls a) (websocket a) send new
      | None => new = []
      end.
Proof.
  intros Ha.
  destruct (in_connected_state a) eqn:Hstate.
  - unfold ConnectionManager.provider_send_audio, bind, attr. rewrite Ha.
    unfold in_connected_state in Hstate. unfold audio_call.
    apply andb_prop in Hstate as [Hi Hv]. rewrite Hi.
    assert (Hw : is_adapter self (cls a) (websocket a) w) by (exists a; auto).
    destruct (cls a) eqn:Hc.
    + destruct (voice_client a) as [c|] eqn:Hvc; [|discriminate].
      destruct (speechmatics_send_audio_run E w self a c audio_data Ha Hc Hvc Hi)
        as (Hr & new & Hg & Hh).
      destruct (AdapterFacts.speechmatics_send_audio_method E self (websocket a)
                  audio_data w Hw) as (_ & _ & Hf & _).
      destruct (SpeechmaticsProvider.send_audio E self audio_data w) as [w' r].
      cbn [fst snd] in *. subst r. exists w'. split; [reflexivity|].
      split; [exact Hf|]. exists new. auto.
    + destruct (provider_websocket a) as [s|] eqn:Hpw; [|discriminate].
      destruct (deepgram_send_audio_run E w self a s audio_data Ha Hc Hpw Hi)
        as (Hr & new & Hg & Hh).
      destruct (AdapterFacts.deepgram_send_audio_method E self (websocket a)
                  audio_data w Hw) as (_ & _ & Hf & _).
      destruct (DeepgramProvider.send_audio E self audio_data w) as [w' r].
      cbn [fst snd] in *. subst r. exists w'. split; [reflexivity|].
      split; [exact Hf|]. exists new. auto.
  - exists w. split; [apply provider_send_audio_idle with a; assumption|].
    split; [apply frame_refl|]. exists []. split; [reflexivity|].
    unfold in_connected_state in Hstate. unfold audio_call.
    destruct (is_connected a); [|reflexivity]. cbn in Hstate.
    destruct (cls a).
    + destruct (voice_client a); [discriminate | reflexivity].
    + destruct (provider_websocket a); [discriminate | reflexivity].
Qed.

(** The fan-out of a frame to a session that stores both adapters: each
    [send_audio] runs, the second from the world the first left. *)
Lemma send_audio_to_providers_run w ws cd sm dg a_sm a_dg audio_data :
  active_connections w !! ws = Some cd ->
  cd_speechmatics cd = Some sm -> cd_deepgram cd = Some dg ->
  objects w !! sm = Some a_sm -> objects w !! dg = Some a_dg ->
  sm <> dg ->
  exists w' new_sm new_dg,
    ConnectionManager.send_audio_to_providers E ws audio_data w = (w', inr tt) /\
    history_grows w w' (new_dg ++ new_sm) /\
    match audio_call a_sm audio_data with
    | Some send => send_history (cls a_sm) (websocket a_sm) send new_sm
    | None => new_sm = []
    end /\
    match audio_call a_dg audio_data with
    | Some send => send_history (cls a_dg) (websocket a_dg) send new_dg
    | None => new_dg = []
    end.
Proof.
  intros Hcd Hsm Hdg Ha_sm Ha_dg Hne.
  unfold ConnectionManager.send_audio_to_providers, ConnectionManager.stored_provider.
  unfold bind at 1 2. rewrite Hcd. cbn [ConnectionManager.cd_provider].
  rewrite Hsm, Hdg. cbn [app gather_return_exceptions].
  unfold bind at 1.
  destruct (provider_send_audio_run w sm a_sm audio_data Ha_sm)
    as (w1 & Hrun1 & Hf1 & new_sm & Hg1 & Hh1).
  rewrite Hrun1.
  assert (Ha_dg1 : objects w1 !! dg = Some a_dg).
  { destruct Hf1 as (_ & _ & Hother). rewrite Hother by congruence. exact Ha_dg. }
  destruct (provider_send_audio_run w1 dg a_dg audio_data Ha_dg1)
    as (w2 & Hrun2 & Hf2 & new_dg & Hg2 & Hh2).
  unfold bind, ret. rewrite Hrun2. cbn.
  exists w2, new_sm, new_dg. split; [reflexivity|].
  split; [|auto].
  unfold history_grows in *. rewrite Hg2, Hg1, app_assoc. reflexivity.
Qed.

(** ** [connect]: a vendor call that raised was reported *)

Lemma vendor_ok_returned c new call e :
  Forall (vendor_ok c) new -> ~ In (call, inl e) new.
Proof.
  intros Hok Hin.
  destruct (proj1 (List.Forall_forall _ _) Hok _ Hin) as (_ & (s & Hs)).
  discriminate.
Qed.

Lemma failure_reported c ws prefix e0 new call e :
  reported c ws prefix e0 new ->
  In (call, inl e) new -> call_provider call = Some c ->
  exists o,
    hd_error new = Some (SendText ws (error_event c (prefix ++ exn_str e)), o).
Proof.
  intros (o & rest & -> & _ & Hsame) Hin Hp.
  destruct Hin as [Heq|Hin].
  - injection Heq as <- _. discriminate.
  - rewrite (Hsame _ _ Hin). cbn. eauto.
Qed.

Lemma provider_connect_converts w self c ws :
  is_adapter self c ws w ->
  returns (snd (ConnectionManager.provider_connect E self w)) /\
  converts c ws "Connection failed: " (ConnectionManager.provider_connect E self) w.
Proof.
  intros (a & Ha & Hc & Hs).
  destruct (provider_connect_run E w self a Ha) as (w' & Hrun & Hpost).
  unfold converts. rewrite Hrun. cbn [fst snd].
  split; [eexists; reflexivity|].
  destruct Hpost as (a' & new & _ & _ & _ & _ & Hg & Hcases).
  rewrite (added_grows _ _ _ Hg). rewrite Hc, Hs in Hcases.
  intros call e Hin Hp.
  destruct Hcases as [(_ & Hok)|(_ & e0 & Hrep)].
  - destruct (vendor_ok_returned _ _ _ _ Hok Hin).
  - eapply failure_reported; eauto.
Qed.

Lemma provider_send_audio_converts w self c ws audio_data :
  is_adapter self c ws w ->
  returns (snd (ConnectionManager.provider_send_audio E self audio_data w)) /\
  converts c ws "Audio transmission error: "
           (ConnectionManager.provider_send_audio E self audio_data) w.
Proof.
  intros (a & Ha & Hc & Hs).
  destruct (provider_send_audio_run w self a audio_data Ha)
    as (w' & Hrun & _ & new & Hg & Hh).
  unfold converts. rewrite Hrun. cbn [fst snd].
  split; [eexists; reflexivity|].
  rewrite (added_grows _ _ _ Hg). rewrite Hc, Hs in Hh.
  intros call e Hin Hp.
  destruct (audio_call a audio_data) as [send|]; [|subst new; destruct Hin].
  destruct Hh as [(s & ->)|(e0 & o & ->)].
  - destruct Hin as [Heq|[]]. discriminate.
  - destruct Hin as [Heq|[Heq|[]]].
    + injection Heq as <- _. discriminate.
    + injection Heq as _ <-. cbn. eauto.
Qed.

Lemma listen_converts w dg ws fuel :
  is_adapter dg Deepgram ws w ->
  returns (snd (DeepgramProvider._listen_for_responses E fuel dg w)) /\
  converts_unless_closed Deepgram ws "Response processing error: "
    (DeepgramProvider._listen_for_responses E fuel dg) w.
Proof.
  intros Hw. destruct (listen_run ws dg fuel w Hw) as (Hr & new & Hg & Hcases).
  split; [exact Hr|]. unfold converts_unless_closed.
  rewrite (added_grows _ _ _ Hg).
  intros call e Hin Hp.
  destruct Hcases as [Hcalm|(h & e0 & rest & Hcalm & Hshape)].
  - destruct (Hcalm _ _ Hin Hp).
  - destruct (bool_decide (exn_cls e0 = ConnectionClosed)) eqn:Hcc.
    + subst new. destruct Hin as [Heq|Hin]; [|destruct (Hcalm _ _ Hin Hp)].
      injection Heq as <- <-. rewrite Hcc. reflexivity.
    + destruct Hshape as (o & ->).
      destruct Hin as [Heq|[Heq|Hin]]; [| |destruct (Hcalm _ _ Hin Hp)].
      * injection Heq as <- _. discriminate.
      * injection Heq as _ <-. rewrite Hcc. cbn. eauto.
Qed.

Lemma send_history_sends c ws send new :
  send_history c ws send new -> In send (map fst new).
Proof.
  intros [(s & ->)|(e & o & ->)]; cbn; auto.
Qed.

End Failures.
End FailureFacts.
(* ===================================================================== *)
(** * The history in call order *)
(* ===================================================================== *)

Lemma calls_cons (w w' : Runtime.world) (new : list Runtime.event) :
  Runtime.trace w' = new ++ Runtime.trace w ->
  Runtime.calls w' = Runtime.calls w ++ map fst (rev new).
Proof.
  unfold Runtime.calls. intros ->. rewrite rev_app_distr, map_app. reflexivity.
Qed.

(* ===================================================================== *)
(** * The loop of the segment handlers *)
(* ===================================================================== *)

Module SegmentFacts.
Import Py Runtime BaseSTTProvider Spec Segments.
Local Open Scope coro_scope.

Section Loop.
Context (E : Env) (self ws : nat) (build : value -> res value).

Lemma for_each_sends body l :
  sends_translation E self ws build body ->
  forall w, is_adapter self Speechmatics ws w ->
    exists n,
      calls (fst (SpeechmaticsProvider.for_each l body w))
        = calls w ++ map (SendText ws) (take n (translations build l)) /\
      (client_accepts E ws -> n = length (translations build l)).
Proof.
  intros Hbody. induction l as [|segment l IH]; intros w Hw.
  - exists 0%nat. cbn. rewrite app_nil_r. auto.
  - cbn [SpeechmaticsProvider.for_each translations]. unfold bind.
    destruct (Hbody segment w Hw) as (Ho & Hb).
    destruct (build segment) as [e|t].
    + destruct Hb as (Ht & Hr).
      destruct (body segment w) as [w1 r1]; cbn [fst snd] in *. subst r1.
      exists 0%nat. unfold calls. cbn. rewrite Ht, app_nil_r. auto.
    + destruct Hb as (Ht & Hr).
      destruct (body segment w) as [w1 r1]; cbn [fst snd] in *.
      assert (Hcalls : calls w1 = calls w ++ [SendText ws t]).
      { unfold calls. rewrite Ht. cbn. rewrite map_app. reflexivity. }
      destruct (respond E (trace w) (SendText ws t)) as [e|s] eqn:Hresp; subst r1.
      * exists 1%nat. cbn [fst take map]. rewrite take_0. split; [exact Hcalls|].
        intros Hacc. destruct (Hacc (trace w) t) as (s & Hs). congruence.
      * assert (Hw1 : is_adapter self Speechmatics ws w1).
        { destruct Hw as (a & Ha & H). exists a. rewrite Ho. auto. }
        destruct (IH w1 Hw1) as (n & Hn & Hall).
        exists (S n). cbn [take map length]. rewrite Hn, Hcalls, <- app_assoc.
        split; [reflexivity|]. intros Hacc. rewrite (Hall Hacc). reflexivity.
Qed.

End Loop.

Section Handlers.
Context (E : Env) (self ws : nat).

Lemma partial_body_sends :
  sends_translation E self ws SpeechmaticsProvider.partial_transcript
    (fun segment =>
       transcript <- lift (SpeechmaticsProvider.partial_transcript segment) ;;
       ws <- attr self websocket ;;
       perform E (SendText ws transcript) ;; ret tt).
Proof.
  intros segment w (a & Ha & Hc & Hs). unfold bind, lift, attr, perform, ret.
  destruct (SpeechmaticsProvider.partial_transcript segment) as [e|t]; cbn [fst snd].
  - auto.
  - rewrite Ha, Hs. cbn [fst snd].
    destruct (respond E (trace w) (SendText ws t)); cbn; auto.
Qed.

Lemma final_body_sends :
  sends_translation E self ws SpeechmaticsProvider.final_transcript
    (fun segment =>
       logger INFO ("Final segment data: " ++ str E segment) ;;
       transcript <- lift (SpeechmaticsProvider.final_transcript segment) ;;
       ws <- attr self websocket ;;
       perform E (SendText ws transcript) ;;
       logger INFO ("Sent final transcript: " ++ str E transcript)).
Proof.
  intros segment w (a & Ha & Hc & Hs). unfold bind, lift, attr, perform, logger.
  cbn [fst snd objects with_log trace].
  destruct (SpeechmaticsProvider.final_transcript segment) as [e|t]; cbn [fst snd].
  - auto.
  - rewrite Ha, Hs. cbn [fst snd trace with_log].
    destruct (respond E (trace w) (SendText ws t)); cbn; auto.
Qed.

Lemma calls_with_log l w : calls (with_log l w) = calls w.
Proof. reflexivity. Qed.

Lemma handler_sends k message segments l w :
  segment_kind k = true ->
  is_adapter self Speechmatics ws w ->
  getitem message "segments" = inr segments ->
  iter segments = inr l ->
  exists n,
    calls (fst (SpeechmaticsProvider.handler E self k message w))
      = calls w ++ map (SendText ws) (take n (translations (builder k) l)) /\
    (client_accepts E ws -> n = length (translations (builder k) l)).
Proof.
  intros Hk Hw Hseg Hl. destruct k; try discriminate;
    cbn [SpeechmaticsProvider.handler builder].
  - unfold SpeechmaticsProvider._handle_partial_segments.
    unfold try_except. unfold bind at 1 2. unfold lift at 1 2.
    rewrite Hseg, Hl.
    destruct (for_each_sends E self ws _ _ l partial_body_sends w Hw) as (n & Hn & Hall).
    exists n. split; [|exact Hall].
    destruct (SpeechmaticsProvider.for_each l _ w) as [w1 [e|[]]];
      cbn [fst] in *; exact Hn.
  - unfold SpeechmaticsProvider._handle_final_segments.
    unfold try_except. unfold bind at 1 2 3 4. unfold lift at 1 2, logger at 1 2.
    rewrite Hseg, Hl. cbn [fst snd].
    match goal with
    | |- context [SpeechmaticsProvider.for_each l ?body ?w0] =>
        assert (Hw0 : is_adapter self Speechmatics ws w0) by exact Hw;
        destruct (for_each_sends E self ws _ body l final_body_sends w0 Hw0)
          as (n & Hn & Hall);
        exists n; split; [|exact Hall];
        destruct (SpeechmaticsProvider.for_each l body w0) as [w1 [e|[]]]
    end; cbn [fst] in *; exact Hn.
Qed.

End Handlers.
End SegmentFacts.

(* ===================================================================== *)
(** * What the handlers deliver *)
(* ===================================================================== *)

Module DeliveryFacts.
Import Py Runtime BaseSTTProvider Spec Translation Segments Delivery Outcomes.
Import PyFacts TranslationFacts ConnectFacts ManagerFacts.
Local Open Scope coro_scope.

(** ** The translations of a message *)

(** The transcript at a position comes from the segment at that
    position. *)
Lemma translations_lookup build l : forall i t,
  translations build l !! i = Some t ->
  exists segment, l !! i = Some segment /\ build segment = inr t.
Proof.
  induction l as [|s l IH]; intros i t H; cbn in H; [discriminate|].
  destruct (build s) as [e|t0] eqn:Hb; [discriminate|].
  destruct i as [|i]; cbn in H.
  - injection H as <-. exists s. auto.
  - apply IH in H. exact H.
Qed.

(** When every segment can be translated, each has its transcript. *)
Lemma translations_all build l :
  Forall (fun segment => returns (build segment)) l ->
  length (translations build l) = length l.
Proof.
  induction 1 as [|s l (t & Ht) _ IH]; cbn; [reflexivity|].
  rewrite Ht. cbn. congruence.
Qed.

(** ** Numbers *)

Lemma float_of_int_1000 : float_of_int 1000 = inr (f64 1000 0).
Proof. vm_compute. reflexivity. Qed.

Lemma float_of_int_0 : float_of_int 0 = inr (S754_zero false).
Proof. vm_compute. reflexivity. Qed.

Lemma mul_number v x :
  as_number v = Some x -> returns (mul v (VInt 1000)).
Proof.
  intros Hx. unfold mul. rewrite Hx. cbn [as_number].
  destruct x as [z|f]; cbn [arith].
  - eexists. reflexivity.
  - rewrite float_of_int_1000. eexists. reflexivity.
Qed.

Lemma mul_float f :
  mul (VFloat f) (VInt 1000) = inr (VFloat (fmul f (f64 1000 0))).
Proof. unfold mul. cbn [as_number arith]. rewrite float_of_int_1000. reflexivity. Qed.

(** ** Counting the speakers *)

Lemma counter_incr_nonempty c k v : counter_incr c k v <> [].
Proof. destruct c as [|x r]; cbn; [discriminate|]. destruct (decide _); discriminate. Qed.

Lemma counter_update_total l : forall c,
  Forall (fun v => hashable v = true) l ->
  exists c', counter_update c l = inr c' /\ (c <> [] \/ l <> [] -> c' <> []).
Proof.
  induction l as [|v l IH]; intros c Hl.
  - exists c. split; [reflexivity|]. intros [H|H]; congruence.
  - apply Forall_cons in Hl as (Hv & Hl). cbn [counter_update].
    unfold hash_key. unfold hashable in Hv.
    destruct (key_of v) as [k|]; [|discriminate]. cbn [rbind ok].
    destruct (IH (counter_incr c k v) Hl) as (c' & Hc' & Hne).
    exists c'. split; [exact Hc'|]. intros _. apply Hne. left.
    apply counter_incr_nonempty.
Qed.

Lemma most_common_elem_total l :
  l <> [] -> Forall (fun v => hashable v = true) l -> returns (most_common_elem l).
Proof.
  intros Hne Hl. unfold most_common_elem, Counter.
  destruct (counter_update_total l [] Hl) as (c & Hc & Hc').
  rewrite Hc. cbn [rbind]. destruct c as [|x r]; [exfalso; apply Hc'; auto|].
  cbn. eexists. reflexivity.
Qed.

(** ** Messages that can be translated *)

Lemma tagged_speakers_words words :
  forallb word_ok words = true ->
  exists tags, DeepgramProvider.tagged_speakers words = inr tags /\
               Forall (fun v => hashable v = true) tags.
Proof.
  induction words as [|word r IH]; intros H.
  - exists []. split; [reflexivity | constructor].
  - cbn [forallb] in H. apply andb_prop in H as (Hw & Hr).
    destruct (IH Hr) as (tags & Ht & Hh).
    destruct word as [| | | | | |fields]; try discriminate.
    cbn [DeepgramProvider.tagged_speakers contains rbind ok].
    cbn [word_ok] in Hw.
    destruct (dict_lookup fields "speaker") as [tag|] eqn:Htag.
    + unfold get1. cbn [get rbind ok]. rewrite Htag, Ht. cbn [rbind ok].
      exists (tag :: tags). split; [reflexivity|]. constructor; assumption.
    + exists tags. auto.
Qed.

Lemma utterance_speaker_plain al :
  match dict_lookup al "speaker", dict_lookup al "words" with
  | Some _, _ => true
  | None, None => true
  | None, Some (VList words) => forallb word_ok words
  | None, Some _ => false
  end = true ->
  returns (DeepgramProvider.utterance_speaker (VDict al)).
Proof.
  intros H. unfold DeepgramProvider.utterance_speaker.
  cbn [contains getitem rbind ok].
  destruct (dict_lookup al "speaker") as [sp|].
  - cbn [rbind ok]. eexists. reflexivity.
  - cbn [rbind ok].
    destruct (dict_lookup al "words") as [words|]; cbn [rbind ok andb].
    + destruct words as [| | | | |ws|]; try discriminate.
      destruct ws as [|w0 ws']; [cbn; eexists; reflexivity|].
      cbn [truthy iter rbind ok].
      destruct (tagged_speakers_words _ H) as (tags & Ht & Hh).
      rewrite Ht. cbn [rbind].
      destruct tags as [|tag tags]; [eexists; reflexivity|].
      destruct (most_common_elem_total (tag :: tags)) as (v & Hv);
        [discriminate | exact Hh |].
      rewrite Hv. cbn. eexists. reflexivity.
    + eexists. reflexivity.
Qed.

Lemma seconds_plain d k :
  float_or_absent d k = true ->
  (if match dict_lookup d k with Some _ => true | None => false end
   then rbind (get (VDict d) k (VInt 0)) (fun s => mul s (VInt 1000))
   else ok (VInt 0)) = inr (VInt 0) \/
  exists f,
    (if match dict_lookup d k with Some _ => true | None => false end
     then rbind (get (VDict d) k (VInt 0)) (fun s => mul s (VInt 1000))
     else ok (VInt 0)) = inr (VFloat f).
Proof.
  unfold float_or_absent. cbn [get]. destruct (dict_lookup d k) as [v|]; intros H.
  - destruct v; try discriminate. right. cbn [rbind ok]. rewrite mul_float.
    eexists. reflexivity.
  - left. reflexivity.
Qed.

(** A result of the documented shape has a transcript message. *)
Lemma transcript_message_plain data alternative text :
  plain_result data alternative = true ->
  returns (DeepgramProvider.transcript_message data alternative text).
Proof.
  unfold plain_result. intros H.
  destruct data as [| | | | | |d]; try discriminate.
  destruct alternative as [| | | | | |al]; try discriminate.
  apply andb_prop in H as (H & Hsp). apply andb_prop in H as (Hst & Hdu).
  destruct (utterance_speaker_plain al Hsp) as (sp & Hspk).
  unfold DeepgramProvider.transcript_message.
  cbn [get contains rbind ok].
  assert (Hadd : forall a b,
            (a = VInt 0 \/ exists f, a = VFloat f) ->
            (b = VInt 0 \/ exists f, b = VFloat f) -> returns (add a b)).
  { intros a b [->|(f & ->)] [->|(g & ->)]; unfold add; cbn [as_number arith].
    - eexists; reflexivity.
    - rewrite float_of_int_0. eexists; reflexivity.
    - rewrite float_of_int_0. eexists; reflexivity.
    - eexists; reflexivity. }
  pose proof (seconds_plain d "start" Hst) as Hs.
  pose proof (seconds_plain d "duration" Hdu) as Hd.
  cbn [get] in Hs, Hd.
  set (s := if match dict_lookup d "start" with Some _ => true | None => false end
            then _ else _) in *.
  set (u := if match dict_lookup d "duration" with Some _ => true | None => false end
            then _ else _) in *.
  assert (Hs' : exists a, s = inr a /\ (a = VInt 0 \/ exists f, a = VFloat f)).
  { destruct Hs as [Hs|(f & Hs)]; eexists; (split; [exact Hs|]); eauto. }
  assert (Hd' : exists a, u = inr a /\ (a = VInt 0 \/ exists f, a = VFloat f)).
  { destruct Hd as [Hd|(f & Hd)]; eexists; (split; [exact Hd|]); eauto. }
  destruct Hs' as (a & -> & Ha). destruct Hd' as (b & -> & Hb).
  cbn [rbind]. destruct (Hadd a b Ha Hb) as (e & ->). cbn [rbind].
  rewrite Hspk. cbn [rbind]. eexists. reflexivity.
Qed.

Lemma milliseconds_plain d k :
  number_or_absent d k = true ->
  exists v ms, get (VDict d) k (VInt 0) = inr v /\ mul v (VInt 1000) = inr ms.
Proof.
  unfold number_or_absent. cbn [get]. destruct (dict_lookup d k) as [v|]; intros H.
  - destruct (as_number v) as [x|] eqn:Hx; [|discriminate].
    destruct (mul_number v x Hx) as (ms & Hms). exists v, ms. auto.
  - exists (VInt 0), (VInt 0). split; reflexivity.
Qed.

Lemma segment_speaker_plain d :
  match dict_lookup d "speaker_id" with
  | Some (VStr s) =>
      negb (startswith s "S") ||
      existsb (fun n => String.eqb s (speaker_token n)) (seq 0 10)
  | _ => true
  end = true ->
  returns (SpeechmaticsProvider.segment_speaker (VDict d)).
Proof.
  intros H. destruct (dict_lookup d "speaker_id") as [v|] eqn:Hv.
  - destruct v as [| | | |s| |];
      try (rewrite (segment_speaker_other d _ Hv) by (discriminate || intros ? [=]);
           eexists; reflexivity).
    + unfold SpeechmaticsProvider.segment_speaker.
      cbn [contains getitem rbind ok]. rewrite Hv. cbn. eexists. reflexivity.
    + apply orb_prop in H as [H|H].
      * apply negb_true_iff in H.
        rewrite (segment_speaker_other d _ Hv)
          by (discriminate || (intros ? [= <-]; exact H)).
        eexists. reflexivity.
      * apply existsb_exists in H as (n & Hin & Heq).
        apply String.eqb_eq in Heq. subst s.
        apply in_seq in Hin.
        rewrite (segment_speaker_token d n) by (lia || exact Hv).
        eexists. reflexivity.
  - unfold SpeechmaticsProvider.segment_speaker.
    cbn [contains getitem rbind ok]. rewrite Hv. cbn. eexists. reflexivity.
Qed.

(** A segment of the documented shape has a transcript, partial and
    final. *)
Lemma builder_plain k segment :
  plain_segment segment = true -> returns (builder k segment).
Proof.
  unfold plain_segment. intros H.
  destruct segment as [| | | | | |d]; try discriminate.
  apply andb_prop in H as (H & Hsp). apply andb_prop in H as (Hst & Het).
  destruct (milliseconds_plain d _ Hst) as (st & sms & Hs1 & Hs2).
  destruct (milliseconds_plain d _ Het) as (et & ems & He1 & He2).
  destruct (segment_speaker_plain d Hsp) as (sp & Hspk).
  assert (Hp : returns (SpeechmaticsProvider.partial_transcript (VDict d))).
  { unfold SpeechmaticsProvider.partial_transcript.
    rewrite Hs1, He1. cbn [get rbind ok]. rewrite Hs2. cbn [rbind].
    rewrite He2. cbn [rbind]. rewrite Hspk. cbn [rbind]. eexists. reflexivity. }
  assert (Hf : returns (SpeechmaticsProvider.final_transcript (VDict d))).
  { unfold SpeechmaticsProvider.final_transcript.
    rewrite Hs1, He1. cbn [get rbind ok]. rewrite Hs2. cbn [rbind].
    rewrite He2. cbn [rbind]. rewrite Hspk. cbn [rbind]. eexists. reflexivity. }
  destruct k; assumption.
Qed.

(** ** What [_process_response] does with a result that has text *)

Lemma transcription_of_text data alternative text :
  first_alternative data = inr alternative ->
  get alternative "transcript" (VStr EmptyString) = inr text ->
  truthy text = true ->
  DeepgramProvider.is_transcription data = inr true /\
  DeepgramProvider.transcription_result data
  = rbind (DeepgramProvider.transcript_message data alternative text)
          (fun t => ok (Some t)).
Proof.
  unfold first_alternative, DeepgramProvider.is_transcription,
    DeepgramProvider.transcription_result.
  intros Hfa Htext Htr.
  apply rbind_inr in Hfa as (channel & Hch & Hfa).
  apply rbind_inr in Hfa as (alts & Halts & H0).
  rewrite Hch. cbn [rbind]. rewrite Halts. cbn [rbind].
  destruct data as [| | | | | |d]; try discriminate. cbn [contains getitem] in Hch |- *.
  destruct (dict_lookup d "channel") as [ch|]; [|discriminate].
  injection Hch as ->. cbn [rbind ok].
  destruct channel as [| | | | | |cd]; try discriminate.
  cbn [get contains] in Halts |- *.
  assert (Htruthy : truthy alts = true).
  { destruct alts as [| | | |s|l|]; try discriminate.
    - destruct s; [discriminate | reflexivity].
    - destruct l; [discriminate | reflexivity]. }
  destruct (dict_lookup cd "alternatives") as [x|].
  - rewrite Htruthy, H0. cbn [rbind]. rewrite Htext. cbn [rbind]. rewrite Htr.
    split; reflexivity.
  - injection Halts as <-. discriminate.
Qed.

Section Deepgram.
Context (E : Env).

Lemma except_reports ws self a e w0 :
  objects w0 !! self = Some a -> cls a = Deepgram -> websocket a = ws ->
  calls (fst ((if bool_decide (exn_cls e = JSONDecodeError)
               then logger ERROR ("Failed to parse Deepgram response: " ++ exn_str e)
               else
                 logger ERROR ("Error processing Deepgram response: " ++ exn_str e) ;;
                 send_error_to_client E self
                   ("Response processing error: " ++ exn_str e)) w0))
  = calls w0 ++ failure_report ws e.
Proof.
  intros Ha Hc Hs. unfold failure_report.
  destruct (bool_decide (exn_cls e = JSONDecodeError)).
  - cbn. rewrite app_nil_r. reflexivity.
  - run_with Ha. rewrite Hc, Hs.
    next_call; run_with Ha; unfold calls; cbn; rewrite map_app; reflexivity.
Qed.

(** A result whose first alternative has text: the transcript message is
    written to the client, or, when it cannot be built, the failure is
    reported. *)
Lemma process_response_text ws self response w data alternative text :
  is_adapter self Deepgram ws w ->
  json_loads E response = inr data ->
  first_alternative data = inr alternative ->
  get alternative "transcript" (VStr EmptyString) = inr text ->
  truthy text = true ->
  match DeepgramProvider.transcript_message data alternative text with
  | inr t =>
      sent_first E ws t w (fst (DeepgramProvider._process_response E self response w))
  | inl e =>
      calls (fst (DeepgramProvider._process_response E self response w))
      = calls w ++ failure_report ws e
  end.
Proof.
  intros (a & Ha & Hc & Hs) Hj Hfa Htext Htr.
  destruct (transcription_of_text _ _ _ Hfa Htext Htr) as (Hit & Hres).
  unfold DeepgramProvider._process_response.
  unfold bind at 1. unfold try_except, lift at 1. rewrite Hj.
  unfold bind, lift. rewrite Hit, Hres.
  destruct (DeepgramProvider.transcript_message data alternative text) as [e|t];
    cbn [rbind ok].
  - eapply except_reports; eauto.
  - unfold sent_first, attr, perform, ret. rewrite Ha, Hs.
    cbn [fst snd].
    destruct (respond E (trace w) (SendText ws t)) as [e|s] eqn:Hresp; cbn [fst snd].
    + set (w0 := with_trace ((SendText ws t, inl e) :: trace w) w).
      transitivity (calls w0 ++ failure_report ws e);
        [exact (except_reports ws self a e w0 Ha Hc Hs)|].
      unfold calls. cbn. rewrite map_app, <- app_assoc. reflexivity.
    + unfold calls. cbn. rewrite map_app. reflexivity.
Qed.

End Deepgram.

(** ** The flag after [disconnect] *)

Lemma provider_disconnect_lowers (E : Env) w self c ws :
  is_adapter self c ws w ->
  Forall (fun ev => returns (snd ev))
    (added w (fst (ConnectionManager.provider_disconnect E self w))) ->
  exists a', objects (fst (ConnectionManager.provider_disconnect E self w)) !! self
             = Some a' /\
             is_connected a' = false.
Proof.
  intros (a & Ha & Hc & Hs).
  assert (Hlt : (self < length (objects w))%nat) by (eapply lookup_lt_Some; eauto).
  assert (Hraised : forall (new : list event) w1 call e,
            history_grows w w1 new -> In (call, inl e) new ->
            ~ Forall (fun ev => returns (snd ev)) (added w w1)).
  { intros new w1 call e Hg Hin Hall. rewrite (added_grows _ _ _ Hg) in Hall.
    rewrite List.Forall_forall in Hall. destruct (Hall _ Hin) as (x & Hx).
    discriminate. }
  unfold ConnectionManager.provider_disconnect, bind, attr. rewrite Ha, Hc.
  destruct c.
  - unfold SpeechmaticsProvider.disconnect. run_socket Ha.
    destruct (voice_client a) as [client|]; run_socket Ha.
    + next_call; run_socket Ha; intros Hall.
      * exfalso. eapply (Hraised [(VoiceClose client, inl e)]); [| |exact Hall];
          [reflexivity | left; reflexivity].
      * eexists. split; [reflexivity|]. reflexivity.
    + intros _. eexists. split; [reflexivity|]. reflexivity.
  - unfold DeepgramProvider.disconnect. run_socket Ha.
    destruct (provider_websocket a) as [s|]; run_socket Ha.
    + destruct (vs_closed s); cbn [negb]; run_socket Ha.
      * intros _. eexists. split; [reflexivity|]. reflexivity.
      * next_call; run_socket Ha.
        -- destruct (bool_decide (exn_cls e = ConnectionClosed)); run_socket Ha;
             intros Hall; exfalso;
             (eapply (Hraised [(_, inl e)]); [| |exact Hall];
              [reflexivity | left; reflexivity]).
        -- next_call; run_socket Ha; intros Hall.
           ++ exfalso.
              eapply (Hraised [(_, inl e); _]); [| |exact Hall];
                [reflexivity | left; reflexivity].
           ++ eexists. split; [reflexivity|]. reflexivity.
    + intros _. eexists. split; [reflexivity|]. reflexivity.
Qed.

End DeliveryFacts.


(* ===================================================================== *)
(** * The properties *)
(* ===================================================================== *)

Import Py Runtime BaseSTTProvider Spec Frequency Writes Translation Samples.
Import PyFacts Logic AdapterFacts TranslationFacts.
Import Segments Delivery DeliveryFacts.

(** What a method makes of the history, for a method fact. *)
Lemma method_history {A} self c ws P (Q : res A -> Prop) (m : M A) w :
  method self c ws P Q m -> is_adapter self c ws w ->
  exists new, history_grows w (fst (m w)) new /\ Forall P new.
Proof. intros Hm Hw. destruct (Hm w Hw) as (_ & _ & _ & H). exact H. Qed.

Lemma two_adapters_speechmatics : is_adapter 0 Speechmatics 7 two_adapters.
Proof. eexists. repeat split; reflexivity. Qed.

Lemma two_adapters_deepgram : is_adapter 1 Deepgram 7 two_adapters.
Proof. eexists. repeat split; reflexivity. Qed.

Lemma live_session_speechmatics : is_adapter 0 Speechmatics 7 live_session.
Proof. eexists. split; [vm_compute; reflexivity|]. split; reflexivity. Qed.

Lemma live_session_deepgram : is_adapter 1 Deepgram 7 live_session.
Proof. eexists. split; [vm_compute; reflexivity|]. split; reflexivity. Qed.

(** C4. Every message [_handle_partial_segments] writes to the client is
    a transcript with [is_final = False], whatever the vendor message
    holds (a [has_final] annotation included). *)
Theorem partial_segments_are_never_final
    (E : Env) (self ws : nat) (w : world) (message : value) :
  is_adapter self Speechmatics ws w ->
  exists new,
    history_grows w
      (fst (SpeechmaticsProvider._handle_partial_segments E self message w)) new /\
    Forall (fun ev => exists payload inner,
              fst ev = SendText ws payload /\
              transcript_of payload = Some inner /\
              dict_lookup inner "is_final" = Some (VBool false)) new.
Proof.
  intros Hw.
  destruct (method_history _ _ _ _ _ _ w (partial_segments_method E self ws message) Hw)
    as (new & Hnew & Hall).
  exists new. split; [exact Hnew|].
  eapply Forall_impl; [exact Hall|]. intros ev (segments & l & segment & t & _ & _ & _ & Ht & Hev).
  destruct (partial_transcript_fields _ _ Ht)
    as (inner & text & st & et & sm & em & sp & -> & _ & _ & _ & _ & _ & _ & _ & Hfin & _).
  exists (VDict [("provider", VStr "speechmatics"); ("transcript", VDict inner)]), inner.
  auto.
Qed.

Lemma partial_segments_are_never_final_witness :
  is_adapter 0 Speechmatics 7 two_adapters /\
  exists new,
    history_grows two_adapters
      (fst (SpeechmaticsProvider._handle_partial_segments calm 0
              speechmatics_message two_adapters)) new /\
    Forall (fun ev => exists payload inner,
              fst ev = SendText 7 payload /\
              transcript_of payload = Some inner /\
              dict_lookup inner "is_final" = Some (VBool false)) new.
Proof.
  split; [exact two_adapters_speechmatics|].
  apply (partial_segments_are_never_final calm 0 7 two_adapters speechmatics_message).
  exact two_adapters_speechmatics.
Defined.

(** The segment annotated [has_final] reaches the client as one
    non-final transcript. *)
Example has_final_segment_is_sent_non_final :
  client_received 7
    (fst (SpeechmaticsProvider._handle_partial_segments calm 0
            speechmatics_message two_adapters))
  = [VDict [("provider", VStr "speechmatics");
            ("transcript",
             VDict [("text", VStr "hello there"); ("is_final", VBool false);
                    ("start_ms", whole 2000); ("end_ms", whole 2750);
                    ("speaker", VInt 2)])]].
Proof. vm_compute. reflexivity. Qed.

(** The transcripts [_process_response] writes are [transcript_message]
    of the decoded message and its first alternative. *)
Lemma response_transcripts (E : Env) (self ws : nat) (w : world) (response : string) :
  is_adapter self Deepgram ws w ->
  exists new,
    history_grows w (fst (DeepgramProvider._process_response E self response w)) new /\
    Forall (fun ev => forall payload inner,
              fst ev = SendText ws payload ->
              transcript_of payload = Some inner ->
              exists data alternative text,
                json_loads E response = inr data /\
                first_alternative data = inr alternative /\
                get alternative "transcript" (VStr EmptyString) = inr text /\
                truthy text = true /\
                DeepgramProvider.transcript_message data alternative text
                  = inr payload) new.
Proof.
  intros Hw.
  destruct (method_history _ _ _ _ _ _ w (process_response_method E self ws response) Hw)
    as (new & Hnew & Hall).
  exists new. split; [exact Hnew|].
  eapply Forall_impl; [exact Hall|]. intros ev Hev payload inner Hsend Ht.
  destruct Hev as [(data & t & Hd & Hr & Hev)|(msg & Hev)];
    rewrite Hev in Hsend; injection Hsend as <-.
  - destruct (transcription_result_message _ _ Hr) as (alt & text & H1 & H2 & H3 & H4).
    exists data, alt, text. auto.
  - discriminate.
Qed.

(** C7. Timing.  A Deepgram result whose first alternative has text is
    answered with one transcript event, the first call
    [_process_response] makes, with [start_ms = start * 1000] and
    [end_ms = start_ms + duration * 1000] for the [start] and [duration]
    of that result (a missing field counts as 0); the event is built for
    every result of the documented shape, and a result it cannot be
    built for is answered with the error report alone.  A Speechmatics
    segment handler writes the transcripts of the segments of its
    message, in order; the transcript at position [i] has
    [start_ms = start_time * 1000] and [end_ms = end_time * 1000] for the
    [start_time] and [end_time] of the segment at position [i]; when the
    segments have the documented shape each of them has its transcript.
    With start 1.0 and duration 0.5 the event carries 1000.0 and 1500.0;
    with 2.0 and 2.75, 2000.0 and 2750.0. *)
Theorem timing_is_in_milliseconds
    (E : Env) (sm dg ws : nat) (w : world) :
  is_adapter sm Speechmatics ws w ->
  is_adapter dg Deepgram ws w ->
  (forall response data alternative text,
     json_loads E response = inr data ->
     first_alternative data = inr alternative ->
     get alternative "transcript" (VStr EmptyString) = inr text ->
     truthy text = true ->
     match DeepgramProvider.transcript_message data alternative text with
     | inr t =>
         sent_first E ws t w
           (fst (DeepgramProvider._process_response E dg response w)) /\
         exists inner start duration start_ms duration_ms end_ms,
           transcript_of t = Some inner /\
           get data "start" (VInt 0) = inr start /\
           get data "duration" (VInt 0) = inr duration /\
           mul start (VInt 1000) = inr start_ms /\
           mul duration (VInt 1000) = inr duration_ms /\
           add start_ms duration_ms = inr end_ms /\
           dict_lookup inner "start_ms" = Some start_ms /\
           dict_lookup inner "end_ms" = Some end_ms
     | inl e =>
         calls (fst (DeepgramProvider._process_response E dg response w))
         = calls w ++ failure_report ws e
     end /\
     (plain_result data alternative = true ->
      returns (DeepgramProvider.transcript_message data alternative text))) /\
  (forall k message segments l,
     segment_kind k = true ->
     getitem message "segments" = inr segments ->
     iter segments = inr l ->
     sent_in_order E ws (translations (builder k) l) w
       (fst (SpeechmaticsProvider.handler E sm k message w)) /\
     (forall i t,
        translations (builder k) l !! i = Some t ->
        exists segment inner start_time end_time start_ms end_ms,
          l !! i = Some segment /\
          transcript_of t = Some inner /\
          get segment "start_time" (VInt 0) = inr start_time /\
          get segment "end_time" (VInt 0) = inr end_time /\
          mul start_time (VInt 1000) = inr start_ms /\
          mul end_time (VInt 1000) = inr end_ms /\
          dict_lookup inner "start_ms" = Some start_ms /\
          dict_lookup inner "end_ms" = Some end_ms) /\
     (Forall (fun segment => plain_segment segment = true) l ->
      length (translations (builder k) l) = length l)) /\
  (exists t inner,
     DeepgramProvider.transcription_result deepgram_result = inr (Some t) /\
     transcript_of t = Some inner /\
     dict_lookup inner "start_ms" = Some (whole 1000) /\
     dict_lookup inner "end_ms" = Some (whole 1500)) /\
  (exists t inner,
     SpeechmaticsProvider.final_transcript speechmatics_segment = inr t /\
     transcript_of t = Some inner /\
     dict_lookup inner "start_ms" = Some (whole 2000) /\
     dict_lookup inner "end_ms" = Some (whole 2750)).
Proof.
  intros Hsm Hdg. split; [|split; [|split]].
  - intros response data alternative text Hd Ha Htext Htr.
    split; [|apply transcript_message_plain].
    pose proof (process_response_text E ws dg response w data alternative text
                  Hdg Hd Ha Htext Htr) as Hrun.
    destruct (DeepgramProvider.transcript_message data alternative text)
      as [e|t] eqn:Hm; [exact Hrun|].
    split; [exact Hrun|].
    destruct (transcript_message_fields _ _ _ _ Hm)
      as (inner & fin & st & du & sms & dms & ems & cf & sp & -> & _ & H1 & H2 & H3
          & H4 & H5 & _ & _ & _ & _ & H6 & H7 & _).
    exists inner, st, du, sms, dms, ems. auto 10.
  - intros k message segments l Hk Hseg Hl. split; [|split].
    + exact (SegmentFacts.handler_sends E sm ws k message segments l w Hk Hsm Hseg Hl).
    + intros i t Ht.
      destruct (translations_lookup _ _ _ _ Ht) as (segment & Hi & Hb).
      destruct k; try discriminate; cbn [builder] in Hb.
      * destruct (partial_transcript_fields _ _ Hb)
          as (inner & text & st & et & sms & ems & sp & -> & _ & H1 & H2 & H3 & H4
              & _ & _ & _ & H5 & H6 & _).
        exists segment, inner, st, et, sms, ems. auto 10.
      * destruct (final_transcript_fields _ _ Hb)
          as (inner & text & st & et & sms & ems & cf & sp & -> & _ & H1 & H2 & H3
              & H4 & _ & _ & _ & _ & H5 & H6 & _).
        exists segment, inner, st, et, sms, ems. auto 10.
    + intros Hplain. apply translations_all.
      eapply Forall_impl; [exact Hplain|]. intros segment. apply builder_plain.
  - eexists _, _. split; [vm_compute; reflexivity|]. repeat split; reflexivity.
  - eexists _, _. split; [vm_compute; reflexivity|]. repeat split; reflexivity.
Qed.

Lemma timing_is_in_milliseconds_witness :
  is_adapter 0 Speechmatics 7 two_adapters /\
  is_adapter 1 Deepgram 7 two_adapters /\
  (exists t,
     DeepgramProvider.transcript_message deepgram_result deepgram_alternative
       (VStr "good morning all") = inr t /\
     sent_first decoding 7 t two_adapters
       (fst (DeepgramProvider._process_response decoding 1 "r" two_adapters))) /\
  sent_in_order decoding 7
    (translations (builder ADD_SEGMENT) [speechmatics_segment]) two_adapters
    (fst (SpeechmaticsProvider.handler decoding 0 ADD_SEGMENT speechmatics_message
            two_adapters)) /\
  length (translations (builder ADD_SEGMENT) [speechmatics_segment]) = 1%nat.
Proof.
  split; [exact two_adapters_speechmatics|].
  split; [exact two_adapters_deepgram|].
  pose proof (timing_is_in_milliseconds decoding 0 1 7 two_adapters
                two_adapters_speechmatics two_adapters_deepgram) as (Hdg & Hsm & _).
  split.
  - destruct (Hdg "r" deepgram_result deepgram_alternative
                (VStr "good morning all") eq_refl eq_refl eq_refl eq_refl)
      as (H & _).
    destruct (DeepgramProvider.transcript_message deepgram_result deepgram_alternative
                (VStr "good morning all")) as [e|t] eqn:Ht.
    + vm_compute in Ht. discriminate.
    + exists t. split; [reflexivity | exact (proj1 H)].
  - destruct (Hsm ADD_SEGMENT speechmatics_message
                (VList [speechmatics_segment]) [speechmatics_segment]
                eq_refl eq_refl eq_refl) as (Hsent & _ & Hall).
    split; [exact Hsent|]. apply Hall. repeat constructor.
Defined.

(** The Deepgram sample reaches the client with 1000.0 and 1500.0. *)
Example deepgram_sample_timing :
  exists t inner,
    client_received 7
      (fst (DeepgramProvider._process_response decoding 1 "r" two_adapters)) = [t] /\
    transcript_of t = Some inner /\
    dict_lookup inner "start_ms" = Some (whole 1000) /\
    dict_lookup inner "end_ms" = Some (whole 1500).
Proof. eexists _, _. split; [vm_compute; reflexivity|]. repeat split; reflexivity. Qed.

(** C6. A Deepgram result whose first alternative has a non-empty
    transcript is answered with one transcript event, the first call
    [_process_response] makes, and the speaker of that event follows
    [speaker_rule] for that alternative: the utterance-level speaker when
    the utterance has one; otherwise the most frequent speaker tag of its
    words, the first met among the most frequent; no speaker field when
    there is no tag.  The event is built for every result of the
    documented shape; a result it cannot be built for is answered with
    the error report alone. *)
Theorem deepgram_speaker_attribution
    (E : Env) (self ws : nat) (w : world) (response : string)
    (data alternative text : value) :
  is_adapter self Deepgram ws w ->
  json_loads E response = inr data ->
  first_alternative data = inr alternative ->
  get alternative "transcript" (VStr EmptyString) = inr text ->
  truthy text = true ->
  match DeepgramProvider.transcript_message data alternative text with
  | inr t =>
      sent_first E ws t w
        (fst (DeepgramProvider._process_response E self response w)) /\
      exists inner,
        transcript_of t = Some inner /\
        speaker_rule alternative (dict_lookup inner "speaker")
  | inl e =>
      calls (fst (DeepgramProvider._process_response E self response w))
      = calls w ++ failure_report ws e
  end /\
  (plain_result data alternative = true ->
   returns (DeepgramProvider.transcript_message data alternative text)).
Proof.
  intros Hw Hd Ha Htext Htr.
  split; [|apply transcript_message_plain].
  pose proof (process_response_text E ws self response w data alternative text
                Hw Hd Ha Htext Htr) as Hrun.
  destruct (DeepgramProvider.transcript_message data alternative text)
    as [e|t] eqn:Hm; [exact Hrun|].
  split; [exact Hrun|].
  destruct (transcript_message_fields _ _ _ _ Hm)
    as (inner & fin & st & du & sms & dms & ems & cf & sp & -> & _ & _ & _ & _
        & _ & _ & _ & Hsp & _ & _ & _ & _ & _ & Hfield).
  exists inner. split; [reflexivity|].
  rewrite Hfield. apply utterance_speaker_rule. exact Hsp.
Qed.

Lemma deepgram_speaker_attribution_witness :
  is_adapter 1 Deepgram 7 two_adapters /\
  plain_result deepgram_result deepgram_alternative = true /\
  exists t inner,
    DeepgramProvider.transcript_message deepgram_result deepgram_alternative
      (VStr "good morning all") = inr t /\
    sent_first decoding 7 t two_adapters
      (fst (DeepgramProvider._process_response decoding 1 "r" two_adapters)) /\
    transcript_of t = Some inner /\
    speaker_rule deepgram_alternative (dict_lookup inner "speaker").
Proof.
  split; [exact two_adapters_deepgram|]. split; [reflexivity|].
  destruct (deepgram_speaker_attribution decoding 1 7 two_adapters "r"
              deepgram_result deepgram_alternative (VStr "good morning all")
              two_adapters_deepgram eq_refl eq_refl eq_refl eq_refl) as (H & _).
  destruct (DeepgramProvider.transcript_message deepgram_result deepgram_alternative
              (VStr "good morning all")) as [e|t] eqn:Ht.
  - vm_compute in Ht. discriminate.
  - destruct H as (Hsent & inner & Hinner & Hrule).
    exists t, inner. auto.
Defined.

(** Words tagged with the speakers 1, 1 and 2 give the speaker 1, and so
    does the tie 1, 2, 2, 1, where 1 is met first. *)
Example word_speakers_1_1_2 :
  (exists t inner,
     client_received 7
       (fst (DeepgramProvider._process_response decoding 1 "r" two_adapters)) = [t] /\
     transcript_of t = Some inner /\
     dict_lookup inner "speaker" = Some (VInt 1)) /\
  most_common_elem [VInt 1; VInt 1; VInt 2] = inr (VInt 1) /\
  most_common_elem [VInt 1; VInt 2; VInt 2; VInt 1] = inr (VInt 1).
Proof.
  split; [|split; vm_compute; reflexivity].
  eexists _, _. split; [vm_compute; reflexivity|]. split; reflexivity.
Qed.

(** C8, as the code has it.  The transcript event that answers a
    Deepgram result, and the transcript [_handle_final_segments] writes
    for the segment at each position of its message, always carry a
    [confidence] field: the value of the first alternative, or of that
    segment, and [0.0] when it has none.  The transcripts
    [_handle_partial_segments] writes never carry one.  The handlers
    write a transcript for every segment of the documented shape, in the
    order of the message. *)
Theorem confidence_defaults_to_zero
    (E : Env) (sm dg ws : nat) (w : world) :
  is_adapter sm Speechmatics ws w ->
  is_adapter dg Deepgram ws w ->
  (forall response data alternative text,
     json_loads E response = inr data ->
     first_alternative data = inr alternative ->
     get alternative "transcript" (VStr EmptyString) = inr text ->
     truthy text = true ->
     match DeepgramProvider.transcript_message data alternative text with
     | inr t =>
         sent_first E ws t w
           (fst (DeepgramProvider._process_response E dg response w)) /\
         exists inner,
           transcript_of t = Some inner /\
           dict_lookup inner "confidence" =
           Some (match field alternative "confidence" with
                 | Some c => c
                 | None => VFloat (S754_zero false)
                 end)
     | inl e =>
         calls (fst (DeepgramProvider._process_response E dg response w))
         = calls w ++ failure_report ws e
     end /\
     (plain_result data alternative = true ->
      returns (DeepgramProvider.transcript_message data alternative text))) /\
  (forall message segments l,
     getitem message "segments" = inr segments ->
     iter segments = inr l ->
     sent_in_order E ws (translations SpeechmaticsProvider.final_transcript l) w
       (fst (SpeechmaticsProvider._handle_final_segments E sm message w)) /\
     (forall i t,
        translations SpeechmaticsProvider.final_transcript l !! i = Some t ->
        exists segment inner,
          l !! i = Some segment /\
          transcript_of t = Some inner /\
          dict_lookup inner "confidence" =
          Some (match field segment "confidence" with
                | Some c => c
                | None => VFloat (S754_zero false)
                end)) /\
     (Forall (fun segment => plain_segment segment = true) l ->
      length (translations SpeechmaticsProvider.final_transcript l) = length l)) /\
  (forall message segments l,
     getitem message "segments" = inr segments ->
     iter segments = inr l ->
     sent_in_order E ws (translations SpeechmaticsProvider.partial_transcript l) w
       (fst (SpeechmaticsProvider._handle_partial_segments E sm message w)) /\
     (forall i t,
        translations SpeechmaticsProvider.partial_transcript l !! i = Some t ->
        exists inner,
          transcript_of t = Some inner /\
          dict_lookup inner "confidence" = None) /\
     (Forall (fun segment => plain_segment segment = true) l ->
      length (translations SpeechmaticsProvider.partial_transcript l) = length l)).
Proof.
  intros Hsm Hdg.
  assert (Hget : forall x c, get x "confidence" (VFloat (S754_zero false)) = inr c ->
            c = match field x "confidence" with
                | Some c => c
                | None => VFloat (S754_zero false)
                end).
  { intros x c Hx. destruct x; try discriminate. cbn in Hx |- *.
    unfold ok in Hx. congruence. }
  split; [|split].
  - intros response data alternative text Hd Ha Htext Htr.
    split; [|apply transcript_message_plain].
    pose proof (process_response_text E ws dg response w data alternative text
                  Hdg Hd Ha Htext Htr) as Hrun.
    destruct (DeepgramProvider.transcript_message data alternative text)
      as [e|t] eqn:Hm; [exact Hrun|].
    split; [exact Hrun|].
    destruct (transcript_message_fields _ _ _ _ Hm)
      as (inner & fin & st & du & sms & dms & ems & cf & sp & -> & _ & _ & _ & _
          & _ & _ & Hcf & _ & _ & _ & _ & _ & Hfield & _).
    exists inner. split; [reflexivity|].
    rewrite Hfield. f_equal. apply Hget. exact Hcf.
  - intros message segments l Hseg Hl. split; [|split].
    + exact (SegmentFacts.handler_sends E sm ws ADD_SEGMENT message segments l w
               eq_refl Hsm Hseg Hl).
    + intros i t Ht.
      destruct (translations_lookup _ _ _ _ Ht) as (segment & Hi & Hb).
      destruct (final_transcript_fields _ _ Hb)
        as (inner & text & st & et & sms & ems & cf & sp & -> & _ & _ & _ & _ & _
            & Hcf & _ & _ & _ & _ & _ & Hfield & _).
      exists segment, inner. split; [exact Hi|]. split; [reflexivity|].
      rewrite Hfield. f_equal. apply Hget. exact Hcf.
    + intros Hplain. apply translations_all.
      eapply Forall_impl; [exact Hplain|]. intros segment.
      apply (builder_plain ADD_SEGMENT).
  - intros message segments l Hseg Hl. split; [|split].
    + exact (SegmentFacts.handler_sends E sm ws ADD_PARTIAL_SEGMENT message segments
               l w eq_refl Hsm Hseg Hl).
    + intros i t Ht.
      destruct (translations_lookup _ _ _ _ Ht) as (segment & Hi & Hb).
      destruct (partial_transcript_fields _ _ Hb)
        as (inner & text & st & et & sms & ems & sp & -> & _ & _ & _ & _ & _
            & _ & _ & _ & _ & _ & Hfield & _).
      exists inner. split; [reflexivity | exact Hfield].
    + intros Hplain. apply translations_all.
      eapply Forall_impl; [exact Hplain|]. intros segment.
      apply (builder_plain ADD_PARTIAL_SEGMENT).
Qed.

Lemma confidence_defaults_to_zero_witness :
  is_adapter 0 Speechmatics 7 two_adapters /\
  is_adapter 1 Deepgram 7 two_adapters /\
  field speechmatics_segment "confidence" = None /\
  sent_in_order calm 7
    (translations SpeechmaticsProvider.final_transcript [speechmatics_segment])
    two_adapters
    (fst (SpeechmaticsProvider._handle_final_segments calm 0 speechmatics_message
            two_adapters)) /\
  (exists t inner,
     translations SpeechmaticsProvider.final_transcript [speechmatics_segment]
       !! 0%nat = Some t /\
     transcript_of t = Some inner /\
     dict_lookup inner "confidence" = Some (VFloat (S754_zero false))) /\
  sent_in_order calm 7
    (translations SpeechmaticsProvider.partial_transcript [speechmatics_segment])
    two_adapters
    (fst (SpeechmaticsProvider._handle_partial_segments calm 0 speechmatics_message
            two_adapters)).
Proof.
  split; [exact two_adapters_speechmatics|].
  split; [exact two_adapters_deepgram|].
  split; [reflexivity|].
  pose proof (confidence_defaults_to_zero calm 0 1 7 two_adapters
                two_adapters_speechmatics two_adapters_deepgram) as (_ & Hfin & Hpar).
  destruct (Hfin speechmatics_message (VList [speechmatics_segment])
              [speechmatics_segment] eq_refl eq_refl) as (Hsent & Hconf & _).
  destruct (Hpar speechmatics_message (VList [speechmatics_segment])
              [speechmatics_segment] eq_refl eq_refl) as (Hsent' & _).
  split; [exact Hsent|]. split; [|exact Hsent'].
  destruct (translations SpeechmaticsProvider.final_transcript [speechmatics_segment]
              !! 0%nat) as [t|] eqn:Ht.
  - destruct (Hconf 0%nat t Ht) as (segment & inner & Hi & Hinner & Hc).
    injection Hi as <-. exists t, inner. auto.
  - vm_compute in Ht. discriminate.
Defined.

(** C8, as the specification states it, fails: the Deepgram sample has
    no confidence, and the event the client receives carries
    [confidence = 0.0]; likewise for a final Speechmatics segment. *)
Lemma confidence_is_not_omitted :
  field deepgram_alternative "confidence" = None /\
  field speechmatics_segment "confidence" = None /\
  (exists t inner,
     client_received 7
       (fst (DeepgramProvider._process_response decoding 1 "r" two_adapters)) = [t] /\
     transcript_of t = Some inner /\
     dict_lookup inner "confidence" = Some (VFloat (S754_zero false))) /\
  (exists t inner,
     client_received 7
       (fst (SpeechmaticsProvider._handle_final_segments calm 0
               speechmatics_message two_adapters)) = [t] /\
     transcript_of t = Some inner /\
     dict_lookup inner "confidence" = Some (VFloat (S754_zero false))).
Proof.
  split; [reflexivity|]. split; [reflexivity|].
  split; eexists _, _; (split; [vm_compute; reflexivity|]); split; reflexivity.
Qed.

(** C5, at the input where the code departs from it.  The speaker label
    ["Sam"] starts with [S]: [int("am")] raises [ValueError], the
    handler's [except] logs it, and nothing is written to the client,
    neither for this segment nor for the well-formed one after it. *)
Theorem speaker_label_aborts_handler :
  SpeechmaticsProvider.segment_speaker named_speaker_segment
    = inl (Exn ValueError "invalid literal for int() with base 10: 'am'") /\
  (let w' := fst (SpeechmaticsProvider._handle_final_segments calm 0
                    named_speaker_message two_adapters) in
   calls w' = [] /\
   hd_error (log w')
     = Some (ERROR, "Error handling final segments: invalid literal for int() with base 10: 'am'")) /\
  (let w' := fst (SpeechmaticsProvider._handle_partial_segments calm 0
                    named_speaker_message two_adapters) in
   calls w' = [] /\
   hd_error (log w')
     = Some (ERROR, "Error handling partial segments: invalid literal for int() with base 10: 'am'")) /\
  SpeechmaticsProvider.segment_speaker speechmatics_segment = inr (Some (VInt 2)).
Proof. repeat split; vm_compute; reflexivity. Qed.

Import Outcomes ConnectFacts ManagerFacts.

(** C2, as the code has it.  For a configuration whose [audio] and
    provider entries, when present, are objects, on a live client
    channel, [initialize_providers] returns normally and, with [S] the
    providers whose entry carries a non-empty [apiKey]:
    - the adapters constructed are one per provider of [S], in the order
      Speechmatics, Deepgram, all owned by this client;
    - every call to a vendor goes to the vendor of a provider of [S];
    - a provider of [S] has its new adapter stored in the session, and
      the adapter is connected or its failure has been reported;
    - for a provider outside [S] the client receives the event
      [{"provider": p, "error": "API key not provided"}] exactly once and
      the session keeps what it had stored for [p]. *)
Theorem only_providers_with_a_key_are_activated
    (E : Env) (ws : nat) (config : value) (w : world) (cd : connection_data) :
  active_connections w !! ws = Some cd ->
  config_ok config = true ->
  client_accepts E ws ->
  let w' := fst (ConnectionManager.initialize_providers E ws config w) in
  snd (ConnectionManager.initialize_providers E ws config w) = inr tt /\
  (exists created,
     objects w' = objects w ++ created /\
     map cls created
       = filter (fun p => has_api_key config p = true) [Speechmatics; Deepgram] /\
     Forall (fun a => websocket a = ws) created) /\
  Forall (fun ev => forall p, call_provider (fst ev) = Some p ->
                    has_api_key config p = true) (added w w') /\
  forall p,
    if has_api_key config p
    then exists self a cd',
           active_connections w' !! ws = Some cd' /\
           ConnectionManager.cd_provider p cd' = Some self /\
           (length (objects w) <= self)%nat /\
           objects w' !! self = Some a /\ cls a = p /\ websocket a = ws /\
           (is_connected a = true \/
            exists e o, In (SendText ws (error_event p ("Connection failed: "
                                                        ++ exn_str e)), o)
                           (added w w')) /\
           key_missing_count p ws w' = key_missing_count p ws w
    else key_missing_count p ws w' = S (key_missing_count p ws w) /\
         exists cd', active_connections w' !! ws = Some cd' /\
                     ConnectionManager.cd_provider p cd'
                     = ConnectionManager.cd_provider p cd.
Proof.
  intros Hcd Hok Hclient.
  destruct (initialize_providers_run E ws config w cd Hcd Hok Hclient)
    as (w1 & w2 & Hrun & Hb1 & Hb2).
  rewrite Hrun. cbn [fst snd]. split; [reflexivity|].
  set (w0 := with_connections _ w) in Hb1.
  assert (Hcd0 : active_connections w0 !! ws
                 = Some (ConnectionManager.set_cd_config (Some config) cd))
    by (cbn; apply lookup_insert_eq).
  destruct (block_post_state _ _ _ _ _ _ Hb1 Hcd0)
    as (cd1 & cr1 & Hcd1 & Ho1 & Hcls1 & Hws1 & Hoth1 & Hsto1).
  destruct (block_post_state _ _ _ _ _ _ Hb2 Hcd1)
    as (cd2 & cr2 & Hcd2 & Ho2 & Hcls2 & Hws2 & Hoth2 & Hsto2).
  destruct (block_post_history _ _ _ _ _ Hb1) as (n1 & Hg1 & Hv1 & Hk1 & Hc1).
  destruct (block_post_history _ _ _ _ _ Hb2) as (n2 & Hg2 & Hv2 & Hk2 & Hc2).
  assert (Hg : history_grows w w2 (n2 ++ n1)).
  { change (history_grows w0 w2 (n2 ++ n1)). eapply history_trans; eauto. }
  rewrite (added_grows _ _ _ Hg).
  change (objects w0) with (objects w) in *.
  assert (Hcount : forall p,
            key_missing_count p ws w2
            = (key_missing_count p ws w + key_missing_among p ws n1
               + key_missing_among p ws n2)%nat).
  { intros p. rewrite (key_missing_count_grows _ _ _ _ _ Hg), key_missing_among_app. lia. }
  split; [|split].
  - exists (cr1 ++ cr2). rewrite Ho2, Ho1, <- app_assoc.
    split; [reflexivity|]. split; [|apply Forall_app; auto].
    rewrite map_app, Hcls1, Hcls2, !filter_cons, filter_nil.
    destruct (has_api_key config Speechmatics), (has_api_key config Deepgram);
      repeat (destruct (decide _); try congruence); reflexivity.
  - apply Forall_app. split.
    + eapply Forall_impl; [exact Hv2|]. intros ev H p Hp.
      destruct (H p Hp) as (-> & Hkey). exact Hkey.
    + eapply Forall_impl; [exact Hv1|]. intros ev H p Hp.
      destruct (H p Hp) as (-> & Hkey). exact Hkey.
  - intros p. destruct (has_api_key config p) eqn:Hkey.
    + destruct p.
      * (* Speechmatics: stored by the first block, kept by the second *)
        destruct (Hc1 Hkey) as (a & Ha & Hh).
        rewrite Hkey in Hsto1, Hcls1.
        exists (length (objects w)), a, cd2.
        split; [exact Hcd2|].
        split; [rewrite Hoth2 by discriminate; exact Hsto1|].
        split; [lia|].
        assert (Hcr1 : cr1 = [a]).
        { rewrite Ho1 in Ha. rewrite lookup_app_r in Ha by lia.
          rewrite Nat.sub_diag in Ha. destruct cr1 as [|x [|y cr1]]; try discriminate.
          cbn in Ha. congruence. }
        subst cr1.
        split; [rewrite Ho2, Ho1, <- app_assoc, lookup_app_r by lia;
                rewrite Nat.sub_diag; reflexivity|].
        cbn in Hcls1. injection Hcls1 as Hcls1.
        split; [exact Hcls1|].
        split; [apply Forall_cons in Hws1 as (H & _); exact H|].
        split.
        -- destruct Hh as [(Hi & _)|(_ & e & o & rest & -> & _)]; [left; exact Hi|].
           right. exists e, o. apply in_or_app. right. left. reflexivity.
        -- rewrite Hcount, Hk1, Hk2, Hkey.
           rewrite (bool_decide_eq_false_2 (Speechmatics = Deepgram)) by discriminate.
           destruct (has_api_key config Deepgram); lia.
      * (* Deepgram: stored by the second block *)
        destruct (Hc2 Hkey) as (a & Ha & Hh).
        rewrite Hkey in Hsto2, Hcls2.
        exists (length (objects w1)), a, cd2.
        split; [exact Hcd2|]. split; [exact Hsto2|].
        split; [rewrite Ho1, length_app; lia|].
        split; [exact Ha|].
        assert (Hcr2 : cr2 = [a]).
        { rewrite Ho2 in Ha. rewrite lookup_app_r in Ha by lia.
          rewrite Nat.sub_diag in Ha. destruct cr2 as [|x [|y cr2]]; try discriminate.
          cbn in Ha. congruence. }
        subst cr2. cbn in Hcls2. injection Hcls2 as Hcls2.
        split; [exact Hcls2|].
        split; [apply Forall_cons in Hws2 as (H & _); exact H|].
        split.
        -- destruct Hh as [(Hi & _)|(_ & e & o & rest & -> & _)]; [left; exact Hi|].
           right. exists e, o. apply in_or_app. left. left. reflexivity.
        -- rewrite Hcount, Hk1, Hk2, Hkey.
           rewrite (bool_decide_eq_false_2 (Deepgram = Speechmatics)) by discriminate.
           destruct (has_api_key config Speechmatics); lia.
    + split.
      * rewrite Hcount, Hk1, Hk2.
        destruct p; rewrite Hkey;
          rewrite ?(bool_decide_eq_false_2 (Speechmatics = Deepgram)) by discriminate;
          rewrite ?(bool_decide_eq_false_2 (Deepgram = Speechmatics)) by discriminate;
          rewrite ?(bool_decide_eq_true_2 (Speechmatics = Speechmatics)) by reflexivity;
          rewrite ?(bool_decide_eq_true_2 (Deepgram = Deepgram)) by reflexivity;
          [destruct (has_api_key config Deepgram)
          |destruct (has_api_key config Speechmatics)]; lia.
      * exists cd2. split; [exact Hcd2|].
        destruct p.
        -- rewrite Hoth2 by discriminate. rewrite Hsto1, Hkey. destruct cd; reflexivity.
        -- rewrite Hsto2, Hkey. rewrite Hoth1 by discriminate. destruct cd; reflexivity.
Qed.

Lemma session_world_session :
  active_connections session_world !! 7%nat = Some fresh_session.
Proof. apply lookup_insert_eq. Qed.

Lemma session_world_ok : sessions_ok session_world.
Proof.
  intros ws cd p self Hcd Hp. cbn in Hcd.
  destruct (decide (ws = 7%nat)) as [->|Hne].
  - rewrite lookup_insert_eq in Hcd. injection Hcd as <-. destruct p; discriminate.
  - rewrite lookup_insert_ne in Hcd by congruence. rewrite lookup_empty in Hcd.
    discriminate.
Qed.

Lemma calm_client_accepts ws : client_accepts calm ws.
Proof. intros t v. eexists. reflexivity. Qed.

Lemma refusing_client_accepts ws : client_accepts refusing ws.
Proof. intros t v. eexists. reflexivity. Qed.

Lemma only_providers_with_a_key_are_activated_witness :
  active_connections session_world !! 7%nat = Some fresh_session /\
  config_ok deepgram_only = true /\
  client_accepts calm 7 /\
  key_missing_count Speechmatics 7
    (fst (ConnectionManager.initialize_providers calm 7 deepgram_only session_world))
  = 1%nat.
Proof.
  split; [exact session_world_session|]. split; [reflexivity|].
  split; [exact (calm_client_accepts 7)|].
  destruct (only_providers_with_a_key_are_activated calm 7 deepgram_only
              session_world fresh_session session_world_session eq_refl
              (calm_client_accepts 7)) as (_ & _ & _ & H).
  specialize (H Speechmatics). cbn in H. destruct H as (H & _). exact H.
Defined.

(** C2, as the specification states it, fails: in the configuration
    [{"speechmatics": {"apiKey": "k"}, "deepgram": null}] only
    Speechmatics carries a key, and the entry of Deepgram is not an
    object.  The Speechmatics adapter is constructed; then reading the
    key of Deepgram raises, the one [except] of [initialize_providers]
    answers with "Failed to initialize providers", and the client never
    receives "API key not provided" for Deepgram. *)
Lemma null_entry_gets_no_key_event :
  let config := VDict [("speechmatics", VDict [("apiKey", VStr "k")]);
                       ("deepgram", VNone)] in
  let w' := fst (ConnectionManager.initialize_providers calm 7 config
                   session_world) in
  config_ok config = false /\
  has_api_key config Speechmatics = true /\
  has_api_key config Deepgram = false /\
  map cls (objects w') = [Speechmatics] /\
  client_received 7 w'
  = [VDict [("error",
             VStr "Failed to initialize providers: 'NoneType' object has no attribute 'get'")]] /\
  key_missing_count Deepgram 7 w' = 0%nat.
Proof. vm_compute. repeat split; reflexivity. Qed.

(** The scenario of the specification: a configuration with Deepgram
    credentials only yields one "API key not provided" for Speechmatics
    and a connected Deepgram adapter. *)
Example deepgram_only_scenario :
  let w' := fst (ConnectionManager.initialize_providers calm 7 deepgram_only
                   session_world) in
  client_received 7 w' = [key_missing_event Speechmatics] /\
  map cls (objects w') = [Deepgram] /\
  map is_connected (objects w') = [true].
Proof. vm_compute. repeat split; reflexivity. Qed.

(** C10. When the connect of the adapter of [p] fails (a call to the
    vendor of [p] raises [e] while the configuration is processed),
    [initialize_providers] still returns normally, the failure is
    reported to the client as "Connection failed: ...", and the adapter
    is stored in the session with [is_connected] false.  From then on
    [send_audio] on it does nothing at all, and [stop_providers] still
    calls its [disconnect]. *)
Theorem failed_connect_leaves_the_adapter_stored
    (E : Env) (ws : nat) (config : value) (w : world) (cd : connection_data)
    (p : provider) (call : call) (e : exn) :
  active_connections w !! ws = Some cd ->
  sessions_ok w ->
  config_ok config = true ->
  client_accepts E ws ->
  let w' := fst (ConnectionManager.initialize_providers E ws config w) in
  In (call, inl e) (added w w') ->
  call_provider call = Some p ->
  snd (ConnectionManager.initialize_providers E ws config w) = inr tt /\
  exists self a cd',
    active_connections w' !! ws = Some cd' /\
    ConnectionManager.cd_provider p cd' = Some self /\
    objects w' !! self = Some a /\ cls a = p /\
    is_connected a = false /\
    (exists o, In (SendText ws (error_event p ("Connection failed: " ++ exn_str e)), o)
                  (added w w')) /\
    (forall audio_data,
       ConnectionManager.provider_send_audio E self audio_data w' = (w', inr tt)) /\
    snd (ConnectionManager.stop_providers E ws w') = inr tt /\
    exists line,
      In line (logged w' (fst (ConnectionManager.stop_providers E ws w'))) /\
      disconnect_line p line.
Proof.
  intros Hcd Hok Hcfg Hclient.
  destruct (initialize_providers_run E ws config w cd Hcd Hcfg Hclient)
    as (w1 & w2 & Hrun & Hb1 & Hb2).
  rewrite Hrun. cbn [fst snd].
  set (w0 := with_connections _ w) in Hb1.
  assert (Hcd0 : active_connections w0 !! ws
                 = Some (ConnectionManager.set_cd_config (Some config) cd))
    by (cbn; apply lookup_insert_eq).
  pose proof (sessions_ok_config ws config cd w Hok Hcd) as Hok0.
  pose proof (block_post_sessions_ok _ _ _ _ _ Hok0 Hb1) as Hok1.
  pose proof (block_post_sessions_ok _ _ _ _ _ Hok1 Hb2) as Hok2.
  destruct (block_post_state _ _ _ _ _ _ Hb1 Hcd0)
    as (cd1 & cr1 & Hcd1 & Ho1 & Hcls1 & Hws1 & Hoth1 & Hsto1).
  destruct (block_post_state _ _ _ _ _ _ Hb2 Hcd1)
    as (cd2 & cr2 & Hcd2 & Ho2 & Hcls2 & Hws2 & Hoth2 & Hsto2).
  destruct (block_post_history _ _ _ _ _ Hb1) as (n1 & Hg1 & Hv1 & Hk1 & Hc1).
  destruct (block_post_history _ _ _ _ _ Hb2) as (n2 & Hg2 & Hv2 & Hk2 & Hc2).
  assert (Hg : history_grows w w2 (n2 ++ n1)).
  { change (history_grows w0 w2 (n2 ++ n1)). eapply history_trans; eauto. }
  rewrite (added_grows _ _ _ Hg).
  change (objects w0) with (objects w) in *.
  intros Hin Hp. split; [reflexivity|].
  (* the failed call belongs to the block of [p], which had a key *)
  assert (Hfailed : forall q n (a : adapter),
            In (call, inl e) n ->
            Forall (fun ev => forall q', call_provider (fst ev) = Some q' ->
                              q' = q) n ->
            connect_history q ws (is_connected a) n ->
            q = p /\ is_connected a = false /\
            exists o, In (SendText ws (error_event p ("Connection failed: "
                                                      ++ exn_str e)), o) n).
  { intros q n a Hn Hv Hh. rewrite Forall_forall in Hv.
    destruct (Hv (call, inl e) (proj2 (list_elem_of_In _ _) Hn) p Hp).
    split; [reflexivity|].
    destruct Hh as [(_ & Hall)|(Hi & e0 & o & rest & -> & _ & Hsame)].
    - rewrite Forall_forall in Hall.
      destruct (Hall (call, inl e) (proj2 (list_elem_of_In _ _) Hn)) as (_ & r & Hr).
      discriminate.
    - split; [exact Hi|]. destruct Hn as [Hn|Hn].
      + injection Hn as <- _. discriminate.
      + rewrite (Hsame call e Hn). exists o. left. reflexivity. }
  assert (Hidle : forall a : adapter, is_connected a = false ->
                                      in_connected_state a = false).
  { intros a Hi. unfold in_connected_state. rewrite Hi. reflexivity. }
  apply in_app_or in Hin as [Hin|Hin].
  - (* in the Deepgram block *)
    destruct (has_api_key config Deepgram) eqn:Hkey.
    2:{ exfalso. rewrite Forall_forall in Hv2.
        destruct (Hv2 (call, inl e) (proj2 (list_elem_of_In _ _) Hin) p Hp) as (_ & H).
        discriminate. }
    destruct (Hc2 eq_refl) as (a & Ha & Hh).
    assert (Hv2' : Forall (fun ev => forall q', call_provider (fst ev) = Some q' ->
                                     q' = Deepgram) n2)
      by (eapply Forall_impl; [exact Hv2|]; intros ev H q' Hq'; apply (H q' Hq')).
    destruct (Hfailed Deepgram n2 a Hin Hv2' Hh)
      as (<- & Hi & o & Hsent).
    assert (Hcr2 : cr2 = [a]).
    { rewrite Ho2 in Ha. rewrite lookup_app_r in Ha by lia.
      rewrite Nat.sub_diag in Ha. destruct cr2 as [|x [|y cr2]]; try discriminate.
      cbn in Ha. congruence. }
    subst cr2. cbn in Hcls2. injection Hcls2 as Hcls2.
    exists (length (objects w1)), a, cd2.
    split; [exact Hcd2|]. split; [exact Hsto2|]. split; [exact Ha|].
    split; [exact Hcls2|]. split; [exact Hi|].
    split; [exists o; apply in_or_app; left; exact Hsent|].
    split; [intros d; eapply provider_send_audio_idle; eauto|].
    eapply stop_disconnects_stored; eauto.
  - (* in the Speechmatics block *)
    destruct (has_api_key config Speechmatics) eqn:Hkey.
    2:{ exfalso. rewrite Forall_forall in Hv1.
        destruct (Hv1 (call, inl e) (proj2 (list_elem_of_In _ _) Hin) p Hp) as (_ & H).
        discriminate. }
    destruct (Hc1 eq_refl) as (a & Ha & Hh).
    assert (Hv1' : Forall (fun ev => forall q', call_provider (fst ev) = Some q' ->
                                     q' = Speechmatics) n1)
      by (eapply Forall_impl; [exact Hv1|]; intros ev H q' Hq'; apply (H q' Hq')).
    destruct (Hfailed Speechmatics n1 a Hin Hv1' Hh)
      as (<- & Hi & o & Hsent).
    assert (Ha2 : objects w2 !! length (objects w) = Some a).
    { rewrite Ho2. rewrite lookup_app_l by (eapply lookup_lt_Some; eauto). exact Ha. }
    assert (Hcr1 : cr1 = [a]).
    { rewrite Ho1 in Ha. rewrite lookup_app_r in Ha by lia.
      rewrite Nat.sub_diag in Ha. destruct cr1 as [|x [|y cr1]]; try discriminate.
      cbn in Ha. congruence. }
    subst cr1. cbn in Hcls1. injection Hcls1 as Hcls1.
    assert (Hstored : ConnectionManager.cd_provider Speechmatics cd2
                      = Some (length (objects w)))
      by (rewrite Hoth2 by discriminate; exact Hsto1).
    exists (length (objects w)), a, cd2.
    split; [exact Hcd2|]. split; [exact Hstored|]. split; [exact Ha2|].
    split; [exact Hcls1|]. split; [exact Hi|].
    split; [exists o; apply in_or_app; right; exact Hsent|].
    split; [intros d; eapply provider_send_audio_idle; eauto|].
    eapply stop_disconnects_stored; eauto.
Qed.

Lemma failed_connect_leaves_the_adapter_stored_witness :
  active_connections session_world !! 7%nat = Some fresh_session /\
  sessions_ok session_world /\
  config_ok deepgram_only = true /\
  client_accepts refusing 7 /\
  In (refused_connect, inl refusal)
     (added session_world
        (fst (ConnectionManager.initialize_providers refusing 7 deepgram_only
                session_world))) /\
  call_provider refused_connect = Some Deepgram /\
  snd (ConnectionManager.initialize_providers refusing 7 deepgram_only session_world)
  = inr tt.
Proof.
  assert (Hin : In (refused_connect, inl refusal)
                   (added session_world
                      (fst (ConnectionManager.initialize_providers refusing 7
                              deepgram_only session_world))))
    by (vm_compute; right; left; reflexivity).
  split; [exact session_world_session|]. split; [exact session_world_ok|].
  split; [reflexivity|]. split; [exact (refusing_client_accepts 7)|].
  split; [exact Hin|]. split; [reflexivity|].
  apply (failed_connect_leaves_the_adapter_stored refusing 7 deepgram_only
           session_world fresh_session Deepgram refused_connect refusal
           session_world_session session_world_ok eq_refl
           (refusing_client_accepts 7) Hin eq_refl).
Defined.

(** The scenario of the specification: Deepgram refuses the connection;
    the client is told, the adapter stays stored and not connected, a
    frame sent afterwards reaches no vendor, and a stop logs its
    disconnect. *)
Example refused_connect_scenario :
  let w1 := fst (ConnectionManager.initialize_providers refusing 7 deepgram_only
                   session_world) in
  let w2 := fst (ConnectionManager.send_audio_to_providers refusing 7 [] w1) in
  let w3 := fst (ConnectionManager.stop_providers refusing 7 w2) in
  client_received 7 w1
    = [key_missing_event Speechmatics;
       error_event Deepgram
         "Connection failed: server rejected WebSocket connection: HTTP 401"] /\
  map is_connected (objects w1) = [false] /\
  calls w2 = calls w1 /\
  hd_error (log w3) = Some (INFO, "Disconnected from Deepgram").
Proof. vm_compute. repeat split; reflexivity. Qed.

(** C3, as the code has it.  On an adapter that has never been connected,
    on one whose first [connect] failed and was reported, and on one
    whose [disconnect] went through (no call of it raised), [send_audio]
    is a no-op and a silent one: the world is left exactly as it was
    (nothing goes to the vendor, nothing to the client, nothing to the
    log) and the call returns normally. *)
Theorem send_audio_outside_connected_is_silent
    (E : Env) (w : world) (self : nat) (c : provider) (ws : nat)
    (audio_data : bytes) :
  is_adapter self c ws w ->
  (forall key cfg,
     objects w !! self = Some (init c key cfg ws) ->
     ConnectionManager.provider_send_audio E self audio_data w = (w, inr tt) /\
     (let w1 := fst (ConnectionManager.provider_connect E self w) in
      (exists e o,
         In (SendText ws (error_event c ("Connection failed: " ++ exn_str e)), o)
            (added w w1)) ->
      ConnectionManager.provider_send_audio E self audio_data w1 = (w1, inr tt))) /\
  (let w1 := fst (ConnectionManager.provider_disconnect E self w) in
   Forall (fun ev => returns (snd ev)) (added w w1) ->
   ConnectionManager.provider_send_audio E self audio_data w1 = (w1, inr tt)).
Proof.
  intros Hw. split.
  - intros key cfg Ha. split.
    + eapply provider_send_audio_idle; [exact Ha | reflexivity].
    + cbn zeta. intros (e & o & Hin).
      destruct (provider_connect_run E w self _ Ha) as (w1 & Hrun & Hpost).
      rewrite Hrun in Hin |- *. cbn [fst] in Hin |- *.
      destruct Hpost as (a' & new & Ha' & _ & _ & _ & Hg & Hcase).
      rewrite (added_grows _ _ _ Hg) in Hin.
      destruct Hcase as [(_ & Hall)|(Hflag & _)].
      * exfalso. rewrite List.Forall_forall in Hall.
        destruct (Hall _ Hin) as (Hp & _). discriminate.
      * eapply provider_send_audio_idle; [exact Ha'|].
        unfold in_connected_state. rewrite Hflag. reflexivity.
  - cbn zeta. intros Hall.
    destruct (provider_disconnect_lowers E w self c ws Hw Hall) as (a' & Ha' & Hflag).
    eapply provider_send_audio_idle; [exact Ha'|].
    unfold in_connected_state. rewrite Hflag. reflexivity.
Qed.

Lemma send_audio_outside_connected_is_silent_witness :
  is_adapter 1 Deepgram 7 two_adapters /\
  is_adapter 1 Deepgram 7 live_session /\
  ConnectionManager.provider_send_audio calm 1 [] two_adapters
  = (two_adapters, inr tt) /\
  (let w1 := fst (ConnectionManager.provider_connect refusing 1 two_adapters) in
   In (SendText 7 (error_event Deepgram ("Connection failed: " ++ exn_str refusal)),
       inr EmptyString)
      (added two_adapters w1) /\
   ConnectionManager.provider_send_audio refusing 1 [] w1 = (w1, inr tt)) /\
  (let w1 := fst (ConnectionManager.provider_disconnect calm 1 live_session) in
   Forall (fun ev => returns (snd ev)) (added live_session w1) /\
   ConnectionManager.provider_send_audio calm 1 [] w1 = (w1, inr tt)).
Proof.
  split; [exact two_adapters_deepgram|].
  split; [exact live_session_deepgram|].
  assert (Hin : In (SendText 7 (error_event Deepgram
                                  ("Connection failed: " ++ exn_str refusal)),
                    inr EmptyString)
                   (added two_adapters
                      (fst (ConnectionManager.provider_connect refusing 1
                              two_adapters))))
    by (vm_compute; left; reflexivity).
  assert (Hall : Forall (fun ev : event => returns (snd ev))
                   (added live_session
                      (fst (ConnectionManager.provider_disconnect calm 1
                              live_session))))
    by (vm_compute; repeat constructor; eexists; reflexivity).
  split; [|split].
  - destruct (send_audio_outside_connected_is_silent calm two_adapters 1
                Deepgram 7 [] two_adapters_deepgram) as (Hfresh & _).
    exact (proj1 (Hfresh (VStr "key") (VDict [("apiKey", VStr "key")]) eq_refl)).
  - split; [exact Hin|].
    destruct (send_audio_outside_connected_is_silent refusing two_adapters 1
                Deepgram 7 [] two_adapters_deepgram) as (Hfresh & _).
    destruct (Hfresh (VStr "key") (VDict [("apiKey", VStr "key")]) eq_refl)
      as (_ & Hfailed).
    apply Hfailed. exists refusal, (inr EmptyString). exact Hin.
  - split; [exact Hall|].
    destruct (send_audio_outside_connected_is_silent calm live_session 1
                Deepgram 7 [] live_session_deepgram) as (_ & Hdown).
    exact (Hdown Hall).
Defined.

(** C3, as the specification states it, fails: on an adapter that was
    never connected, [send_audio] writes no error event to the client
    (it makes no call at all), for either provider. *)
Lemma send_audio_outside_connected_reports_nothing :
  in_connected_state (init Deepgram (VStr "key") (VDict [("apiKey", VStr "key")]) 7)
    = false /\
  calls (fst (DeepgramProvider.send_audio calm 1 [] two_adapters)) = [] /\
  client_received 7 (fst (DeepgramProvider.send_audio calm 1 [] two_adapters)) = [] /\
  calls (fst (SpeechmaticsProvider.send_audio calm 0 [] two_adapters)) = [] /\
  client_received 7 (fst (SpeechmaticsProvider.send_audio calm 0 [] two_adapters)) = [].
Proof. repeat split; reflexivity. Qed.

(** What the teardown does, in a world whose sessions are in order:
    - [disconnect] on a Deepgram adapter that is already disconnected
      writes one log line and touches nothing else: no call, no event;
    - a Deepgram [disconnect] whose handshake goes through sends
      [CloseStream] and closes once, and a second [disconnect] makes no
      further call;
    - a Speechmatics [disconnect] never raises and never writes to the
      client, but calls [close()] on the SDK client on every call, for as
      long as the adapter holds one;
    - a second [stop_providers] changes nothing, and neither does a stop
      or a removal of a session that is not in the table, nor a second
      removal; removing a stopped session creates no disconnect task. *)
Lemma teardown_outside_the_sdk_close
    (E : Env) (ws : nat) (w : world) :
  sessions_ok w ->
  (forall self a,
     objects w !! self = Some a -> deepgram_disconnected a = true ->
     DeepgramProvider.disconnect E self w
     = (with_log ((INFO, "Disconnected from Deepgram") :: log w) w, inr tt)) /\
  (forall self a s r1 r2,
     objects w !! self = Some a ->
     provider_websocket a = Some s -> vs_closed s = false ->
     respond E (trace w) (WsSendText (vs_id s) close_stream) = inr r1 ->
     respond E ((WsSendText (vs_id s) close_stream, inr r1) :: trace w)
             (WsClose (vs_id s)) = inr r2 ->
     let w1 := fst (DeepgramProvider.disconnect E self w) in
     calls w1 = calls w ++ [WsSendText (vs_id s) close_stream; WsClose (vs_id s)] /\
     calls (fst (DeepgramProvider.disconnect E self w1)) = calls w1) /\
  (forall self c,
     is_adapter self Speechmatics c w ->
     snd (SpeechmaticsProvider.disconnect E self w) = inr tt /\
     exists new,
       history_grows w (fst (SpeechmaticsProvider.disconnect E self w)) new /\
       Forall (vendor_call Speechmatics) new) /\
  (forall self a c,
     objects w !! self = Some a -> voice_client a = Some c ->
     exists o, trace (fst (SpeechmaticsProvider.disconnect E self w))
               = (VoiceClose c, o) :: trace w) /\
  (let w1 := fst (ConnectionManager.stop_providers E ws w) in
   ConnectionManager.stop_providers E ws w1 = (w1, inr tt) /\
   tasks (fst (ConnectionManager.disconnect ws w1)) = tasks w1 /\
   trace (fst (ConnectionManager.disconnect ws w1)) = trace w1) /\
  (active_connections w !! ws = None ->
   ConnectionManager.stop_providers E ws w = (w, inr tt) /\
   ConnectionManager.disconnect ws w = (w, inr tt)) /\
  (let w1 := fst (ConnectionManager.disconnect ws w) in
   ConnectionManager.disconnect ws w1 = (w1, inr tt) /\
   ConnectionManager.stop_providers E ws w1 = (w1, inr tt)).
Proof.
  intros Hok. split; [|split; [|split; [|split; [|split; [|split]]]]].
  - intros self a Ha Hd. eapply deepgram_disconnect_idle; eauto.
  - intros self a s r1 r2 Ha Hpw Hopen H1 H2.
    destruct (deepgram_disconnect_open E w self a s r1 r2 Ha Hpw Hopen H1 H2)
      as (w' & a' & Hrun & Ht & Ha' & Hd).
    cbn zeta. rewrite Hrun. cbn [fst].
    split.
    + rewrite (calls_cons w w' [(WsClose (vs_id s), inr r2);
                                (WsSendText (vs_id s) close_stream, inr r1)] Ht).
      reflexivity.
    + rewrite (deepgram_disconnect_idle E w' self a' Ha' Hd). reflexivity.
  - intros self c Hw.
    destruct (speechmatics_disconnect_method E self c w Hw)
      as ((r & Hr) & _ & _ & Hnew).
    split; [rewrite Hr; destruct r; reflexivity | exact Hnew].
  - intros self a c Ha Hvc. eapply speechmatics_disconnect_closes; eauto.
  - destruct (stop_providers_twice E ws w Hok) as (H1 & Hs & Hd).
    cbn zeta. split; [exact H1|]. split.
    + apply disconnect_after_stop; assumption.
    + apply disconnect_removes.
  - intros Habsent. split.
    + apply stop_providers_idle; unfold nothing_stored; rewrite Habsent; exact I.
    + apply disconnect_absent. exact Habsent.
  - cbn zeta. split; [apply disconnect_twice|].
    apply stop_providers_idle; unfold nothing_stored;
      destruct (disconnect_removes ws w) as (-> & _); exact I.
Qed.

(** C9, at the input where the code departs from it.  A Speechmatics
    adapter is connected and then disconnected: the flag is down and
    [close()] was called on the SDK client.  A second [disconnect] calls
    [close()] on the SDK client again: [disconnect] tests only that the
    adapter holds a client, and nothing ever takes the client away.  The
    Deepgram adapter, through the same three steps, sends [CloseStream]
    and closes once, and its second [disconnect] makes no call. *)
Theorem speechmatics_disconnect_closes_again :
  (let w1 := fst (SpeechmaticsProvider.connect calm 0 two_adapters) in
   let w2 := fst (SpeechmaticsProvider.disconnect calm 0 w1) in
   let w3 := fst (SpeechmaticsProvider.disconnect calm 0 w2) in
   map is_connected (objects w1) = [true; false] /\
   map is_connected (objects w2) = [false; false] /\
   calls w2 = calls w1 ++ [VoiceClose 1] /\
   calls w3 = calls w1 ++ [VoiceClose 1; VoiceClose 1] /\
   client_received 7 w3 = []) /\
  (let w1 := fst (DeepgramProvider.connect calm 1 two_adapters) in
   let w2 := fst (DeepgramProvider.disconnect calm 1 w1) in
   let w3 := fst (DeepgramProvider.disconnect calm 1 w2) in
   map is_connected (objects w1) = [false; true] /\
   map is_connected (objects w2) = [false; false] /\
   calls w2 = calls w1 ++ [WsSendText 0 close_stream; WsClose 0] /\
   calls w3 = calls w2).
Proof. vm_compute. repeat split; reflexivity. Qed.

(** Through the coordinator the teardown happens once: stop, stop again
    and the client's departure close the Deepgram channel once. *)
Example stop_twice_scenario :
  let w1 := fst (ConnectionManager.initialize_providers calm 7 deepgram_only
                   session_world) in
  let w2 := fst (ConnectionManager.stop_providers calm 7 w1) in
  let w3 := fst (ConnectionManager.stop_providers calm 7 w2) in
  let w4 := fst (ConnectionManager.disconnect 7 w3) in
  calls w2 = calls w1 ++ [WsSendText 1 close_stream; WsClose 1] /\
  w3 = w2 /\
  calls w4 = calls w2 /\ tasks w4 = tasks w2 /\
  active_connections w4 !! 7%nat = None.
Proof. vm_compute. repeat split; reflexivity. Qed.

Import FailureFacts.

(** C1, as the code has it.  For a session [ws] that stores a
    Speechmatics adapter [sm] and a Deepgram adapter [dg]:
    - [connect], [send_audio] and [disconnect] of an adapter of the
      session always return; a vendor call that raised [e] in [connect]
      is followed by the error event ["Connection failed: " ++ str(e)]
      of that provider, one in [send_audio] by
      ["Audio transmission error: " ++ str(e)]; [disconnect] calls the
      vendor only and writes nothing to the client;
    - the receive loop of Deepgram always returns; a [recv] that raised
      [e] is followed by ["Response processing error: " ++ str(e)],
      unless [e] is a [ConnectionClosed]: then the loop ends there and
      nothing is written to the client;
    - [_process_response] always returns; a payload that is not JSON is
      dropped without a call, and one whose translation raises [e] is
      reported as ["Response processing error: " ++ str(e)];
    - a handler of Speechmatics always returns, and all it writes are
      events built from the message: what it cannot translate is
      dropped, never reported;
    - the fan-out of a frame always returns, and the frame goes to the
      vendor of each connected adapter, whatever happens to the other. *)
Theorem adapter_failures_are_contained
    (E : Env) (w : world) (ws sm dg : nat) (cd : connection_data) :
  active_connections w !! ws = Some cd ->
  cd_speechmatics cd = Some sm -> cd_deepgram cd = Some dg ->
  is_adapter sm Speechmatics ws w -> is_adapter dg Deepgram ws w ->
  (forall self c, is_adapter self c ws w ->
     returns (snd (ConnectionManager.provider_connect E self w)) /\
     converts c ws "Connection failed: "
              (ConnectionManager.provider_connect E self) w /\
     (forall audio_data,
        returns (snd (ConnectionManager.provider_send_audio E self audio_data w)) /\
        converts c ws "Audio transmission error: "
                 (ConnectionManager.provider_send_audio E self audio_data) w) /\
     returns (snd (ConnectionManager.provider_disconnect E self w)) /\
     Forall (vendor_call c)
            (added w (fst (ConnectionManager.provider_disconnect E self w)))) /\
  (forall fuel,
     returns (snd (DeepgramProvider._listen_for_responses E fuel dg w)) /\
     converts_unless_closed Deepgram ws "Response processing error: "
       (DeepgramProvider._listen_for_responses E fuel dg) w) /\
  (forall response,
     returns (snd (DeepgramProvider._process_response E dg response w)) /\
     (forall e,
        json_loads E response = inl e -> exn_cls e = JSONDecodeError ->
        added w (fst (DeepgramProvider._process_response E dg response w)) = []) /\
     (forall data e,
        json_loads E response = inr data -> malformed data e ->
        exn_cls e <> JSONDecodeError ->
        exists o,
          added w (fst (DeepgramProvider._process_response E dg response w))
          = [(SendText ws (error_event Deepgram
                             ("Response processing error: " ++ exn_str e)), o)])) /\
  (forall k message,
     returns (snd (SpeechmaticsProvider.handler E sm k message w)) /\
     Forall (handler_call k message ws)
            (added w (fst (SpeechmaticsProvider.handler E sm k message w)))) /\
  (forall audio_data,
     returns (snd (ConnectionManager.send_audio_to_providers E ws audio_data w)) /\
     forall self a send,
       self = sm \/ self = dg ->
       objects w !! self = Some a ->
       audio_call a audio_data = Some send ->
       In send
          (map fst (added w (fst (ConnectionManager.send_audio_to_providers
                                    E ws audio_data w))))).
Proof.
  intros Hcd Hsm Hdg Hwsm Hwdg.
  split; [|split; [|split; [|split]]].
  - intros self c Hw.
    destruct (provider_connect_converts E w self c ws Hw) as (Hr & Hconv).
    split; [exact Hr|]. split; [exact Hconv|].
    split; [intros audio_data; apply provider_send_audio_converts; exact Hw|].
    destruct (provider_disconnect_run E w self c ws Hw)
      as (w' & Hrun & _ & _ & (new & Hg & Hnew) & _).
    rewrite Hrun. cbn [fst snd]. split; [eexists; reflexivity|].
    rewrite (added_grows _ _ _ Hg). exact Hnew.
  - intros fuel. apply listen_converts. exact Hwdg.
  - intros response.
    destruct (process_response_method E dg ws response w Hwdg)
      as (Hr & _ & _ & _).
    split; [exact Hr|]. split.
    + intros e Hj Hcls.
      destruct (process_response_undecodable E dg response w e Hj Hcls)
        as (_ & Ht).
      apply added_grows. unfold history_grows. rewrite Ht. reflexivity.
    + intros data e Hj Hm Hcls.
      destruct (process_response_malformed E ws dg response w data e
                  Hwdg Hj Hm Hcls) as (_ & o & Ht).
      exists o. apply added_grows. unfold history_grows. rewrite Ht. reflexivity.
  - intros k message.
    destruct (handler_method E sm ws k message w Hwsm)
      as (Hr & _ & _ & new & Hg & Hnew).
    split; [exact Hr|]. rewrite (added_grows _ _ _ Hg). exact Hnew.
  - intros audio_data.
    destruct Hwsm as (a_sm & Ha_sm & Hc_sm & _).
    destruct Hwdg as (a_dg & Ha_dg & Hc_dg & _).
    assert (Hne : sm <> dg) by (intros ->; congruence).
    destruct (send_audio_to_providers_run E w ws cd sm dg a_sm a_dg audio_data
                Hcd Hsm Hdg Ha_sm Ha_dg Hne)
      as (w' & new_sm & new_dg & Hrun & Hg & Hh_sm & Hh_dg).
    rewrite Hrun. cbn [fst snd]. split; [eexists; reflexivity|].
    rewrite (added_grows _ _ _ Hg), map_app.
    intros self a send [->| ->] Ha Hsend; apply in_or_app.
    + right. assert (a = a_sm) by congruence. subst a.
      rewrite Hsend in Hh_sm. eapply send_history_sends; eauto.
    + left. assert (a = a_dg) by congruence. subst a.
      rewrite Hsend in Hh_dg. eapply send_history_sends; eauto.
Qed.

Lemma adapter_failures_are_contained_witness :
  active_connections live_session !! 7%nat
    = Some {| cd_speechmatics := Some 0%nat; cd_deepgram := Some 1%nat;
              cd_config := Some both_keys |} /\
  is_adapter 0 Speechmatics 7 live_session /\
  is_adapter 1 Deepgram 7 live_session /\
  returns (snd (DeepgramProvider._listen_for_responses dropping 3 1 live_session)) /\
  returns (snd (ConnectionManager.send_audio_to_providers choking 7 [] live_session)).
Proof.
  assert (Hcd : active_connections live_session !! 7%nat
                = Some {| cd_speechmatics := Some 0%nat; cd_deepgram := Some 1%nat;
                          cd_config := Some both_keys |})
    by (vm_compute; reflexivity).
  split; [exact Hcd|].
  split; [exact live_session_speechmatics|].
  split; [exact live_session_deepgram|].
  split.
  - pose proof (adapter_failures_are_contained dropping live_session 7 0 1 _ Hcd
                  eq_refl eq_refl live_session_speechmatics live_session_deepgram)
      as (_ & Hloop & _).
    exact (proj1 (Hloop 3%nat)).
  - pose proof (adapter_failures_are_contained choking live_session 7 0 1 _ Hcd
                  eq_refl eq_refl live_session_speechmatics live_session_deepgram)
      as (_ & _ & _ & _ & Hfan).
    exact (proj1 (Hfan [])).
Defined.

(** C1, as the specification states it, fails for the receive loop: when
    the channel of a connected Deepgram adapter is dropped, [recv]
    raises [ConnectionClosed], the loop ends with a line in the log, and
    the client is sent nothing: no error event of the provider follows
    the failure. *)
Lemma dropped_channel_is_not_reported :
  let r := DeepgramProvider._listen_for_responses dropping 3 1 live_session in
  in_connected_state (default (init Deepgram VNone VNone 7)
                              (objects live_session !! 1%nat)) = true /\
  snd r = inr true /\
  added live_session (fst r)
    = [(WsRecv 8, inl (Exn ConnectionClosed "no close frame received or sent"))] /\
  client_received 7 (fst r) = client_received 7 live_session /\
  hd_error (log (fst r)) = Some (INFO, "Deepgram connection closed").
Proof. vm_compute. repeat split; reflexivity. Qed.

(** The Speechmatics client refuses the frame: the client is told, and
    the same frame has gone to Deepgram. *)
Example choked_fan_out_scenario :
  let r := ConnectionManager.send_audio_to_providers choking 7 [] live_session in
  snd r = inr tt /\
  added live_session (fst r)
    = [(WsSendBytes 8 [], inr EmptyString);
       (SendText 7 (error_event Speechmatics
                      "Audio transmission error: client is not connected"),
        inr EmptyString);
       (VoiceSendAudio 1 [], inl (Exn OtherError "client is not connected"))].
Proof. vm_compute. repeat split; reflexivity. Qed.

(* ===================================================================== *)
(** * Beyond the specification: opening the vendor channels *)
(* ===================================================================== *)

Import Options MoreSamples Decoders MoreDecoders Sessions Isolation Segments.
Local Open Scope coro_scope.

(** X1. The query parameters of Deepgram.  Whatever the provider entry of
    the configuration holds, [connect] builds its parameters without
    raising: the thirteen fixed keys in the order of the URL, no key
    twice, each option taken from the entry or from its default, every
    switch rendered as the text [true] or [false] by its truth value,
    and [utterances=true] added at the end exactly when [diarize] is
    set. *)
Theorem deepgram_params_of_any_entry (E : Env) (d : list (string * value)) :
  exists params,
    DeepgramProvider.connection_params E (VDict d) = inr params /\
    map fst params
      = base_keys ++ (if truthy (option_or d "diarize" (VBool false))
                      then ["utterances"] else []) /\
    NoDup (map fst params) /\
    dict_lookup params "encoding" = Some (VStr "linear16") /\
    dict_lookup params "channels" = Some (VInt 1) /\
    dict_lookup params "sample_rate" = Some (option_or d "sampleRate" (VInt 16000)) /\
    dict_lookup params "model" = Some (option_or d "model" (VStr "nova-2")) /\
    dict_lookup params "language" = Some (option_or d "language" (VStr "en")) /\
    dict_lookup params "endpointing"
      = Some (VStr (str E (option_or d "endpointing" (VInt 300)))) /\
    dict_lookup params "utterances"
      = (if truthy (option_or d "diarize" (VBool false))
         then Some (VStr "true") else None) /\
    (forall k default,
       In (k, default) switches ->
       dict_lookup params k
       = Some (VStr (if truthy (option_or d k (VBool default))
                     then "true" else "false"))).
Proof.
  unfold DeepgramProvider.connection_params, get, option_or, switches.
  cbn [rbind ok].
  destruct (truthy (match dict_lookup d "diarize" with
                    | Some v => v | None => VBool false end)) eqn:Hd;
    (eexists; split; [reflexivity|]); cbn;
    (split; [reflexivity|]);
    (split; [apply (bool_decide_unpack _); vm_compute; exact I|]);
    do 7 (split; [reflexivity|]);
    intros k default Hin; cbn in Hin;
    repeat (destruct Hin as [Heq|Hin];
            [injection Heq as <- <-; cbn; unfold DeepgramProvider.true_false;
             rewrite ?Hd; reflexivity|]);
    destruct Hin.
Qed.

(** X2. [DeepgramProvider.connect], by the answer of the vendor.  The first
    and only vendor call opens the channel with the URL of the
    parameters and the header [Authorization: Token <api_key>].  If it
    returns, the adapter holds the new channel and is connected, one
    listen task is started and the success is logged.  If it raises, the
    client is sent ["Connection failed: " ++ str(e)], no task is started
    and the adapter is as it was.  Either way [connect] returns. *)
Theorem deepgram_connect_outcome (E : Env) (w : world) (self : nat) (a : adapter)
    (params : list (string * value)) :
  objects w !! self = Some a -> cls a = Deepgram ->
  DeepgramProvider.connection_params E (config a) = inr params ->
  let w' := fst (DeepgramProvider.connect E self w) in
  snd (DeepgramProvider.connect E self w) = inr tt /\
  active_connections w' = active_connections w /\
  match respond E (trace w) (opening E a params) with
  | inr s =>
      trace w' = (opening E a params, inr s) :: trace w /\
      objects w'
      = <[self := set_is_connected true
                    (set_provider_websocket
                       (Some {| vs_id := length (trace w); vs_closed := false |}) a)]>
          (objects w) /\
      tasks w' = ListenTask self :: tasks w /\
      log w' = (INFO, "Connected to Deepgram") :: log w
  | inl e =>
      (exists o,
         trace w' = (SendText (websocket a)
                       (error_event Deepgram ("Connection failed: " ++ exn_str e)), o)
                    :: (opening E a params, inl e) :: trace w) /\
      objects w' = objects w /\
      tasks w' = tasks w
  end.
Proof.
  intros Ha Hc Hparams. cbv zeta. unfold opening.
  unfold DeepgramProvider.connect. run_with Ha. rewrite Hparams. run_with Ha.
  next_call; run_with Ha.
  - rewrite Hc.
    next_call; run_with Ha; (split; [reflexivity|]); (split; [reflexivity|]);
      (split; [eexists; reflexivity|]); split; reflexivity.
  - split; [reflexivity|]. split; [reflexivity|].
    split; [reflexivity|]. split; [|split; reflexivity].
    rewrite list_insert_insert_eq. reflexivity.
Qed.

Lemma deepgram_connect_outcome_witness :
  let a := init Deepgram (VStr "key") (VDict [("apiKey", VStr "key")]) 7 in
  exists params,
    DeepgramProvider.connection_params refusing (config a) = inr params /\
    tasks (fst (DeepgramProvider.connect refusing 1 two_adapters)) = [] /\
    objects (fst (DeepgramProvider.connect refusing 1 two_adapters))
    = objects two_adapters.
Proof.
  eexists. split; [reflexivity|].
  pose proof (deepgram_connect_outcome refusing two_adapters 1 _ _
                eq_refl eq_refl eq_refl) as (_ & _ & H).
  destruct H as (_ & Ho & Ht). split; [exact Ht | exact Ho].
Defined.

(** Closes a branch of [SpeechmaticsProvider.connect] that ended in the
    [except]: the flag of the adapter is still down. *)
Ltac still_down Ha Hc Hdown :=
  rewrite ?Hc; run_with Ha; rewrite ?Hc; run_with Ha;
  next_call; run_with Ha;
  intros a' Ha' Hup; exfalso;
  cbn in Ha';
  try (first [rewrite Ha in Ha'
             | rewrite list_lookup_insert_eq in Ha'
                 by (rewrite ?length_insert; eapply lookup_lt_Some; eassumption)]);
  injection Ha' as <-; cbn in Hup; congruence.

(** X3. [SpeechmaticsProvider.connect] on an adapter that is not connected:
    if the adapter is connected afterwards, the history gained exactly
    the calls of [sdk_calls], in that order, and all of them returned.
    The configuration is created first, the diarization settings are set
    when and only when [enableDiarization] is set, the five handlers are
    registered on the new client before [connect()] is called on it, and
    that call is the last. *)
Theorem speechmatics_connect_sequence (E : Env) (w : world) (self : nat)
    (a : adapter) :
  objects w !! self = Some a -> cls a = Speechmatics ->
  is_connected a = false ->
  forall a',
    objects (fst (SpeechmaticsProvider.connect E self w)) !! self = Some a' ->
    is_connected a' = true ->
    exists args dia attrs cfg client new,
      SpeechmaticsProvider.voice_agent_config E (config a) = inr args /\
      get (config a) "enableDiarization" (VBool false) = inr dia /\
      (if truthy dia
       then exists l, attrs = Some l /\
                      SpeechmaticsProvider.diarization_attrs (config a) = inr l
       else attrs = None) /\
      voice_client a' = Some client /\
      trace (fst (SpeechmaticsProvider.connect E self w)) = new ++ trace w /\
      map fst (rev new) = sdk_calls args attrs (api_key a) cfg client /\
      Forall (fun ev : event => returns (snd ev)) new.
Proof.
  intros Ha Hc Hdown. unfold SpeechmaticsProvider.connect. run_with Ha.
  assert (Hlt : (self < length (objects w))%nat) by (eapply lookup_lt_Some; eauto).
  destruct (get (config a) "enableDiarization" (VBool false)) as [e|dia] eqn:Hd;
    run_with Ha; [still_down Ha Hc Hdown|].
  destruct (SpeechmaticsProvider.voice_agent_config E (config a)) as [e|args] eqn:Hargs;
    run_with Ha; [still_down Ha Hc Hdown|].
  next_call; run_with Ha; [still_down Ha Hc Hdown|].
  destruct (truthy dia) eqn:Htd; run_with Ha.
  - destruct (SpeechmaticsProvider.diarization_attrs (config a)) as [e|attrs] eqn:Hattrs;
      run_with Ha; [still_down Ha Hc Hdown|].
    next_call; run_with Ha; [still_down Ha Hc Hdown|].
    next_call; run_with Ha; [still_down Ha Hc Hdown|].
    do 6 (next_call; run_with Ha; [still_down Ha Hc Hdown|]).
    intros a' Ha' _. cbn in Ha'.
    rewrite ?list_lookup_insert_eq in Ha'
      by (rewrite ?length_insert; eapply lookup_lt_Some; eassumption).
    injection Ha' as <-.
    eexists args, dia, (Some attrs), _, _, _.
    split; [reflexivity|]. split; [reflexivity|].
    rewrite Htd. split; [eauto|].
    split; [reflexivity|]. split; [grows|].
    split; [reflexivity|].
    repeat constructor; eexists; reflexivity.
  - next_call; run_with Ha; [still_down Ha Hc Hdown|].
    do 6 (next_call; run_with Ha; [still_down Ha Hc Hdown|]).
    intros a' Ha' _. cbn in Ha'.
    rewrite ?list_lookup_insert_eq in Ha'
      by (rewrite ?length_insert; eapply lookup_lt_Some; eassumption).
    injection Ha' as <-.
    eexists args, dia, None, _, _, _.
    split; [reflexivity|]. split; [reflexivity|].
    rewrite Htd. split; [reflexivity|].
    split; [reflexivity|]. split; [grows|].
    split; [reflexivity|].
    repeat constructor; eexists; reflexivity.
Qed.

Lemma speechmatics_connect_sequence_witness :
  exists a',
    objects (fst (SpeechmaticsProvider.connect calm 0 two_adapters)) !! 0%nat
      = Some a' /\
    is_connected a' = true /\
    exists args dia attrs cfg client new,
      SpeechmaticsProvider.voice_agent_config calm
        (VDict [("apiKey", VStr "key")]) = inr args /\
      get (VDict [("apiKey", VStr "key")]) "enableDiarization" (VBool false)
        = inr dia /\
      (if truthy dia
       then exists l, attrs = Some l /\
                      SpeechmaticsProvider.diarization_attrs
                        (VDict [("apiKey", VStr "key")]) = inr l
       else attrs = None) /\
      voice_client a' = Some client /\
      trace (fst (SpeechmaticsProvider.connect calm 0 two_adapters))
        = new ++ trace two_adapters /\
      map fst (rev new) = sdk_calls args attrs (VStr "key") cfg client /\
      Forall (fun ev : event => returns (snd ev)) new.
Proof.
  eexists. split; [vm_compute; reflexivity|]. split; [reflexivity|].
  apply (speechmatics_connect_sequence calm two_adapters 0
           (init Speechmatics (VStr "key") (VDict [("apiKey", VStr "key")]) 7)
           eq_refl eq_refl eq_refl).
  - vm_compute. reflexivity.
  - reflexivity.
Defined.

(** X4. A configuration [SpeechmaticsProvider.connect] cannot interpret: when
    building the arguments of [VoiceAgentConfig] raises [e], nothing of
    the SDK is called.  The client is sent ["Connection failed: " ++
    str(e)], the adapter is left as it was, and [connect] returns. *)
Theorem speechmatics_bad_config_calls_no_sdk (E : Env) (w : world) (self : nat)
    (a : adapter) (e : exn) :
  objects w !! self = Some a -> cls a = Speechmatics ->
  SpeechmaticsProvider.voice_agent_config E (config a) = inl e ->
  let w' := fst (SpeechmaticsProvider.connect E self w) in
  snd (SpeechmaticsProvider.connect E self w) = inr tt /\
  objects w' = objects w /\
  tasks w' = tasks w /\
  active_connections w' = active_connections w /\
  exists o,
    trace w' = (SendText (websocket a)
                  (error_event Speechmatics ("Connection failed: " ++ exn_str e)), o)
               :: trace w.
Proof.
  intros Ha Hc Hcfg. cbv zeta.
  unfold SpeechmaticsProvider.connect. run_with Ha.
  destruct (get (config a) "enableDiarization" (VBool false)) as [e0|dia] eqn:Hd;
    run_with Ha.
  - assert (e0 = e) as ->.
    { unfold SpeechmaticsProvider.voice_agent_config in Hcfg.
      rewrite Hd in Hcfg. cbn in Hcfg. congruence. }
    rewrite Hc. run_with Ha.
    next_call; run_with Ha; repeat (split; [reflexivity|]); eexists; reflexivity.
  - rewrite Hcfg. run_with Ha. rewrite Hc. run_with Ha.
    next_call; run_with Ha; repeat (split; [reflexivity|]); eexists; reflexivity.
Qed.

Lemma speechmatics_bad_config_calls_no_sdk_witness :
  calls (fst (SpeechmaticsProvider.connect calm 0 (one_adapter_with Speechmatics numeric_mode)))
  = [SendText 7 (error_event Speechmatics
                   "Connection failed: 'int' object has no attribute 'upper'")].
Proof.
  pose proof (speechmatics_bad_config_calls_no_sdk calm
                (one_adapter_with Speechmatics numeric_mode) 0 _
                (Exn AttributeError "'int' object has no attribute 'upper'")
                eq_refl eq_refl eq_refl) as (_ & _ & _ & _ & o & Ht).
  unfold calls. rewrite Ht. reflexivity.
Defined.

(** X5. The two options [SpeechmaticsProvider.connect] calls [.upper()] on:
    an [endOfUtteranceMode] or [operatingPoint] that is present and not a
    string makes the construction of the arguments raise
    [AttributeError], whatever else the configuration holds. *)
Theorem speechmatics_modes_must_be_strings (E : Env)
    (d : list (string * value)) (v : value) :
  (forall s, v <> VStr s) ->
  (dict_lookup d "endOfUtteranceMode" = Some v ->
   SpeechmaticsProvider.voice_agent_config E (VDict d)
   = inl (Exn AttributeError
            ("'" ++ type_name v ++ "' object has no attribute 'upper'"))) /\
  (dict_lookup d "endOfUtteranceMode" = None ->
   dict_lookup d "operatingPoint" = Some v ->
   SpeechmaticsProvider.voice_agent_config E (VDict d)
   = inl (Exn AttributeError
            ("'" ++ type_name v ++ "' object has no attribute 'upper'"))).
Proof.
  intros Hv. split.
  - intros Hm. unfold SpeechmaticsProvider.voice_agent_config, get.
    cbn [rbind ok]. rewrite Hm.
    destruct v; try reflexivity. destruct (Hv s eq_refl).
  - intros Hm Hp. unfold SpeechmaticsProvider.voice_agent_config, get.
    cbn [rbind ok]. rewrite Hm, Hp. cbn [upper_of rbind ok].
    destruct v; try reflexivity. destruct (Hv s eq_refl).
Qed.

Lemma speechmatics_modes_must_be_strings_witness :
  SpeechmaticsProvider.voice_agent_config calm numeric_mode
  = inl (Exn AttributeError "'int' object has no attribute 'upper'").
Proof.
  assert (Hv : forall s, VInt 1 <> VStr s) by (intros s; discriminate).
  exact (proj1 (speechmatics_modes_must_be_strings calm
                  [("apiKey", VStr "key"); ("endOfUtteranceMode", VInt 1)]
                  (VInt 1) Hv) eq_refl).
Defined.
Import Sessions.

(* ===================================================================== *)
(** * Beyond the specification: the endpoint and the session table *)
(* ===================================================================== *)

(** X6. [ConnectionManager.disconnect] on a session of the table: it makes
    no call and touches no adapter; it creates one [disconnect()] task
    per stored adapter, Speechmatics first, and deletes the session.
    The teardown of the vendor channels is left to those tasks. *)
Theorem manager_disconnect_defers_the_teardown (ws : nat) (w : world)
    (cd : connection_data) :
  active_connections w !! ws = Some cd ->
  ConnectionManager.disconnect ws w
  = ({| trace := trace w; objects := objects w;
        active_connections := delete ws (active_connections w);
        tasks := teardown_tasks cd ++ tasks w; log := log w |}, inr tt).
Proof.
  intros Hcd. unfold ConnectionManager.disconnect. rewrite Hcd.
  unfold bind, ConnectionManager.disconnect_task, create_task, ret, teardown_tasks.
  destruct (cd_speechmatics cd), (cd_deepgram cd); reflexivity.
Qed.

Lemma manager_disconnect_defers_the_teardown_witness :
  tasks (fst (ConnectionManager.disconnect 7 live_session))
  = DisconnectTask 1 :: DisconnectTask 0 :: tasks live_session.
Proof.
  assert (Hcd : active_connections live_session !! 7%nat
                = Some {| cd_speechmatics := Some 0%nat; cd_deepgram := Some 1%nat;
                          cd_config := Some both_keys |})
    by (vm_compute; reflexivity).
  rewrite (manager_disconnect_defers_the_teardown 7 live_session _ Hcd).
  reflexivity.
Defined.

(** X7. [websocket_endpoint], whatever the client sends.  If [accept()]
    raises, the exception leaves the endpoint and nothing else has
    happened.  Otherwise the endpoint returns normally, however the
    receive loop ended, and the session is no longer in the table. *)
Theorem endpoint_always_removes_the_session (E : Env) (ws : nat)
    (inputs : list ConnectionManager.client_data) (w : world) :
  match respond E (trace w) (Accept ws) with
  | inl e =>
      ConnectionManager.websocket_endpoint E ws inputs w
      = (with_trace ((Accept ws, inl e) :: trace w) w, inl e)
  | inr _ =>
      snd (ConnectionManager.websocket_endpoint E ws inputs w) = inr tt /\
      active_connections (fst (ConnectionManager.websocket_endpoint E ws inputs w))
        !! ws = None
  end.
Proof.
  unfold ConnectionManager.websocket_endpoint, ConnectionManager.connect.
  unfold bind, perform, logger, try_except. cbv zeta.
  destruct (respond E (trace w) (Accept ws)) as [e|s]; [reflexivity|].
  match goal with
  | |- context [ConnectionManager.receive_loop E ws inputs ?w0] =>
      destruct (ConnectionManager.receive_loop E ws inputs w0) as [w1 [e|[]]]
  end.
  - destruct (bool_decide (exn_cls e = WebSocketDisconnect));
      match goal with
      | |- context [ConnectionManager.disconnect ws ?w0] =>
          pose proof (disconnect_removes ws w0) as (Hgone & _);
          destruct (ConnectionManager.disconnect ws w0) as [w2 r2]
      end; cbn in *; auto.
  - match goal with
    | |- context [ConnectionManager.disconnect ws ?w0] =>
        pose proof (disconnect_removes ws w0) as (Hgone & _);
        destruct (ConnectionManager.disconnect ws w0) as [w2 r2]
    end; cbn in *; auto.
Qed.

(** X8. What the receive loop ignores: a message with neither text nor
    bytes, a text that is not JSON (other than [END]), a decoded object
    whose type is neither [config] nor [stop] (other than the text
    [END]), and audio for a session that stores no adapter.  Each leaves
    the world exactly as it was. *)
Theorem ignored_inputs (E : Env) (ws : nat) (w : world) :
  ConnectionManager.on_receive E ws ConnectionManager.Neither w = (w, inr tt) /\
  (forall text e,
     json_loads E text = inl e -> exn_cls e = JSONDecodeError ->
     text <> "END" ->
     ConnectionManager.on_receive E ws (ConnectionManager.Text text) w = (w, inr tt)) /\
  (forall text d,
     json_loads E text = inr (VDict d) -> unknown_type d = true ->
     text <> "END" ->
     ConnectionManager.on_receive E ws (ConnectionManager.Text text) w = (w, inr tt)) /\
  (forall audio_data,
     nothing_stored ws Speechmatics w -> nothing_stored ws Deepgram w ->
     ConnectionManager.on_receive E ws (ConnectionManager.Bytes audio_data) w
     = (w, inr tt)).
Proof.
  split; [reflexivity|]. split; [|split].
  - intros text e Hj Hcls Hend.
    unfold ConnectionManager.on_receive, try_except, bind, lift. rewrite Hj.
    rewrite (bool_decide_eq_true_2 _ Hcls).
    destruct (String.eqb_spec text "END"); [contradiction | reflexivity].
  - intros text d Hj Hty Hend.
    unfold ConnectionManager.on_receive, try_except, bind, lift. rewrite Hj.
    unfold ConnectionManager.type_is, get1, get, unknown_type in *.
    cbn [rbind ok].
    destruct (dict_lookup d "type") as [ty|]; cbn [is_str orb].
    + apply andb_prop in Hty as (Hc & Hs).
      apply negb_true_iff in Hc, Hs. rewrite Hc, Hs. cbn [orb].
      destruct (String.eqb_spec text "END"); [contradiction | reflexivity].
    + destruct (String.eqb_spec text "END"); [contradiction | reflexivity].
  - intros audio_data Hs Hd.
    unfold ConnectionManager.on_receive, try_except,
      ConnectionManager.send_audio_to_providers, bind,
      ConnectionManager.stored_provider.
    unfold nothing_stored in Hs, Hd.
    destruct (active_connections w !! ws) as [cd|]; [|reflexivity].
    cbn [ConnectionManager.cd_provider] in *. rewrite Hs, Hd. reflexivity.
Qed.

Lemma ignored_inputs_witness :
  ConnectionManager.on_receive calm 7 (ConnectionManager.Text "hello") live_session
    = (live_session, inr tt) /\
  ConnectionManager.on_receive calm 7 (ConnectionManager.Bytes []) session_world
    = (session_world, inr tt).
Proof.
  pose proof (ignored_inputs calm 7 live_session) as (_ & Htext & _).
  pose proof (ignored_inputs calm 7 session_world) as (_ & _ & _ & Hbytes).
  split.
  - apply (Htext "hello" (Exn JSONDecodeError "Expecting value") eq_refl eq_refl).
    discriminate.
  - apply Hbytes; vm_compute; reflexivity.
Defined.

(** X9. The two ways to stop.  On a session table in order, the text [END]
    (which is not JSON) and a decoded object of type [stop] both do
    exactly what [stop_providers] does. *)
Theorem end_and_stop_run_stop_providers (E : Env) (ws : nat) (w : world) :
  sessions_ok w ->
  (forall e,
     json_loads E "END" = inl e -> exn_cls e = JSONDecodeError ->
     ConnectionManager.on_receive E ws (ConnectionManager.Text "END") w
     = ConnectionManager.stop_providers E ws w) /\
  (forall text d,
     json_loads E text = inr (VDict d) ->
     dict_lookup d "type" = Some (VStr "stop") ->
     ConnectionManager.on_receive E ws (ConnectionManager.Text text) w
     = ConnectionManager.stop_providers E ws w).
Proof.
  intros Hok.
  destruct (stop_providers_run E ws w Hok) as (w1 & w2 & Hrun & _).
  split.
  - intros e Hj Hcls.
    unfold ConnectionManager.on_receive, try_except, bind, lift. rewrite Hj.
    rewrite (bool_decide_eq_true_2 _ Hcls). reflexivity.
  - intros text d Hj Hty.
    unfold ConnectionManager.on_receive, try_except, bind, lift. rewrite Hj.
    unfold ConnectionManager.type_is, get1, get. cbn [rbind ok].
    rewrite Hty. cbn. rewrite Hrun. reflexivity.
Qed.

Lemma end_and_stop_run_stop_providers_witness :
  sessions_ok session_world /\
  ConnectionManager.on_receive calm 7 (ConnectionManager.Text "END") session_world
  = ConnectionManager.stop_providers calm 7 session_world.
Proof.
  split; [exact session_world_ok|].
  apply (proj1 (end_and_stop_run_stop_providers calm 7 session_world session_world_ok)
           (Exn JSONDecodeError "Expecting value")); reflexivity.
Defined.

(** X10. A text that decodes to something other than an object ends the
    session: [message.get] raises [AttributeError], which leaves the
    receive loop, so that nothing the client sent after it is processed;
    the endpoint logs the error and returns. *)
Theorem non_object_message_ends_the_session (E : Env) (ws : nat) (w : world)
    (text : string) (v : value) (rest : list ConnectionManager.client_data) :
  json_loads E text = inr v -> is_dict v = false ->
  ConnectionManager.on_receive E ws (ConnectionManager.Text text) w
    = (w, inl (no_get v)) /\
  ConnectionManager.receive_loop E ws (ConnectionManager.Text text :: rest) w
    = (w, inl (no_get v)) /\
  ConnectionManager.websocket_endpoint E ws (ConnectionManager.Text text :: rest) w
    = ConnectionManager.websocket_endpoint E ws [ConnectionManager.Text text] w.
Proof.
  intros Hj Hv.
  assert (Hrecv : forall w0,
            ConnectionManager.on_receive E ws (ConnectionManager.Text text) w0
            = (w0, inl (no_get v))).
  { intros w0.
    unfold ConnectionManager.on_receive, try_except, bind, lift. rewrite Hj.
    unfold ConnectionManager.type_is, get1, get.
    destruct v; try discriminate; reflexivity. }
  assert (Hloop : forall l w0,
            ConnectionManager.receive_loop E ws (ConnectionManager.Text text :: l) w0
            = (w0, inl (no_get v))).
  { intros l w0. cbn [ConnectionManager.receive_loop]. unfold bind.
    rewrite Hrecv. reflexivity. }
  split; [apply Hrecv|]. split; [apply Hloop|].
  unfold ConnectionManager.websocket_endpoint, bind, try_except.
  destruct (ConnectionManager.connect E ws w) as [w1 [e|[]]]; [reflexivity|].
  destruct (logger INFO "Client connected" w1) as [w2 [e|[]]]; [reflexivity|].
  rewrite !Hloop. reflexivity.
Qed.

Lemma non_object_message_ends_the_session_witness :
  ConnectionManager.receive_loop listing 7
    [ConnectionManager.Text "[]"; ConnectionManager.Bytes []] live_session
  = (live_session, inl (no_get (VList []))).
Proof.
  apply (non_object_message_ends_the_session listing 7 live_session "[]" (VList [])
           [ConnectionManager.Bytes []] eq_refl eq_refl).
Defined.
Import Sessions Isolation.

(* ===================================================================== *)
(** * Beyond the specification: one session does not reach another *)
(* ===================================================================== *)


Module SetupFacts.

Section Methods.
Context (E : Env) (self ws : nat).

Lemma setup_vendor c call o :
  call_provider call = Some c -> setup_call call = true ->
  setup_event c ws (call, o).
Proof. intros Hp Hs. left. split; assumption. Qed.

Lemma setup_error c o msg : setup_event c ws (SendText ws (error_event c msg), o).
Proof. right. exists msg. reflexivity. Qed.

(** Every call of [DeepgramProvider.connect] sets the channel up or
    reports the failure. *)
Lemma deepgram_connect_sets_up :
  method self Deepgram ws (setup_event Deepgram ws) returns
         (DeepgramProvider.connect E self).
Proof.
  unfold DeepgramProvider.connect. apply method_try.
  - apply method_bind_attr. intros a _ _.
    apply method_bind_lift; [intros; exact I|]. intros params _.
    apply method_bind_attr. intros a' _ _.
    apply method_seq.
    + apply method_construct. intros o. apply setup_vendor; reflexivity.
    + intros h. apply method_seq.
      * eapply method_any. apply method_set_attr. intros; split; reflexivity.
      * intros _. apply method_seq.
        -- eapply method_any. apply method_set_attr. intros; split; reflexivity.
        -- intros _. apply method_seq.
           ++ apply method_create_task. exact I.
           ++ intros _. apply method_logger. exact I.
  - intros a. eexists; reflexivity.
  - intros e. apply method_then.
    + apply method_logger. eexists; reflexivity.
    + intros _. apply send_error_method. intros o. apply setup_error.
Qed.

Lemma speechmatics_connect_sets_up :
  method self Speechmatics ws (setup_event Speechmatics ws) returns
         (SpeechmaticsProvider.connect E self).
Proof.
  unfold SpeechmaticsProvider.connect. apply method_try.
  - apply method_bind_attr. intros a _ _.
    apply method_seq; [apply method_logger; exact I|]. intros _.
    apply method_bind_lift; [intros; exact I|]. intros dia _.
    apply method_bind_lift; [intros; exact I|]. intros args _.
    apply method_seq; [apply method_logger; exact I|]. intros _.
    apply method_seq;
      [apply method_construct; intros o; apply setup_vendor; reflexivity|].
    intros voice_config.
    apply method_seq; [apply method_logger; exact I|]. intros _.
    apply method_seq.
    { destruct (truthy dia); [|apply method_ret; exact I].
      apply method_bind_lift; [intros; exact I|]. intros attrs _.
      apply method_seq;
        [apply method_perform; intros o; apply setup_vendor; reflexivity|].
      intros _. apply method_logger. exact I. }
    intros _. apply method_bind_attr. intros a' _ _.
    apply method_seq;
      [apply method_construct; intros o; apply setup_vendor; reflexivity|].
    intros client.
    apply method_seq;
      [eapply method_any; apply method_set_attr; intros; split; reflexivity|].
    intros _.
    do 6 (apply method_seq;
          [apply method_perform; intros o; apply setup_vendor; reflexivity|];
          intros _).
    apply method_seq;
      [eapply method_any; apply method_set_attr; intros; split; reflexivity|].
    intros _. apply method_logger. exact I.
  - intros a. eexists; reflexivity.
  - intros e. apply method_then.
    + apply method_logger. eexists; reflexivity.
    + intros _. apply send_error_method. intros o. apply setup_error.
Qed.

End Methods.

(** [client_only] admits everything the code for [ws] calls. *)
Lemma client_only_client ws v o : client_only ws (SendText ws v, o).
Proof. reflexivity. Qed.

Lemma client_only_accept ws o : client_only ws (Accept ws, o).
Proof. reflexivity. Qed.

Lemma client_only_control ws c ev : control_call c ws ev -> client_only ws ev.
Proof.
  unfold client_only. intros [Hv|(msg & Hw)].
  - unfold vendor_call in Hv. destruct (fst ev); try exact I; discriminate.
  - rewrite Hw. reflexivity.
Qed.

Lemma client_only_setup ws c ev : setup_event c ws ev -> client_only ws ev.
Proof.
  intros [(Hv & _)|Hw]; apply (client_only_control ws c); [left | right]; assumption.
Qed.

End SetupFacts.
Import SetupFacts.

Module IsolationFacts.

Section Confinement.
Context (E : Env) (ws : nat) (R : event -> Prop).

Lemma disconnect_present w cd :
  active_connections w !! ws = Some cd ->
  ConnectionManager.disconnect ws w
  = ({| trace := trace w; objects := objects w;
        active_connections := delete ws (active_connections w);
        tasks := teardown_tasks cd ++ tasks w; log := log w |}, inr tt).
Proof.
  intros Hcd. unfold ConnectionManager.disconnect. rewrite Hcd.
  unfold bind, ConnectionManager.disconnect_task, create_task, ret, teardown_tasks.
  destruct (cd_speechmatics cd), (cd_deepgram cd); reflexivity.
Qed.

Lemma confined_refl w : sessions_ok w -> confined R ws w w.
Proof.
  intros Hok. split; [exact Hok|]. split; [auto|]. split; [auto|].
  split; [auto|]. exists []. split; [reflexivity | constructor].
Qed.

Lemma confined_trans w1 w2 w3 :
  confined R ws w1 w2 -> confined R ws w2 w3 -> confined R ws w1 w3.
Proof.
  intros (_ & Hs1 & Ho1 & Ha1 & new1 & Hg1 & Hn1)
         (Hok & Hs2 & Ho2 & Ha2 & new2 & Hg2 & Hn2).
  split; [exact Hok|].
  split; [intros ws' Hne; rewrite Hs2, Hs1 by exact Hne; reflexivity|].
  split; [intros j a Hj Hne; apply Ho2; [apply Ho1|]; assumption|].
  split; [intros j c t Hj; apply Ha2, Ha1, Hj|].
  exists (new2 ++ new1). split.
  - unfold history_grows in *. rewrite Hg2, Hg1, app_assoc. reflexivity.
  - apply Forall_app. auto.
Qed.

(** A change that leaves the heap, the table and the history alone. *)
Lemma confined_quiet w w' :
  sessions_ok w ->
  objects w' = objects w -> active_connections w' = active_connections w ->
  trace w' = trace w ->
  confined R ws w w'.
Proof.
  intros Hok Ho Hc Ht.
  assert (Had : forall j c t, is_adapter j c t w -> is_adapter j c t w').
  { intros j c t (a & Ha & H). exists a. rewrite Ho. auto. }
  split.
  { intros ws0 cd p self Hcd Hp. rewrite Hc in Hcd. apply Had. eapply Hok; eauto. }
  split; [intros; rewrite Hc; reflexivity|].
  split; [intros j a Hj _; rewrite Ho; exact Hj|].
  split; [exact Had|].
  exists []. split; [exact Ht | constructor].
Qed.

(** A call on the channel of [ws], or to a vendor. *)
Lemma confined_call w w' ev :
  sessions_ok w ->
  objects w' = objects w -> active_connections w' = active_connections w ->
  trace w' = ev :: trace w -> R ev ->
  confined R ws w w'.
Proof.
  intros Hok Ho Hc Ht Hev.
  assert (Had : forall j c t, is_adapter j c t w -> is_adapter j c t w').
  { intros j c t (a & Ha & H). exists a. rewrite Ho. auto. }
  split.
  { intros ws0 cd p self Hcd Hp. rewrite Hc in Hcd. apply Had. eapply Hok; eauto. }
  split; [intros; rewrite Hc; reflexivity|].
  split; [intros j a Hj _; rewrite Ho; exact Hj|].
  split; [exact Had|].
  exists [ev]. split; [exact Ht | repeat constructor; exact Hev].
Qed.

(** ** Rules *)

Lemma serves_weaken {A} (P P' : world -> Prop) (Q Q' : A -> world -> Prop) m :
  (forall w, P' w -> P w) -> (forall a w, Q a w -> Q' a w) ->
  serves R ws P m Q -> serves R ws P' m Q'.
Proof.
  intros HP HQ Hm w Hok Hw. destruct (Hm w Hok (HP w Hw)) as (Hc & Hq).
  split; [exact Hc|]. intros a Ha. apply HQ, Hq, Ha.
Qed.

Lemma serves_ret {A} (P : world -> Prop) (a : A) (Q : A -> world -> Prop) :
  (forall w, P w -> Q a w) -> serves R ws P (ret a) Q.
Proof.
  intros HQ w Hok Hw. split; [apply confined_refl, Hok|].
  intros a' Ha. injection Ha as <-. apply HQ, Hw.
Qed.

Lemma serves_raise {A} (P : world -> Prop) e (Q : A -> world -> Prop) :
  serves R ws P (raise e) Q.
Proof.
  intros w Hok Hw. split; [apply confined_refl, Hok|]. intros a Ha. discriminate.
Qed.

Lemma serves_lift {A} (P : world -> Prop) (r : res A) (Q : A -> world -> Prop) :
  (forall a w, r = inr a -> P w -> Q a w) -> serves R ws P (lift r) Q.
Proof.
  intros HQ w Hok Hw. split; [apply confined_refl, Hok|].
  intros a Ha. apply HQ; assumption.
Qed.

Lemma serves_logger (P : world -> Prop) l msg (Q : unit -> world -> Prop) :
  (forall w, P w -> Q tt (with_log ((l, msg) :: log w) w)) ->
  serves R ws P (logger l msg) Q.
Proof.
  intros HQ w Hok Hw. split; [apply confined_quiet; auto|].
  intros [] _. apply HQ, Hw.
Qed.

Lemma serves_perform (P : world -> Prop) c (Q : string -> world -> Prop) :
  (forall o, R (c, o)) ->
  (forall w o, P w -> Q o (with_trace ((c, inr o) :: trace w) w)) ->
  serves R ws P (perform E c) Q.
Proof.
  intros Hc HQ w Hok Hw. unfold perform. cbn [fst snd]. split.
  - eapply confined_call; [exact Hok|reflexivity|reflexivity|reflexivity|apply Hc].
  - intros o Ho. rewrite Ho. apply HQ, Hw.
Qed.

Lemma serves_bind {A B} (P : world -> Prop) (m : M A) (k : A -> M B)
    (Q : A -> world -> Prop) (S : B -> world -> Prop) :
  serves R ws P m Q -> (forall a, serves R ws (Q a) (k a) S) ->
  serves R ws P (bind m k) S.
Proof.
  intros Hm Hk w Hok Hw. destruct (Hm w Hok Hw) as (Hc & Hq).
  unfold bind. destruct (m w) as [w1 [e|a]]; cbn [fst snd] in *.
  - split; [exact Hc|]. intros b Hb. discriminate.
  - destruct (Hk a w1 (proj1 Hc) (Hq a eq_refl)) as (Hc2 & Hr).
    split; [eapply confined_trans; eauto | exact Hr].
Qed.

Lemma serves_try {A} (P : world -> Prop) (m : M A) (h : exn -> M A)
    (Q : A -> world -> Prop) :
  serves R ws P m Q -> (forall e, serves R ws anywhere (h e) Q) ->
  serves R ws P (try_except m h) Q.
Proof.
  intros Hm Hh w Hok Hw. destruct (Hm w Hok Hw) as (Hc & Hq).
  unfold try_except. destruct (m w) as [w1 [e|a]]; cbn [fst snd] in *.
  - destruct (Hh e w1 (proj1 Hc) I) as (Hc2 & Hr).
    split; [eapply confined_trans; eauto | exact Hr].
  - split; [exact Hc | exact Hq].
Qed.

(** ** The adapters of the session *)

(** A method of an adapter of [ws] serves [ws]. *)
Lemma serves_method {A} self c (P : event -> Prop) (Q : res A -> Prop) (m : M A) :
  method self c ws P Q m ->
  (forall ev, P ev -> R ev) ->
  serves R ws (is_adapter self c ws) m (fun _ => is_adapter self c ws).
Proof.
  intros Hm HP w Hok Hw.
  destruct (Hm w Hw) as (_ & Hw' & (Hconn & Hlen & Hother) & new & Hg & Hnew).
  assert (Hkept : forall j c0 t, is_adapter j c0 t w -> is_adapter j c0 t (fst (m w))).
  { intros j c0 t Hj. destruct (decide (j = self)) as [->|Hne].
    - destruct Hj as (a & Ha & <- & <-). destruct Hw as (a0 & Ha0 & <- & <-).
      assert (a0 = a) by congruence. subst a0. exact Hw'.
    - destruct Hj as (a & Ha & H). exists a. rewrite (Hother j Hne). auto. }
  split; [|intros; exact Hw'].
  split.
  { intros ws0 cd p s Hcd Hp. rewrite Hconn in Hcd. apply Hkept. eapply Hok; eauto. }
  split; [intros; rewrite Hconn; reflexivity|].
  split.
  { intros j a Hj Hne. rewrite Hother; [exact Hj|].
    intros ->. destruct Hw as (a0 & Ha0 & _ & Hws). congruence. }
  split; [exact Hkept|].
  exists new. split; [exact Hg|]. eapply Forall_impl; [exact Hnew | exact HP].
Qed.

(** What the code may call: [R] admits the writes to the client of
    [ws] and the calls with which [connect] sets a channel up. *)
Hypothesis R_client : forall v o, R (SendText ws v, o).
Hypothesis R_setup : forall c ev, setup_event c ws ev -> R ev.

Lemma serves_provider_connect self c :
  serves R ws (is_adapter self c ws) (ConnectionManager.provider_connect E self)
         (fun _ => is_adapter self c ws).
Proof.
  intros w Hok Hw. pose proof Hw as (a & Ha & Hc & Hs).
  unfold ConnectionManager.provider_connect, bind, attr. rewrite Ha, Hc.
  destruct c.
  - exact (serves_method self Speechmatics _ _ _
             (speechmatics_connect_sets_up E self ws)
             (R_setup Speechmatics) w Hok Hw).
  - exact (serves_method self Deepgram _ _ _
             (deepgram_connect_sets_up E self ws)
             (R_setup Deepgram) w Hok Hw).
Qed.

(** ** The table *)

Lemma serves_quiet {A} (P : world -> Prop) (m : M A) :
  (forall w, fst (m w) = w) -> serves R ws P m anything.
Proof.
  intros Hm w Hok Hw. rewrite Hm. split; [apply confined_refl, Hok|].
  intros; exact I.
Qed.

Lemma serves_stored_provider (P : world -> Prop) p :
  serves R ws P (ConnectionManager.stored_provider ws p)
         (fun r w => stored_adapter ws p r w /\ P w).
Proof.
  intros w Hok Hw. split; [apply confined_refl, Hok|].
  intros r Hr. cbn in Hr. injection Hr as <-. cbn [fst].
  split; [|exact Hw].
  destruct (active_connections w !! ws) as [cd|] eqn:Hcd; [|exact I].
  destruct (ConnectionManager.cd_provider p cd) as [self|] eqn:Hp; [|exact I].
  eapply Hok; eauto.
Qed.

(** Rewriting the entry of [ws]: what the new entry stores was stored
    before, or is an adapter of [ws]. *)
Lemma serves_update_connection (P : world -> Prop) upd :
  (forall w cd q s, P w ->
     ConnectionManager.cd_provider q (upd cd) = Some s ->
     ConnectionManager.cd_provider q cd = Some s \/ is_adapter s q ws w) ->
  serves R ws P (ConnectionManager.update_connection ws upd) anything.
Proof.
  intros Hupd w Hok Hw. split; [|intros; exact I].
  unfold ConnectionManager.update_connection. cbn [fst].
  destruct (active_connections w !! ws) as [cd|] eqn:Hcd;
    [|apply confined_quiet; [exact Hok|reflexivity..]].
  assert (Had : forall j c t, is_adapter j c t w ->
                is_adapter j c t (with_connections
                                    (<[ws := upd cd]> (active_connections w)) w))
    by (intros j c t Hj; exact Hj).
  split.
  { intros ws0 cd0 q s Hcd0 Hq. cbn in Hcd0. apply Had.
    destruct (decide (ws0 = ws)) as [->|Hne].
    - rewrite lookup_insert_eq in Hcd0. injection Hcd0 as <-.
      destruct (Hupd w cd q s Hw Hq) as [Hold|Hnew]; [|exact Hnew].
      eapply Hok; eauto.
    - rewrite lookup_insert_ne in Hcd0 by congruence. eapply Hok; eauto. }
  split.
  { intros ws' Hne. cbn. rewrite lookup_insert_ne by congruence. reflexivity. }
  split; [intros j a Hj _; exact Hj|].
  split; [exact Had|].
  exists []. split; [reflexivity | constructor].
Qed.

Lemma serves_new_object a :
  websocket a = ws ->
  serves R ws anywhere (new_object a) (fun self => is_adapter self (cls a) ws).
Proof.
  intros Hws w Hok _. unfold new_object. cbn [fst snd].
  assert (Had : forall j c t, is_adapter j c t w ->
                is_adapter j c t (with_objects (objects w ++ [a]) w)).
  { intros j c t (a0 & Ha0 & H). exists a0. cbn.
    rewrite lookup_app_l by (eapply lookup_lt_Some; eauto). auto. }
  split.
  - split.
    { intros ws0 cd p s Hcd Hp. apply Had. eapply Hok; eauto. }
    split; [reflexivity|].
    split.
    { intros j a0 Hj _. cbn.
      rewrite lookup_app_l by (eapply lookup_lt_Some; eauto). exact Hj. }
    split; [exact Had|].
    exists []. split; [reflexivity | constructor].
  - intros self Hself. injection Hself as <-. exists a. cbn.
    rewrite lookup_app_r by lia. rewrite Nat.sub_diag. auto.
Qed.

(** [asyncio.gather(..., return_exceptions=True)] over coroutines that
    serve [ws] from a condition that survives them. *)
Lemma serves_gather (P : world -> Prop) (ms : list (M unit)) :
  (forall w w', P w -> confined R ws w w' -> P w') ->
  Forall (fun m => serves R ws P m anything) ms ->
  serves R ws P (gather_return_exceptions ms) anything.
Proof.
  intros Hstable Hms. induction Hms as [|m ms Hm _ IH].
  - apply serves_ret. intros; exact I.
  - intros w Hok Hw. cbn [gather_return_exceptions].
    destruct (Hm w Hok Hw) as (Hc & _).
    destruct (m w) as [w1 o]. cbn [fst snd] in *.
    assert (Hrest : serves R ws P
              (bind (gather_return_exceptions ms) (fun rs => ret (o :: rs)))
              anything).
    { eapply serves_bind; [exact IH|]. intros rs. apply serves_ret. intros; exact I. }
    destruct (Hrest w1 (proj1 Hc) (Hstable _ _ Hw Hc)) as (Hc2 & _).
    split; [eapply confined_trans; eauto | intros; exact I].
Qed.

(** ** The coordinator *)

Lemma serves_initialize_one p config sample_rate :
  serves R ws anywhere (ConnectionManager.initialize_one E ws p config sample_rate)
         anything.
Proof.
  unfold ConnectionManager.initialize_one.
  eapply serves_bind with (Q := anything); [apply serves_lift; intros; exact I|]. intros provider_config.
  eapply serves_bind with (Q := anything).
  { destruct p; [apply serves_logger | apply serves_ret]; intros; exact I. }
  intros ?.
  eapply serves_bind with (Q := anything); [apply serves_lift; intros; exact I|]. intros key.
  destruct (truthy key).
  - eapply serves_bind with (Q := anything); [apply serves_lift; intros; exact I|]. intros cfg.
    eapply serves_bind with (Q := anything); [apply serves_lift; intros; exact I|]. intros api_key.
    eapply serves_bind; [apply serves_new_object; reflexivity|]. intros self.
    cbn [cls init].
    eapply serves_bind; [apply serves_provider_connect|]. intros ?.
    apply serves_update_connection.
    intros w cd q s Hs Hq. destruct p, q; cbn in Hq |- *; auto;
      injection Hq as <-; auto.
  - eapply serves_bind with (Q := anything);
      [|intros; apply serves_ret; intros; exact I].
    apply serves_perform; [intros; first [apply R_client | apply R_accept] | intros; exact I].
Qed.

Lemma serves_initialize_providers config :
  serves R ws anywhere (ConnectionManager.initialize_providers E ws config) anything.
Proof.
  unfold ConnectionManager.initialize_providers.
  eapply serves_bind with (Q := anything).
  { apply serves_quiet. intros w. destruct (active_connections w !! ws); reflexivity. }
  intros ?.
  eapply serves_bind with (Q := anything).
  { apply serves_update_connection. intros w cd q s _ Hq.
    left. destruct q; exact Hq. }
  intros ?. apply serves_try.
  - eapply serves_bind with (Q := anything); [apply serves_lift; intros; exact I|]. intros audio.
    eapply serves_bind with (Q := anything); [apply serves_lift; intros; exact I|]. intros rate.
    eapply serves_bind with (Q := anything); [apply serves_initialize_one|]. intros ?.
    apply serves_initialize_one.
  - intros e.
    eapply serves_bind with (Q := anything); [apply serves_logger; intros; exact I|]. intros ?.
    eapply serves_bind with (Q := anything);
      [|intros; apply serves_ret; intros; exact I].
    apply serves_perform; [intros; first [apply R_client | apply R_accept] | intros; exact I].
Qed.

(** From here on [R] also admits the other calls of an adapter to its
    vendor, and [accept()] on the channel of [ws]. *)
Hypothesis R_control : forall c ev, control_call c ws ev -> R ev.
Hypothesis R_accept : forall o, R (Accept ws, o).

Lemma serves_provider_disconnect self c :
  serves R ws (is_adapter self c ws) (ConnectionManager.provider_disconnect E self)
         (fun _ => is_adapter self c ws).
Proof.
  intros w Hok Hw. pose proof Hw as (a & Ha & Hc & Hs).
  unfold ConnectionManager.provider_disconnect, bind, attr. rewrite Ha, Hc.
  destruct c.
  - exact (serves_method self Speechmatics _ _ _
             (speechmatics_disconnect_method E self ws)
             (fun ev Hev => R_control Speechmatics ev (or_introl Hev)) w Hok Hw).
  - exact (serves_method self Deepgram _ _ _
             (deepgram_disconnect_method E self ws)
             (fun ev Hev => R_control Deepgram ev (or_introl Hev)) w Hok Hw).
Qed.

Lemma serves_provider_send_audio self c audio_data :
  serves R ws (is_adapter self c ws)
         (ConnectionManager.provider_send_audio E self audio_data)
         (fun _ => is_adapter self c ws).
Proof.
  intros w Hok Hw. pose proof Hw as (a & Ha & Hc & Hs).
  unfold ConnectionManager.provider_send_audio, bind, attr. rewrite Ha, Hc.
  destruct c.
  - exact (serves_method self Speechmatics _ _ _
             (speechmatics_send_audio_method E self ws audio_data)
             (R_control Speechmatics) w Hok Hw).
  - exact (serves_method self Deepgram _ _ _
             (deepgram_send_audio_method E self ws audio_data)
             (R_control Deepgram) w Hok Hw).
Qed.

Lemma serves_stop_one p :
  serves R ws anywhere (ConnectionManager.stop_one E ws p) anything.
Proof.
  unfold ConnectionManager.stop_one.
  eapply serves_bind; [apply serves_stored_provider|]. intros [self|].
  - cbn [stored_adapter].
    eapply serves_bind.
    { eapply serves_weaken; [| |apply (serves_provider_disconnect self p)].
      - intros w (Hw & _). exact Hw.
      - intros a w Hw. exact Hw. }
    intros ?.
    apply serves_update_connection. intros w cd q s _ Hq.
    left. destruct p, q; cbn in Hq |- *; auto; discriminate.
  - apply serves_ret. intros; exact I.
Qed.

Lemma serves_stop_providers :
  serves R ws anywhere (ConnectionManager.stop_providers E ws) anything.
Proof.
  unfold ConnectionManager.stop_providers.
  eapply serves_bind with (Q := anything); [|intros ?]; apply serves_stop_one.
Qed.

Lemma serves_send_audio_to_providers audio_data :
  serves R ws anywhere (ConnectionManager.send_audio_to_providers E ws audio_data)
         anything.
Proof.
  unfold ConnectionManager.send_audio_to_providers.
  eapply serves_bind; [apply serves_stored_provider|]. intros sm.
  eapply serves_bind; [apply serves_stored_provider|]. intros dg. cbn beta.
  set (P := fun w => stored_adapter ws Deepgram dg w /\
                     stored_adapter ws Speechmatics sm w /\ anywhere w).
  assert (Hstable : forall w w', P w -> confined R ws w w' -> P w').
  { intros w w' (Hd & Hs & _) (_ & _ & _ & Hkept & _). split; [|split; [|exact I]].
    - destruct dg; [apply Hkept, Hd | exact I].
    - destruct sm; [apply Hkept, Hs | exact I]. }
  assert (Hone : forall c r,
            (forall w, P w -> stored_adapter ws c r w) ->
            Forall (fun m => serves R ws P m anything)
                   match r with
                   | Some p => [ConnectionManager.provider_send_audio E p audio_data]
                   | None => []
                   end).
  { intros c [p|] Hr; constructor; [|constructor].
    eapply serves_weaken; [| |apply (serves_provider_send_audio p c)].
    - intros w Hw. apply (Hr w Hw).
    - intros; exact I. }
  assert (Htasks : Forall (fun m => serves R ws P m anything)
            (match sm with
             | Some p => [ConnectionManager.provider_send_audio E p audio_data]
             | None => []
             end ++
             match dg with
             | Some p => [ConnectionManager.provider_send_audio E p audio_data]
             | None => []
             end)).
  { apply Forall_app. split.
    - apply (Hone Speechmatics). intros w Hw. apply Hw.
    - apply (Hone Deepgram). intros w Hw. apply Hw. }
  destruct (_ ++ _) as [|m ms].
  - apply serves_ret. intros; exact I.
  - eapply serves_bind with (Q := anything);
      [|intros; apply serves_ret; intros; exact I].
    apply serves_gather; assumption.
Qed.

Lemma serves_on_receive data :
  serves R ws anywhere (ConnectionManager.on_receive E ws data) anything.
Proof.
  unfold ConnectionManager.on_receive. apply serves_try.
  - destruct data as [text|audio_data|].
    + eapply serves_bind with (Q := anything); [apply serves_lift; intros; exact I|].
      intros message.
      eapply serves_bind with (Q := anything); [apply serves_lift; intros; exact I|].
      intros [|].
      * eapply serves_bind with (Q := anything); [apply serves_lift; intros; exact I|].
        intros received_config.
        eapply serves_bind with (Q := anything);
          [apply serves_logger; intros; exact I|].
        intros ?. apply serves_initialize_providers.
      * eapply serves_bind with (Q := anything); [apply serves_lift; intros; exact I|].
        intros is_stop.
        destruct (is_stop || String.eqb text "END");
          [apply serves_stop_providers | apply serves_ret; intros; exact I].
    + apply serves_send_audio_to_providers.
    + apply serves_ret. intros; exact I.
  - intros e. destruct (bool_decide (exn_cls e = JSONDecodeError)).
    + destruct data as [text| |]; try (apply serves_ret; intros; exact I).
      destruct (String.eqb text "END");
        [apply serves_stop_providers | apply serves_ret; intros; exact I].
    + apply serves_raise.
Qed.

Lemma serves_receive_loop inputs :
  serves R ws anywhere (ConnectionManager.receive_loop E ws inputs) anything.
Proof.
  induction inputs as [|data inputs IH]; cbn [ConnectionManager.receive_loop].
  - apply serves_raise.
  - eapply serves_bind with (Q := anything); [apply serves_on_receive|].
    intros ?. exact IH.
Qed.

Lemma serves_connect :
  serves R ws anywhere (ConnectionManager.connect E ws) anything.
Proof.
  unfold ConnectionManager.connect.
  eapply serves_bind with (Q := anything);
    [apply serves_perform; [intros; first [apply R_client | apply R_accept] | intros; exact I]|].
  intros ? w Hok _. cbn [fst snd]. split; [|intros; exact I].
  split.
  { intros ws0 cd q s Hcd Hq. cbn in Hcd.
    destruct (decide (ws0 = ws)) as [->|Hne].
    - rewrite lookup_insert_eq in Hcd. injection Hcd as <-.
      destruct q; discriminate.
    - rewrite lookup_insert_ne in Hcd by congruence.
      exact (Hok ws0 cd q s Hcd Hq). }
  split; [intros ws' Hne; cbn; rewrite lookup_insert_ne by congruence; reflexivity|].
  split; [intros j a0 Hj _; exact Hj|].
  split; [intros j c t Hj; exact Hj|].
  exists []. split; [reflexivity | constructor].
Qed.

Lemma serves_disconnect :
  serves R ws anywhere (ConnectionManager.disconnect ws) anything.
Proof.
  intros w Hok _. split; [|intros; exact I].
  destruct (active_connections w !! ws) as [cd|] eqn:Hcd.
  - rewrite (disconnect_present w cd Hcd). cbn [fst].
    split.
    { intros ws0 cd0 q s Hcd0 Hq. cbn in Hcd0.
      apply lookup_delete_Some in Hcd0 as (_ & Hcd0).
      exact (Hok ws0 cd0 q s Hcd0 Hq). }
    split; [intros ws' Hne; cbn; rewrite lookup_delete_ne by congruence; reflexivity|].
    split; [intros j a0 Hj _; exact Hj|].
    split; [intros j c t Hj; exact Hj|].
    exists []. split; [reflexivity | constructor].
  - rewrite (disconnect_absent ws w Hcd). apply confined_refl, Hok.
Qed.

Lemma serves_websocket_endpoint inputs :
  serves R ws anywhere (ConnectionManager.websocket_endpoint E ws inputs) anything.
Proof.
  unfold ConnectionManager.websocket_endpoint.
  eapply serves_bind with (Q := anything); [apply serves_connect|]. intros ?.
  eapply serves_bind with (Q := anything); [apply serves_logger; intros; exact I|].
  intros ? w Hok _. split; [|intros; exact I].
  assert (Hloop : serves R ws anywhere
            (try_except (ConnectionManager.receive_loop E ws inputs)
               (fun e =>
                  if bool_decide (exn_cls e = WebSocketDisconnect)
                  then logger INFO "Client disconnected"
                  else logger ERROR ("WebSocket error: " ++ exn_str e)))
            anything).
  { apply serves_try; [apply serves_receive_loop|].
    intros e. destruct (bool_decide _); apply serves_logger; intros; exact I. }
  destruct (Hloop w Hok I) as (Hc1 & _).
  destruct (try_except _ _ w) as [w1 r1]. cbn [fst] in Hc1.
  destruct (serves_disconnect w1 (proj1 Hc1) I) as (Hc2 & _).
  destruct (ConnectionManager.disconnect ws w1) as [w2 r2]. cbn [fst] in *.
  eapply confined_trans; eauto.
Qed.

End Confinement.
End IsolationFacts.

(** X11. While a client is served, from [accept()] to the removal of its
    session, whatever it sends and whatever the vendors answer: the
    table stays in order (what a session stores are adapters of its own
    client), the sessions of the other clients are not touched, the
    adapters of the other clients are not touched, and no other client
    channel is accepted or written to. *)
Theorem a_session_does_not_reach_another (E : Env) (ws : nat)
    (inputs : list ConnectionManager.client_data) (w : world) :
  sessions_ok w ->
  let w' := fst (ConnectionManager.websocket_endpoint E ws inputs w) in
  sessions_ok w' /\
  (forall ws', ws' <> ws ->
     active_connections w' !! ws' = active_connections w !! ws') /\
  (forall j a, objects w !! j = Some a -> websocket a <> ws ->
     objects w' !! j = Some a) /\
  Forall (client_only ws) (added w w').
Proof.
  intros Hok.
  destruct (IsolationFacts.serves_websocket_endpoint E ws (client_only ws)
              (client_only_client ws) (client_only_setup ws)
              (client_only_control ws) (client_only_accept ws) inputs w Hok I)
    as ((Hok' & Hs & Ho & _ & new & Hg & Hnew) & _).
  cbv zeta. rewrite (added_grows _ _ _ Hg). auto.
Qed.

Lemma a_session_does_not_reach_another_witness :
  sessions_ok live_session /\
  active_connections
    (fst (ConnectionManager.websocket_endpoint calm 8
            [ConnectionManager.Text "END"] live_session)) !! 7%nat
  = active_connections live_session !! 7%nat.
Proof.
  assert (Hok : sessions_ok live_session)
    by exact (proj1 (proj1 (IsolationFacts.serves_initialize_providers
                              calm 7 (client_only 7) (client_only_client 7)
                              (client_only_setup 7)
                              both_keys session_world session_world_ok I))).
  split; [exact Hok|].
  pose proof (a_session_does_not_reach_another calm 8
                [ConnectionManager.Text "END"] live_session Hok) as (_ & Hs & _).
  apply Hs. discriminate.
Defined.
Import Segments Delivery DeliveryFacts.

(* ===================================================================== *)
(** * Beyond the specification: what the handlers write *)
(* ===================================================================== *)



(** X13. The text and the finality of a transcript.  The two segment
    handlers of Speechmatics write the transcripts of the segments of
    their message, in order, and the transcript at position [i] carries
    the [text] of the segment at position [i] (the empty string when the
    segment has none); [is_final] is [True] from
    [_handle_final_segments] and [False] from
    [_handle_partial_segments].  Every transcript of Deepgram carries the
    non-empty [transcript] of the first alternative as [text] and the
    [is_final] of the message, [False] when the message has none. *)
Theorem text_and_finality_are_the_vendors (E : Env) (sm dg ws : nat) (w : world) :
  is_adapter sm Speechmatics ws w ->
  is_adapter dg Deepgram ws w ->
  (forall k message segments l,
     segment_kind k = true ->
     getitem message "segments" = inr segments ->
     iter segments = inr l ->
     sent_in_order E ws (translations (builder k) l) w
       (fst (SpeechmaticsProvider.handler E sm k message w)) /\
     (forall i t,
        translations (builder k) l !! i = Some t ->
        exists segment inner text,
          l !! i = Some segment /\
          transcript_of t = Some inner /\
          get segment "text" (VStr EmptyString) = inr text /\
          dict_lookup inner "text" = Some text /\
          dict_lookup inner "is_final" = Some (VBool (final_kind k))) /\
     (Forall (fun segment => plain_segment segment = true) l ->
      length (translations (builder k) l) = length l)) /\
  (forall response, exists new,
     history_grows w (fst (DeepgramProvider._process_response E dg response w)) new /\
     Forall (fun ev => forall payload inner,
               fst ev = SendText ws payload ->
               transcript_of payload = Some inner ->
               exists data alternative text is_final,
                 json_loads E response = inr data /\
                 first_alternative data = inr alternative /\
                 get alternative "transcript" (VStr EmptyString) = inr text /\
                 truthy text = true /\
                 get data "is_final" (VBool false) = inr is_final /\
                 dict_lookup inner "text" = Some text /\
                 dict_lookup inner "is_final" = Some is_final) new).
Proof.
  intros Hsm Hdg. split.
  - intros k message segments l Hk Hseg Hl. split; [|split].
    + exact (SegmentFacts.handler_sends E sm ws k message segments l w Hk Hsm Hseg Hl).
    + intros i t Ht.
      destruct (translations_lookup _ _ _ _ Ht) as (segment & Hi & Hb).
      destruct k; try discriminate; cbn [builder] in Hb.
      * destruct (partial_transcript_fields _ _ Hb)
          as (inner & text & st & et & sms & ems & sp & -> & Htext & _ & _ & _ & _
              & _ & Hlk & Hfin & _).
        exists segment, inner, text. auto.
      * destruct (final_transcript_fields _ _ Hb)
          as (inner & text & st & et & sms & ems & cf & sp & -> & Htext & _ & _ & _
              & _ & _ & _ & Hlk & Hfin & _).
        exists segment, inner, text. auto.
    + intros Hplain. apply translations_all.
      eapply Forall_impl; [exact Hplain|]. intros segment. apply builder_plain.
  - intros response.
    destruct (response_transcripts E dg ws w response Hdg) as (new & Hnew & Hall).
    exists new. split; [exact Hnew|].
    eapply Forall_impl; [exact Hall|]. intros ev Hev payload inner Hsend Ht.
    destruct (Hev payload inner Hsend Ht)
      as (data & alt & text & Hd & Ha & Htext & Htr & Hm).
    destruct (transcript_message_fields _ _ _ _ Hm)
      as (inner' & fin & st & du & sms & dms & ems & cf & sp & -> & Hfin & _ & _
          & _ & _ & _ & _ & _ & Hl & Hf & _).
    cbn in Ht. injection Ht as <-.
    exists data, alt, text, fin. auto 10.
Qed.

Lemma text_and_finality_are_the_vendors_witness :
  (sent_in_order calm 7
     (translations (builder ADD_PARTIAL_SEGMENT) [speechmatics_segment]) two_adapters
     (fst (SpeechmaticsProvider.handler calm 0 ADD_PARTIAL_SEGMENT
             speechmatics_message two_adapters)) /\
   length (translations (builder ADD_PARTIAL_SEGMENT) [speechmatics_segment])
   = 1%nat) /\
  exists new,
    history_grows two_adapters
      (fst (DeepgramProvider._process_response decoding 1 "r" two_adapters)) new /\
    Forall (fun ev => forall payload inner,
              fst ev = SendText 7 payload ->
              transcript_of payload = Some inner ->
              exists data alternative text is_final,
                json_loads decoding "r" = inr data /\
                first_alternative data = inr alternative /\
                get alternative "transcript" (VStr EmptyString) = inr text /\
                truthy text = true /\
                get data "is_final" (VBool false) = inr is_final /\
                dict_lookup inner "text" = Some text /\
                dict_lookup inner "is_final" = Some is_final) new.
Proof.
  split.
  - destruct (proj1 (text_and_finality_are_the_vendors calm 0 1 7 two_adapters
                       two_adapters_speechmatics two_adapters_deepgram)
                ADD_PARTIAL_SEGMENT speechmatics_message
                (VList [speechmatics_segment]) [speechmatics_segment]
                eq_refl eq_refl eq_refl) as (Hsent & _ & Hall).
    split; [exact Hsent|]. apply Hall. repeat constructor.
  - apply (text_and_finality_are_the_vendors decoding 0 1 7 two_adapters
             two_adapters_speechmatics two_adapters_deepgram).
Defined.

(** X14. Results without text.  A result of Deepgram whose list of
    alternatives is empty, or whose first alternative has an empty or
    missing [transcript], is dropped: nothing is sent, nothing is
    logged, the world is as it was. *)
Theorem deepgram_results_without_text_are_dropped (E : Env) (self : nat)
    (w : world) (response : string) (d ch : list (string * value))
    (alternatives : value) :
  json_loads E response = inr (VDict d) ->
  dict_lookup d "channel" = Some (VDict ch) ->
  dict_lookup ch "alternatives" = Some alternatives ->
  (alternatives = VList [] \/
   exists al rest,
     alternatives = VList (VDict al :: rest) /\
     truthy (option_or al "transcript" (VStr EmptyString)) = false) ->
  DeepgramProvider._process_response E self response w = (w, inr tt).
Proof.
  intros Hj Hch Halt Hcases.
  unfold DeepgramProvider._process_response, try_except, bind, lift.
  rewrite Hj.
  unfold DeepgramProvider.is_transcription, DeepgramProvider.transcription_result.
  cbn [contains getitem get rbind ok]. rewrite Hch. cbn [contains getitem get rbind ok].
  rewrite Halt. cbn [rbind ok].
  destruct Hcases as [->|(al & rest & -> & Hempty)].
  - reflexivity.
  - cbn [truthy getitem0 get rbind ok]. unfold option_or in Hempty.
    rewrite Hempty. reflexivity.
Qed.

Lemma deepgram_results_without_text_are_dropped_witness :
  DeepgramProvider._process_response silent 1 "r" two_adapters
  = (two_adapters, inr tt).
Proof.
  apply (deepgram_results_without_text_are_dropped silent 1 two_adapters "r"
           [("channel", VDict [("alternatives",
                                VList [VDict [("transcript", VStr EmptyString)]])])]
           [("alternatives", VList [VDict [("transcript", VStr EmptyString)]])]
           (VList [VDict [("transcript", VStr EmptyString)]])
           eq_refl eq_refl eq_refl).
  right. eexists _, _. split; reflexivity.
Defined.

(** X15. The messages of Deepgram that are not results: a decoded object
    with no [channel].  One of type [Error] is passed on to the client
    as ["Deepgram error: " ++ description], the description being
    ["Unknown error"] when the message has none; any other message, with
    or without a type, is ignored. *)
Theorem deepgram_metadata_messages (E : Env) (self ws : nat) (w : world)
    (response : string) (d : list (string * value)) :
  is_adapter self Deepgram ws w ->
  json_loads E response = inr (VDict d) ->
  dict_lookup d "channel" = None ->
  if is_str "Error" (option_or d "type" VNone)
  then
    snd (DeepgramProvider._process_response E self response w) = inr tt /\
    exists o,
      trace (fst (DeepgramProvider._process_response E self response w))
      = (SendText ws
           (error_event Deepgram
              ("Deepgram error: "
               ++ str E (option_or d "description" (VStr "Unknown error")))), o)
        :: trace w
  else DeepgramProvider._process_response E self response w = (w, inr tt).
Proof.
  intros (a & Ha & Hc & Hs) Hj Hch.
  unfold DeepgramProvider._process_response. run_with Ha. rewrite Hj. run_with Ha.
  unfold DeepgramProvider.is_transcription.
  cbn [contains getitem get rbind ok]. rewrite Hch. cbn [rbind ok]. run_with Ha.
  unfold option_or.
  destruct (dict_lookup d "type") as [ty|] eqn:Hty; cbn [ok]; run_with Ha;
    [|reflexivity].
  destruct (is_str "UtteranceEnd" ty) eqn:H1.
  { destruct ty; try discriminate. cbn [is_str] in H1.
    apply String.eqb_eq in H1. subst s. reflexivity. }
  destruct (is_str "SpeechStarted" ty) eqn:H2.
  { destruct ty; try discriminate. cbn [is_str] in H2.
    apply String.eqb_eq in H2. subst s. reflexivity. }
  destruct (is_str "Error" ty); [|reflexivity].
  run_with Ha. rewrite Hc, Hs. cbn [provider_name]. run_with Ha.
  next_call; run_with Ha; (split; [reflexivity|]); eexists; reflexivity.
Qed.

Lemma deepgram_metadata_messages_witness :
  exists o,
    trace (fst (DeepgramProvider._process_response failing 1 "r" two_adapters))
    = [(SendText 7 (error_event Deepgram "Deepgram error: Unknown error"), o)].
Proof.
  pose proof (deepgram_metadata_messages failing 1 7 two_adapters "r"
                [("type", VStr "Error")] two_adapters_deepgram eq_refl eq_refl)
    as (_ & o & Ht).
  exists o. exact Ht.
Defined.

(* ===================================================================== *)
(** * Beyond the specification: the base class and the teardown *)
(* ===================================================================== *)

(** X16. [send_result_to_client] stamps the result with the name of the
    provider: whatever [provider] the result held is overwritten, every
    other key goes out as it was, and the message is written to the
    client of the adapter, once.  The method never raises: if
    [send_text] raises, the error is printed and that is all. *)
Theorem results_are_stamped_with_the_provider (E : Env) (w : world)
    (self : nat) (c : provider) (ws : nat) (result : list (string * value)) :
  is_adapter self c ws w ->
  let w' := fst (send_result_to_client E self result w) in
  let payload := dict_set result "provider" (VStr (provider_name c)) in
  let answer := respond E (trace w) (SendText ws (VDict payload)) in
  snd (send_result_to_client E self result w) = inr tt /\
  objects w' = objects w /\
  active_connections w' = active_connections w /\
  trace w' = (SendText ws (VDict payload), answer) :: trace w /\
  dict_lookup payload "provider" = Some (VStr (provider_name c)) /\
  (forall k, k <> "provider" -> dict_lookup payload k = dict_lookup result k) /\
  log w' = match answer with
           | inl e => (PRINT, ("Error sending result to client: " ++ exn_str e)%string)
                      :: log w
           | inr _ => log w
           end.
Proof.
  intros (a & Ha & Hc & Hs). cbv zeta.
  unfold send_result_to_client. run_with Ha. rewrite Hc, Hs.
  split; [next_call; reflexivity|].
  split; [next_call; reflexivity|].
  split; [next_call; reflexivity|].
  split; [next_call; reflexivity|].
  split; [rewrite dict_lookup_set; reflexivity|].
  split.
  { intros k Hk. rewrite dict_lookup_set.
    destruct (String.eqb_spec k "provider"); [contradiction | reflexivity]. }
  next_call; reflexivity.
Qed.

Lemma results_are_stamped_with_the_provider_witness :
  trace (fst (send_result_to_client calm 1
                [("provider", VStr "someone"); ("note", VInt 1)] two_adapters))
  = [(SendText 7 (VDict [("provider", VStr "deepgram"); ("note", VInt 1)]),
      inr EmptyString)].
Proof.
  pose proof (results_are_stamped_with_the_provider calm two_adapters 1 Deepgram 7
                [("provider", VStr "someone"); ("note", VInt 1)]
                two_adapters_deepgram) as (_ & _ & _ & Ht & _).
  exact Ht.
Defined.

(** X17. A [disconnect] that fails.  When the close handshake of Deepgram (the
    [CloseStream] message) raises, [close()] is not called; when
    [close()] of the Speechmatics client raises, nothing follows it.  In
    both adapters the line that lowers [is_connected] is not reached:
    the flag is as it was, the error is logged and [disconnect]
    returns. *)
Theorem failed_disconnect_leaves_the_flag (E : Env) (w : world) (self : nat)
    (a : adapter) (e : exn) :
  objects w !! self = Some a ->
  (forall s,
     cls a = Deepgram ->
     provider_websocket a = Some s -> vs_closed s = false ->
     respond E (trace w) (WsSendText (vs_id s) close_stream) = inl e ->
     let w' := fst (DeepgramProvider.disconnect E self w) in
     snd (DeepgramProvider.disconnect E self w) = inr tt /\
     trace w' = (WsSendText (vs_id s) close_stream, inl e) :: trace w /\
     log w' = (ERROR, ("Error disconnecting from Deepgram: " ++ exn_str e)%string)
              :: log w /\
     exists a', objects w' !! self = Some a' /\ is_connected a' = is_connected a) /\
  (forall c,
     cls a = Speechmatics ->
     voice_client a = Some c ->
     respond E (trace w) (VoiceClose c) = inl e ->
     SpeechmaticsProvider.disconnect E self w
     = ({| trace := (VoiceClose c, inl e) :: trace w; objects := objects w;
           active_connections := active_connections w; tasks := tasks w;
           log := (ERROR, ("Error disconnecting from Speechmatics: "
                           ++ exn_str e)%string) :: log w |}, inr tt)).
Proof.
  intros Ha. split.
  - intros s Hc Hpw Hopen Hresp. cbv zeta. unfold close_stream in *.
    unfold DeepgramProvider.disconnect. run_socket Ha.
    rewrite Hpw, Hopen. cbn [negb]. run_socket Ha. rewrite Hresp. run_socket Ha.
    destruct (bool_decide (exn_cls e = ConnectionClosed)); run_socket Ha;
      (split; [reflexivity|]); (split; [reflexivity|]); (split; [reflexivity|]).
    + eexists. split; reflexivity.
    + eexists. split; reflexivity.
  - intros c Hc Hvc Hresp.
    unfold SpeechmaticsProvider.disconnect. run_socket Ha.
    rewrite Hvc. run_socket Ha. rewrite Hresp. run_socket Ha. reflexivity.
Qed.

Lemma failed_disconnect_leaves_the_flag_witness :
  let w1 := fst (DeepgramProvider.connect stuck 1 two_adapters) in
  objects w1 !! 1%nat = Some connected_deepgram /\
  exists a',
    objects (fst (DeepgramProvider.disconnect stuck 1 w1)) !! 1%nat = Some a' /\
    is_connected a' = true.
Proof.
  cbv zeta.
  assert (Ha : objects (fst (DeepgramProvider.connect stuck 1 two_adapters)) !! 1%nat
               = Some connected_deepgram) by (vm_compute; reflexivity).
  split; [exact Ha|].
  pose proof (failed_disconnect_leaves_the_flag stuck _ 1 connected_deepgram
                (Exn OtherError "timed out") Ha) as (Hd & _).
  destruct (Hd {| vs_id := 0; vs_closed := false |} eq_refl eq_refl eq_refl eq_refl)
    as (_ & _ & _ & a' & Ha' & Hflag).
  exists a'. split; [exact Ha' | exact Hflag].
Defined.

(** X18. A second configuration.  [initialize_providers] never closes
    anything: whatever the configuration, every call it makes sets a
    channel up or writes to the client.  So when a session that already
    stores an adapter for [p] is configured again with a key for [p],
    the stored adapter is replaced by a new one and is itself left
    exactly as it was, connected if it was connected: nothing
    disconnects it. *)
Theorem reconfiguration_orphans_the_adapter (E : Env) (ws : nat) (config : value)
    (w : world) (cd : connection_data) (p : provider) (old : nat) (a : adapter) :
  sessions_ok w ->
  active_connections w !! ws = Some cd ->
  config_ok config = true ->
  client_accepts E ws ->
  has_api_key config p = true ->
  ConnectionManager.cd_provider p cd = Some old ->
  objects w !! old = Some a ->
  let w' := fst (ConnectionManager.initialize_providers E ws config w) in
  Forall (fun ev : event => setup_call (fst ev) = true) (added w w') /\
  objects w' !! old = Some a /\
  exists cd' fresh,
    active_connections w' !! ws = Some cd' /\
    ConnectionManager.cd_provider p cd' = Some fresh /\
    fresh <> old.
Proof.
  intros Hok Hcd Hcfg Hclient Hkey Hold Ha. cbv zeta.
  split.
  { assert (Hserves :
      serves (fun ev : event => setup_call (fst ev) = true) ws anywhere
             (ConnectionManager.initialize_providers E ws config) anything).
    { apply IsolationFacts.serves_initialize_providers.
      - reflexivity.
      - intros c ev [(_ & Hs)|(msg & Hw)]; [exact Hs | rewrite Hw; reflexivity]. }
    destruct (Hserves w Hok I) as ((_ & _ & _ & _ & new & Hg & Hnew) & _).
    rewrite (added_grows _ _ _ Hg). exact Hnew. }
  destruct (initialize_providers_run E ws config w cd Hcd Hcfg Hclient)
    as (w1 & w2 & Hrun & Hb1 & Hb2).
  rewrite Hrun. cbn [fst].
  assert (Hlt : (old < length (objects w))%nat) by (eapply lookup_lt_Some; eauto).
  destruct (block_post_state _ _ _ _ _ _ Hb1 (lookup_insert_eq _ _ _))
    as (cd1 & created1 & Hcd1 & Ho1 & _ & _ & Hother1 & Hp1).
  destruct (block_post_state _ _ _ _ _ _ Hb2 Hcd1)
    as (cd2 & created2 & Hcd2 & Ho2 & _ & _ & Hother2 & Hp2).
  cbn [objects with_connections] in Ho1, Hp1.
  split.
  { rewrite Ho2, Ho1. rewrite !lookup_app_l; [exact Ha | lia |].
    rewrite length_app. lia. }
  exists cd2. destruct p.
  - exists (length (objects w)). split; [exact Hcd2|]. split; [|lia].
    rewrite (Hother2 Speechmatics) by discriminate. rewrite Hp1, Hkey. reflexivity.
  - exists (length (objects w1)). split; [exact Hcd2|]. split.
    + rewrite Hp2, Hkey. reflexivity.
    + rewrite Ho1, length_app. lia.
Qed.

Lemma reconfiguration_orphans_the_adapter_witness :
  let w' := fst (ConnectionManager.initialize_providers calm 7 both_keys
                   live_session) in
  objects w' !! 1%nat = objects live_session !! 1%nat /\
  exists cd' fresh,
    active_connections w' !! 7%nat = Some cd' /\
    ConnectionManager.cd_provider Deepgram cd' = Some fresh /\
    fresh <> 1%nat.
Proof.
  cbv zeta.
  assert (Hok : sessions_ok live_session)
    by exact (proj1 (proj1 (IsolationFacts.serves_initialize_providers
                              calm 7 (client_only 7) (client_only_client 7)
                              (client_only_setup 7)
                              both_keys session_world session_world_ok I))).
  assert (Hcd : active_connections live_session !! 7%nat
                = Some {| cd_speechmatics := Some 0%nat; cd_deepgram := Some 1%nat;
                          cd_config := Some both_keys |})
    by (vm_compute; reflexivity).
  assert (Ha : exists a, objects live_session !! 1%nat = Some a)
    by (eexists; vm_compute; reflexivity).
  destruct Ha as (a & Ha).
  pose proof (reconfiguration_orphans_the_adapter calm 7 both_keys live_session _
                Deepgram 1 a Hok Hcd eq_refl (calm_client_accepts 7)
                eq_refl eq_refl Ha) as (_ & Hold & Hnew).
  split; [rewrite Ha; exact Hold | exact Hnew].
Defined.

(** X19. The lifecycle events of Speechmatics.  [SPEAKER_STARTED] and
    [SPEAKER_ENDED] are passed on as [speech_started] and [speech_ended]
    with the [status] of the message (the empty string when it has
    none); [END_OF_TURN] is passed on as [end_of_turn], whatever the
    message holds.  Each is one write to the client of the adapter, and
    the handler returns whether or not the write went through. *)
Theorem lifecycle_events_are_passed_on (E : Env) (self ws : nat) (w : world)
    (d : list (string * value)) (message : value) :
  is_adapter self Speechmatics ws w ->
  let event kind :=
    VDict [("provider", VStr "speechmatics"); ("event", VStr kind);
           ("status", option_or d "status" (VStr EmptyString))] in
  (snd (SpeechmaticsProvider.handler E self SPEAKER_STARTED (VDict d) w) = inr tt /\
   calls (fst (SpeechmaticsProvider.handler E self SPEAKER_STARTED (VDict d) w))
   = calls w ++ [SendText ws (event "speech_started")]) /\
  (snd (SpeechmaticsProvider.handler E self SPEAKER_ENDED (VDict d) w) = inr tt /\
   calls (fst (SpeechmaticsProvider.handler E self SPEAKER_ENDED (VDict d) w))
   = calls w ++ [SendText ws (event "speech_ended")]) /\
  (snd (SpeechmaticsProvider.handler E self END_OF_TURN message w) = inr tt /\
   calls (fst (SpeechmaticsProvider.handler E self END_OF_TURN message w))
   = calls w ++ [SendText ws (VDict [("provider", VStr "speechmatics");
                                     ("event", VStr "end_of_turn")])]).
Proof.
  intros (a & Ha & Hc & Hs). cbv zeta. unfold option_or.
  cbn [SpeechmaticsProvider.handler].
  unfold SpeechmaticsProvider._handle_speech_started,
    SpeechmaticsProvider._handle_speech_ended,
    SpeechmaticsProvider._handle_end_of_turn.
  cbn [get]. run_with Ha. rewrite Hs. unfold calls, ok. cbn beta iota.
  repeat split; next_call; cbn; rewrite ?map_app; reflexivity.
Qed.

Lemma lifecycle_events_are_passed_on_witness :
  calls (fst (SpeechmaticsProvider.handler calm 0 END_OF_TURN VNone two_adapters))
  = [SendText 7 (VDict [("provider", VStr "speechmatics");
                        ("event", VStr "end_of_turn")])].
Proof.
  pose proof (lifecycle_events_are_passed_on calm 0 7 two_adapters [] VNone
                two_adapters_speechmatics) as (_ & _ & _ & Hc).
  exact Hc.
Defined.

(** X20. After a stop.  On a table in order, [stop_providers] returns and
    leaves the session in the table with both adapter entries empty and
    the configuration it had; the other sessions are as they were. *)
Theorem stop_empties_the_session (E : Env) (ws : nat) (w : world)
    (cd : connection_data) :
  sessions_ok w ->
  active_connections w !! ws = Some cd ->
  snd (ConnectionManager.stop_providers E ws w) = inr tt /\
  active_connections (fst (ConnectionManager.stop_providers E ws w))
  = <[ws := {| cd_speechmatics := None; cd_deepgram := None;
               cd_config := cd_config cd |}]> (active_connections w).
Proof.
  intros Hok Hcd.
  destruct (stop_providers_run E ws w Hok) as (w1 & w2 & Hrun & H1 & H2).
  rewrite Hrun. cbn [fst snd]. split; [reflexivity|].
  unfold stop_post in H1, H2. rewrite Hcd in H1.
  assert (Hc1 : active_connections w1
                = <[ws := ConnectionManager.set_cd_provider Speechmatics None cd]>
                    (active_connections w)).
  { destruct (ConnectionManager.cd_provider Speechmatics cd) as [s|] eqn:Hs.
    - apply H1.
    - subst w1. symmetry. apply insert_id. rewrite Hcd. f_equal.
      destruct cd; cbn in *. subst. reflexivity. }
  assert (Hl1 : active_connections w1 !! ws
                = Some (ConnectionManager.set_cd_provider Speechmatics None cd))
    by (rewrite Hc1; apply lookup_insert_eq).
  rewrite Hl1 in H2.
  assert (Hc2 : active_connections w2
                = <[ws := ConnectionManager.set_cd_provider Deepgram None
                            (ConnectionManager.set_cd_provider Speechmatics None cd)]>
                    (active_connections w1)).
  { destruct (ConnectionManager.cd_provider Deepgram
                (ConnectionManager.set_cd_provider Speechmatics None cd))
      as [s|] eqn:Hs.
    - exact (proj1 H2).
    - subst w2. symmetry. apply insert_id. rewrite Hl1. f_equal.
      destruct cd; cbn in *. subst. reflexivity. }
  rewrite Hc2, Hc1, insert_insert_eq. reflexivity.
Qed.

Lemma stop_empties_the_session_witness :
  sessions_ok session_world /\
  active_connections (fst (ConnectionManager.stop_providers calm 7 session_world))
  = <[7%nat := fresh_session]> (active_connections session_world).
Proof.
  split; [exact session_world_ok|].
  exact (proj2 (stop_empties_the_session calm 7 session_world fresh_session
                  session_world_ok session_world_session)).
Defined.

(** X21. A configuration that cannot be read.  When the configuration is not
    an object, or its [audio] entry is not one, reading the sample rate
    raises; [initialize_providers] then creates no adapter and calls no
    vendor: it stores the configuration in the session and sends the
    client one message [{"error": "Failed to initialize providers: ..."}]
    that names no provider.  It returns if that write goes through; an
    exception of the write is not caught. *)
Theorem unreadable_configuration_is_reported (E : Env) (ws : nat)
    (config : value) (w : world) (cd : connection_data) (e : exn) :
  active_connections w !! ws = Some cd ->
  (get config "audio" (VDict []) = inl e \/
   exists audio, get config "audio" (VDict []) = inr audio /\
                 get audio "sampleRate" (VInt 16000) = inl e) ->
  let w' := fst (ConnectionManager.initialize_providers E ws config w) in
  let report :=
    SendText ws (VDict [("error", VStr ("Failed to initialize providers: "
                                        ++ exn_str e))]) in
  objects w' = objects w /\
  active_connections w'
  = <[ws := ConnectionManager.set_cd_config (Some config) cd]> (active_connections w) /\
  trace w' = (report, respond E (trace w) report) :: trace w /\
  snd (ConnectionManager.initialize_providers E ws config w)
  = match respond E (trace w) report with
    | inl e' => inl e'
    | inr _ => inr tt
    end.
Proof.
  intros Hcd Hbad. cbv zeta.
  unfold ConnectionManager.initialize_providers, ConnectionManager.update_connection.
  unfold bind, try_except, lift, logger, perform, ret. rewrite Hcd.
  cbn [fst snd active_connections with_connections]. rewrite Hcd.
  destruct Hbad as [Hbad|(audio & Haudio & Hbad)].
  - rewrite Hbad. cbn.
    destruct (respond E (trace w) _); cbn; repeat split; reflexivity.
  - rewrite Haudio, Hbad. cbn.
    destruct (respond E (trace w) _); cbn; repeat split; reflexivity.
Qed.

Lemma unreadable_configuration_is_reported_witness :
  trace (fst (ConnectionManager.initialize_providers calm 7 (VList [])
                session_world))
  = [(SendText 7
        (VDict [("error",
                 VStr "Failed to initialize providers: 'list' object has no attribute 'get'")]),
      inr EmptyString)].
Proof.
  pose proof (unreadable_configuration_is_reported calm 7 (VList []) session_world
                fresh_session
                (Exn AttributeError "'list' object has no attribute 'get'")
                session_world_session (or_introl eq_refl))
    as (_ & _ & Ht & _).
  exact Ht.
Defined.
